(** * language_drift: the IWSLT data path, the preprocessing pipeline and the
    Agent's forward pass, embedded from the Python sources

    - [src/ld_research/text/preprocess.py]  download / tokenize / BPE stages
    - [src/ld_research/text/iwslt.py]       IWSLTDataset, IWSLTExample, IWSLTDataloader
    - [src/ld_research/model/agent.py]      Agent.forward

    Python values are modelled as follows.  A [str] is a [string]; each
    [ascii] stands for the code point of the same number, so the text that
    is modelled is the text whose code points are below 256.  A Python [int]
    is a [Z]; an entry of a tensor of integers is a [Z] too, and arithmetic
    on such a tensor wraps around in the integer type of the tensor.  A
    raised exception is the [Raise] case of [result]; code that
    mutates state threads it explicitly and keeps it when an exception is
    raised, as the interpreter does.  The operating system, the external
    programs and the third-party libraries the code calls are fields of the
    record [Platform]. *)

From Stdlib Require Import String Ascii List ZArith Bool Arith Lia DecimalString.
Import ListNotations.

Local Open Scope string_scope.
Local Open Scope list_scope.

(** Python's [+] on strings. *)
Infix "+++" := String.append (at level 60, right associativity).

(* ===================================================================== *)
(** * Part I.  Definitions                                                *)
(* ===================================================================== *)

(** ** Exceptions and results *)

Inductive exn : Type :=
| AssertionError (msg : string)
| AttributeError (msg : string)
| KeyError (key : string)
| IndexError (msg : string)
| ValueError (msg : string)
| TypeError (msg : string)
| OSError (what : string)
| UnicodeDecodeError (msg : string)
| ImportError (what : string)
| NotModelled (what : string).

Inductive result (A : Type) : Type :=
| Ok (a : A)
| Raise (e : exn).

Arguments Ok {A} a.
Arguments Raise {A} e.

Definition rbind {A B : Type} (r : result A) (k : A -> result B) : result B :=
  match r with
  | Ok a => k a
  | Raise e => Raise e
  end.

Declare Scope result_scope.
Delimit Scope result_scope with result.
Notation "x <- r ;; k" := (rbind r (fun x => k))
  (at level 61, r at next level, right associativity) : result_scope.

Fixpoint rmap {A B : Type} (f : A -> result B) (l : list A) : result (list B) :=
  match l with
  | [] => Ok []
  | a :: l' =>
      (b <- f a ;;
       bs <- rmap f l' ;;
       Ok (b :: bs))%result
  end.

(** ** Python strings *)

Definition chr (n : nat) : ascii := ascii_of_nat n.
Definition NL : string := String (chr 10) "".

(** [s[1:]] *)
Definition drop_first (s : string) : string :=
  match s with
  | EmptyString => ""
  | String _ r => r
  end.

(** [s[-n:]] for a positive literal [n]: the last [n] characters, the whole
    string when it is shorter. *)
Definition last_chars (n : nat) (s : string) : string :=
  substring (String.length s - n) n s.

Definition startswith_sep (s : string) : bool :=
  match s with
  | String c _ => Ascii.eqb c "/"
  | EmptyString => false
  end.

Fixpoint endswith_sep (s : string) : bool :=
  match s with
  | EmptyString => false
  | String c EmptyString => Ascii.eqb c "/"
  | String _ r => endswith_sep r
  end.

(** One step of the loop of [posixpath.join]. *)
Definition join2 (path b : string) : string :=
  if startswith_sep b then b
  else if (path =? "") || endswith_sep path then path +++ b
  else path +++ "/" +++ b.

(** [os.path.join(a, p1, p2, ...)] *)
Definition join (a : string) (p : list string) : string :=
  fold_left join2 p a.

Fixpoint has_sep (s : string) : bool :=
  match s with
  | EmptyString => false
  | String c r => Ascii.eqb c "/" || has_sep r
  end.

(** [os.path.basename(p)]: what follows the last slash. *)
Fixpoint basename (s : string) : string :=
  match s with
  | EmptyString => ""
  | String c r =>
      if has_sep r then basename r
      else if Ascii.eqb c "/" then r
      else s
  end.

(** [sep.join(l)] *)
Fixpoint str_join (sep : string) (l : list string) : string :=
  match l with
  | [] => ""
  | [s] => s
  | s :: l' => s +++ sep +++ str_join sep l'
  end.

(** [str(n)] for an [int]. *)
Definition str_of_int (n : Z) : string :=
  NilZero.string_of_int (Z.to_int n).

(** [str.isspace] on one character, for code points below 256: the ASCII
    white space of CPython (tab, line feed, vertical tab, form feed, carriage
    return, the four separators 28..31 and the space) and the two Latin-1 ones
    (next line, no-break space). *)
Definition is_space (c : ascii) : bool :=
  let n := nat_of_ascii c in
  (((9 <=? n) && (n <=? 13)) || ((28 <=? n) && (n <=? 32))
   || (n =? 133) || (n =? 160))%nat.

Definition is_empty (s : string) : bool :=
  match s with
  | EmptyString => true
  | String _ _ => false
  end.

(** [s.split()]: the maximal runs of characters that are not white space.
    [tok] is the run being read. *)
Fixpoint split_go (tok : string) (s : string) : list string :=
  match s with
  | EmptyString => if is_empty tok then [] else [tok]
  | String c r =>
      if is_space c
      then (if is_empty tok then split_go "" r else tok :: split_go "" r)
      else split_go (tok +++ String c "") r
  end.

Definition split (s : string) : list string := split_go "" s.

(** No white space occurs in [s]. *)
Fixpoint space_free (s : string) : bool :=
  match s with
  | EmptyString => true
  | String c r => negb (is_space c) && space_free r
  end.

(** A token: not empty, no white space. *)
Definition token (t : string) : Prop := t <> "" /\ space_free t = true.

(** [s.rstrip('\n')]: every trailing line feed is removed. *)
Fixpoint rstrip_nl (s : string) : string :=
  match s with
  | EmptyString => ""
  | String c r =>
      let r' := rstrip_nl r in
      if Ascii.eqb c (chr 10) && is_empty r' then "" else String c r'
  end.

(** [fmt.format(a1, a2, ...)] for the replacement fields this program writes: the
    automatically numbered field [{}] and the two escapes.  A closing brace on
    its own and a field that is opened and never closed are [ValueError]s, a
    field past the last argument is an [IndexError], and superfluous arguments
    are ignored, as in Python.  A field with a name, an index, a conversion or
    a format specification is outside the fragment and is reported as
    [NotModelled]. *)
Fixpoint format (fmt : string) (args : list string) : result string :=
  match fmt with
  | EmptyString => Ok ""
  | String c rest =>
      if Ascii.eqb c "{" then
        match rest with
        | EmptyString =>
            Raise (ValueError "Single '{' encountered in format string")
        | String c' rest' =>
            if Ascii.eqb c' "}" then
              match args with
              | [] => Raise (IndexError "Replacement index out of range")
              | a :: args' => (r <- format rest' args' ;; Ok (a +++ r))%result
              end
            else if Ascii.eqb c' "{" then
              (r <- format rest' args ;; Ok (String "{" r))%result
            else Raise (NotModelled "replacement field with contents")
        end
      else if Ascii.eqb c "}" then
        match rest with
        | EmptyString =>
            Raise (ValueError "Single '}' encountered in format string")
        | String c' rest' =>
            if Ascii.eqb c' "}" then
              (r <- format rest' args ;; Ok (String "}" r))%result
            else Raise (ValueError "Single '}' encountered in format string")
        end
      else (r <- format rest args ;; Ok (String c r))%result
  end.

(** No brace occurs in [s]: as a piece of a format string it is literal text. *)
Fixpoint brace_free (s : string) : bool :=
  match s with
  | EmptyString => true
  | String c r =>
      negb (Ascii.eqb c "{") && negb (Ascii.eqb c "}") && brace_free r
  end.

(** ** Python lists and dicts *)

(** The largest index-sized integer of CPython on a 64-bit machine. *)
Definition PY_SSIZE_T_MAX : Z := (2 ^ 63 - 1)%Z.

(** An int that fits into an index-sized integer. *)
Definition index_sized (i : Z) : bool :=
  ((- PY_SSIZE_T_MAX - 1 <=? i) && (i <=? PY_SSIZE_T_MAX))%Z.

(** [l[i]] with Python's negative indices.  CPython first converts the index
    to an index-sized integer, which fails for an int that does not fit, and
    then looks at the range.  A list of CPython has at most [PY_SSIZE_T_MAX]
    elements, so an index that does not fit is never in range: the test of
    the range is written first, and needs no bound on the list then. *)
Definition py_index {A : Type} (l : list A) (i : Z) : result A :=
  let n := Z.of_nat (List.length l) in
  let j := if (i <? 0)%Z then (i + n)%Z else i in
  if ((0 <=? j) && (j <? n))%Z
  then match nth_error l (Z.to_nat j) with
       | Some a => Ok a
       | None => Raise (IndexError "list index out of range")
       end
  else if index_sized i
       then Raise (IndexError "list index out of range")
       else Raise (IndexError "cannot fit 'int' into an index-sized integer").

(** [itertools.product(xs, ys)]: the rightmost element advances fastest. *)
Definition product {A B : Type} (xs : list A) (ys : list B) : list (A * B) :=
  flat_map (fun x => map (fun y => (x, y)) ys) xs.

(** A [dict] with string keys, in insertion order (the order of iteration
    since Python 3.7).  Storing under a key that is present replaces the value
    and keeps the key's position. *)
Definition dict (V : Type) : Type := list (string * V).

Fixpoint dict_set {V : Type} (k : string) (v : V) (d : dict V) : dict V :=
  match d with
  | [] => [(k, v)]
  | (k', v') :: d' =>
      if k' =? k then (k', v) :: d' else (k', v') :: dict_set k v d'
  end.

(** A dict display [{k1: v1, k2: v2, ...}]. *)
Definition dict_of {V : Type} (items : list (string * V)) : dict V :=
  fold_left (fun d kv => dict_set (fst kv) (snd kv) d) items [].

Definition dict_keys {V : Type} (d : dict V) : list string := map fst d.

(** [d[k]] *)
Fixpoint dict_get {V : Type} (d : dict V) (k : string) : result V :=
  match d with
  | [] => Raise (KeyError k)
  | (k', v) :: d' => if k' =? k then Ok v else dict_get d' k
  end.

(** [x in l] for a list of strings. *)
Definition str_in (x : string) (l : list string) : bool :=
  existsb (String.eqb x) l.

(** ** Settings, platform and the state the pipeline runs in *)

(** Modelled from the spec: [ld_research/settings.py] is not among the
    sources.  Section 4.1 names its constants: three root directories, the
    three language codes (a marker character followed by an ISO code), the
    interpreter and the two BPE scripts, the frequency threshold and the two
    special tokens.  Their values are left open. *)
Record Settings : Type := {
  ROOT_CORPUS_DIR : string;
  ROOT_TOK_DIR : string;
  ROOT_BPE_DIR : string;
  FR : string;
  EN : string;
  DE : string;
  PYTHONBIN : string;
  LEARN_JOINT_BPE : string;
  APPLY_BPE : string;
  MIN_FREQ : Z;
  EOS_WORD : string;
  BOS_WORD : string
}.

(** [torchtext.datasets.IWSLT.name] and [.base_dirname], two class
    attributes of the third-party data set.  [learn_bpe] and [iwslt.py] spell
    the same values as literals (['iwslt'], ['en-de'], ['{}-{}']). *)
Definition IWSLT_name : string := "iwslt".
Definition IWSLT_base_dirname : string := "{}-{}".

(** What [readlines()] can raise on a text file that has been opened: its
    bytes cannot be decoded, or the operating system cannot read it. *)
Inductive read_error : Type :=
| Undecodable (msg : string)
| Unreadable (what : string).

(** A text file opened for reading, given by what its [readlines()] returns
    or raises. *)
Inductive text_file : Type :=
| Lines (lines : list string)
| Broken (e : read_error).

(** [file.readlines()] *)
Definition text_readlines (file : text_file) : result (list string) :=
  match file with
  | Lines lines => Ok lines
  | Broken (Undecodable msg) => Raise (UnicodeDecodeError msg)
  | Broken (Unreadable what) => Raise (OSError what)
  end.

(** What the program reaches outside itself: the file system, child
    processes, and the third-party tokenizer and corpus downloader.  [None]
    stands for the exception the operation raises when it fails. *)
Record Platform : Type := {
  FS : Type;
  (** [os.path.exists] *)
  path_exists : FS -> string -> bool;
  (** [os.makedirs] *)
  makedirs : string -> FS -> option FS;
  (** [open(p, 'w')]: the file is created or truncated *)
  open_w : string -> FS -> option FS;
  (** [open(p, 'r')] *)
  open_r : string -> FS -> option text_file;
  (** [f.write(text)] on the file opened at this path *)
  write : string -> string -> FS -> FS;
  (** [subprocess.call(cmd)]: the exit status and what the child did *)
  subprocess_call : list string -> FS -> option (Z * FS);
  (** [get_tokenizer('moses')] *)
  get_tokenizer_moses : option (string -> list string);
  (** [str.lower] *)
  lower : string -> string;
  (** [IWSLT.base_url] *)
  IWSLT_base_url : string;
  (** [IWSLT.download(root, check)], which reads [IWSLT.dirname] and
      [IWSLT.urls] *)
  IWSLT_download :
    option string -> option (list string) -> string -> string -> FS -> option FS;
  (** [IWSLT.clean(path)] *)
  IWSLT_clean : string -> FS -> option FS
}.

(** [open(p, 'r')] followed by [readlines()], when both succeed. *)
Definition readlines (P : Platform) (f : FS P) (p : string)
  : option (list string) :=
  match open_r P p f with
  | Some (Lines lines) => Some lines
  | _ => None
  end.

(** The state a preprocessing stage can change: the file system, the log,
    the child processes started so far, and the two class attributes of
    [IWSLT] that the download helper assigns. *)
Record World (P : Platform) : Type := mkWorld {
  fs : FS P;
  log : list string;
  procs : list (list string);
  IWSLT_dirname : option string;
  IWSLT_urls : option (list string)
}.

Arguments mkWorld {P} fs log procs IWSLT_dirname IWSLT_urls.
Arguments fs {P} w.
Arguments log {P} w.
Arguments procs {P} w.
Arguments IWSLT_dirname {P} w.
Arguments IWSLT_urls {P} w.

(** A computation over a state [S] that returns or raises, and keeps the
    state it reached either way. *)
Definition M (S A : Type) : Type := S -> result A * S.

Definition ret {S A : Type} (a : A) : M S A := fun s => (Ok a, s).

Definition raise {S A : Type} (e : exn) : M S A := fun s => (Raise e, s).

Definition bind {S A B : Type} (m : M S A) (k : A -> M S B) : M S B :=
  fun s =>
    match m s with
    | (Ok a, s') => k a s'
    | (Raise e, s') => (Raise e, s')
    end.

Definition lift {S A : Type} (r : result A) : M S A := fun s => (r, s).

Declare Scope M_scope.
Delimit Scope M_scope with M.
Notation "x <- m ;; k" := (bind m (fun x => k))
  (at level 61, m at next level, right associativity) : M_scope.
Notation "m ;; k" := (bind m (fun _ => k))
  (at level 61, right associativity) : M_scope.

(** [for x in l: body(x)] *)
Fixpoint for_each {S A : Type} (l : list A) (body : A -> M S unit) : M S unit :=
  match l with
  | [] => ret tt
  | x :: l' => (body x ;; for_each l' body)%M
  end.

(** ** preprocess.py *)

Section Preprocess.

Variable cfg : Settings.
Variable P : Platform.

Definition IO (A : Type) : Type := M (World P) A.

Definition LOGGER_info (msg : string) : IO unit :=
  fun w => (Ok tt,
            mkWorld (fs w) (log w ++ [msg]) (procs w)
                    (IWSLT_dirname w) (IWSLT_urls w)).

Definition set_fs (f : FS P) (w : World P) : World P :=
  mkWorld f (log w) (procs w) (IWSLT_dirname w) (IWSLT_urls w).

Definition os_path_exists (p : string) : IO bool :=
  fun w => (Ok (path_exists P (fs w) p), w).

Definition os_makedirs (p : string) : IO unit :=
  fun w =>
    match makedirs P p (fs w) with
    | Some f => (Ok tt, set_fs f w)
    | None => (Raise (OSError p), w)
    end.

(** [call(cmd)]: the command is recorded whether or not it could be
    started; its exit status is the value. *)
Definition call (cmd : list string) : IO Z :=
  fun w =>
    let w1 := mkWorld (fs w) (log w) (procs w ++ [cmd])
                      (IWSLT_dirname w) (IWSLT_urls w) in
    match subprocess_call P cmd (fs w) with
    | Some (status, f) => (Ok status, set_fs f w1)
    | None => (Raise (OSError (hd "" cmd)), w1)
    end.

Definition fs_step (what : string) (step : FS P -> option (FS P)) : IO unit :=
  fun w =>
    match step (fs w) with
    | Some f => (Ok tt, set_fs f w)
    | None => (Raise (OSError what), w)
    end.

(** [open(p, 'r')] *)
Definition open_read (p : string) : IO text_file :=
  fun w =>
    match open_r P p (fs w) with
    | Some file => (Ok file, w)
    | None => (Raise (OSError p), w)
    end.

(** [file.readlines()] *)
Definition file_readlines (file : text_file) : IO (list string) :=
  lift (text_readlines file).

Definition file_write (p text : string) : IO unit :=
  fun w => (Ok tt, set_fs (write P p text (fs w)) w).

Definition get_tokenizer : IO (string -> list string) :=
  match get_tokenizer_moses P with
  | Some t => ret t
  | None => raise (ImportError "moses")
  end.

(** The directory name of a language pair: [base_dirname.format(src_lang[1:],
    tgt_lang[1:])]. *)
Definition pair_dirname (src_lang tgt_lang : string) : result string :=
  format IWSLT_base_dirname [drop_first src_lang; drop_first tgt_lang].

Definition _IWSLT_download_helper (src_lang tgt_lang : string) : IO unit :=
  (d <- lift (pair_dirname src_lang tgt_lang) ;;
   let corpus_dir := join (ROOT_CORPUS_DIR cfg) [IWSLT_name; d] in
   found <- os_path_exists corpus_dir ;;
   if found : bool then
     msg <- lift (format "iwslt {}-{} exists, skipping..."
                         [drop_first src_lang; drop_first tgt_lang; corpus_dir]) ;;
     LOGGER_info msg
   else
     msg <- lift (format "downloading in {}..." [corpus_dir]) ;;
     LOGGER_info msg ;;
     dirname <- lift (pair_dirname src_lang tgt_lang) ;;
     (fun w => (Ok tt, mkWorld (fs w) (log w) (procs w)
                               (Some dirname) (IWSLT_urls w))) ;;
     url <- lift (format (IWSLT_base_url P)
                         [drop_first src_lang; drop_first tgt_lang; dirname]) ;;
     (fun w => (Ok tt, mkWorld (fs w) (log w) (procs w)
                               (IWSLT_dirname w) (Some [url]))) ;;
     (fun w => fs_step "IWSLT.download"
                 (IWSLT_download P (IWSLT_dirname w) (IWSLT_urls w)
                                 (ROOT_CORPUS_DIR cfg) corpus_dir) w) ;;
     fs_step "IWSLT.clean" (IWSLT_clean P corpus_dir))%M.

Definition _tokenize (in_file out_file : string) : IO unit :=
  (moses_tokenzer <- get_tokenizer ;;
   fs_step out_file (open_w P out_file) ;;
   inp <- open_read in_file ;;
   msg <- lift (format "tokenizing {}..." [basename in_file]) ;;
   LOGGER_info msg ;;
   lines <- file_readlines inp ;;
   for_each lines (fun line =>
     let tokenized_line := moses_tokenzer (lower P line) in
     file_write out_file (str_join " " (tokenized_line ++ [NL]))))%M.

Definition iwslt_prefixs : list string :=
  ["train"; "IWSLT16.TED.tst2013"; "IWSLT16.TED.tst2014"].

Definition iwslt_suffixs (src_lang tgt_lang : string) : list string :=
  [drop_first src_lang +++ "-" +++ drop_first tgt_lang +++ src_lang;
   drop_first src_lang +++ "-" +++ drop_first tgt_lang +++ tgt_lang].

Definition _tokenize_IWSLT_helper (src_lang tgt_lang : string) : IO unit :=
  (d <- lift (pair_dirname src_lang tgt_lang) ;;
   let token_dir := join (ROOT_TOK_DIR cfg) [IWSLT_name; d] in
   found <- os_path_exists token_dir ;;
   if found : bool then
     msg <- lift (format "{} exists, skipping..." [token_dir]) ;;
     LOGGER_info msg
   else
     os_makedirs token_dir ;;
     d' <- lift (pair_dirname src_lang tgt_lang) ;;
     let corpus_dir := join (ROOT_CORPUS_DIR cfg) [IWSLT_name; d'] in
     let suffixs := iwslt_suffixs src_lang tgt_lang in
     let prefixs := iwslt_prefixs in
     for_each (product prefixs suffixs) (fun ps =>
       let '(prefix, suffix) := ps in
       let in_file := join corpus_dir [prefix +++ "." +++ suffix] in
       let out_file := join token_dir [prefix +++ "." +++ suffix] in
       _tokenize in_file out_file))%M.

Definition multi30k_prefixs : list string :=
  ["train"; "val"; "test_2017_flickr"].

Definition multi30k_langs : list string := [FR cfg; EN cfg; DE cfg].

Definition multi30k_base_url : string :=
  "https://github.com/multi30k/dataset/raw/master/data/task1/raw/{}{}.gz".

Definition _download_multi30k : IO unit :=
  (let corpus_dir := join (ROOT_CORPUS_DIR cfg) ["multi30k"] in
   found <- os_path_exists corpus_dir ;;
   if found : bool then LOGGER_info "multi30k exists, skipping..."
   else
     LOGGER_info "Downloading multi30k task1..." ;;
     let prefixs := multi30k_prefixs in
     let langs := multi30k_langs in
     for_each (product prefixs langs) (fun pl =>
       let '(prefix, lang) := pl in
       url <- lift (format multi30k_base_url [prefix; lang]) ;;
       let wget_cmd := ["wget"; url; "-P"; corpus_dir] in
       call wget_cmd ;;
       gz <- lift (format "{}{}.gz" [prefix; lang]) ;;
       call ["gunzip"; "-k"; join corpus_dir [gz]] ;;
       ret tt))%M.

Definition prepare_IWSLT : IO unit :=
  (_IWSLT_download_helper (FR cfg) (EN cfg) ;;
   _IWSLT_download_helper (EN cfg) (DE cfg) ;;
   _tokenize_IWSLT_helper (FR cfg) (EN cfg) ;;
   _tokenize_IWSLT_helper (EN cfg) (DE cfg))%M.

Definition prepare_multi30k : IO unit :=
  (_download_multi30k ;;
   let corpus_dir := join (ROOT_CORPUS_DIR cfg) ["multi30k"] in
   let prefixs := multi30k_prefixs in
   let langs := multi30k_langs in
   let tok_dir := join (ROOT_TOK_DIR cfg) ["multi30k"] in
   found <- os_path_exists tok_dir ;;
   if found : bool then LOGGER_info "multi30k tokens exists, skipping..."
   else
     LOGGER_info "Tokenizing multi30k task1..." ;;
     os_makedirs tok_dir ;;
     for_each (product prefixs langs) (fun pl =>
       let '(prefix, lang) := pl in
       file_name <- lift (format "{}{}" [prefix; lang]) ;;
       let in_file := join corpus_dir [file_name] in
       let out_file := join tok_dir [file_name] in
       _tokenize in_file out_file))%M.

(** The dict display at the head of [learn_bpe]. *)
Definition lang_files : dict string :=
  dict_of
    [(EN cfg, join (ROOT_TOK_DIR cfg) ["iwslt"; "en-de"; "train.en-de.en"]);
     (DE cfg, join (ROOT_TOK_DIR cfg) ["iwslt"; "en-de"; "train.en-de.de"]);
     (FR cfg, join (ROOT_TOK_DIR cfg) ["iwslt"; "fr-en"; "train.fr-en.fr"])].

Definition learn_bpe : IO unit :=
  (found <- os_path_exists (ROOT_BPE_DIR cfg) ;;
   (if negb found then os_makedirs (ROOT_BPE_DIR cfg) else ret tt) ;;
   let lang_files := lang_files in
   codes <- os_path_exists (join (ROOT_BPE_DIR cfg) ["bpe.codes"]) ;;
   if negb codes then
     let learn_bpe_cmd := [PYTHONBIN cfg; LEARN_JOINT_BPE cfg] in
     inputs <- lift (rmap (dict_get lang_files) (dict_keys lang_files)) ;;
     let learn_bpe_cmd := learn_bpe_cmd ++ ["--input"] ++ inputs in
     let learn_bpe_cmd := learn_bpe_cmd ++ ["-s"; "10000"] in
     let learn_bpe_cmd :=
       learn_bpe_cmd ++ ["-o"; join (ROOT_BPE_DIR cfg) ["bpe.codes"]] in
     let learn_bpe_cmd :=
       learn_bpe_cmd ++ ["--write-vocabulary"]
       ++ map (fun lang => join (ROOT_BPE_DIR cfg) ["vocab" +++ lang])
              (dict_keys lang_files) in
     LOGGER_info "Learning BPE on joint language..." ;;
     call learn_bpe_cmd ;;
     ret tt
   else LOGGER_info "bpe.codes file exist, skipping...")%M.

Definition apply_bpe (in_file out_file lang : string) : IO unit :=
  (let codes_file := join (ROOT_BPE_DIR cfg) ["bpe.codes"] in
   found <- os_path_exists codes_file ;;
   if negb found then
     msg <- lift (format "{} not exists!" [codes_file]) ;;
     raise (AssertionError msg)
   else
     let vocab_file := join (ROOT_BPE_DIR cfg) ["vocab" +++ lang] in
     let cmd := [PYTHONBIN cfg; APPLY_BPE cfg] in
     let cmd := cmd ++ ["-c"; codes_file] in
     let cmd := cmd ++ ["--vocabulary"; vocab_file] in
     let cmd := cmd ++ ["--vocabulary-threshold"; str_of_int (MIN_FREQ cfg)] in
     let cmd := cmd ++ ["--input"; in_file] in
     let cmd := cmd ++ ["--output"; out_file] in
     msg <- lift (format "Applying BPE to {}" [basename out_file]) ;;
     LOGGER_info msg ;;
     call cmd ;;
     ret tt)%M.

Definition apply_bpe_iwslt (src_lang tgt_lang : string) : IO unit :=
  (d <- lift (pair_dirname src_lang tgt_lang) ;;
   let bpe_dir := join (ROOT_BPE_DIR cfg) [IWSLT_name; d] in
   found <- os_path_exists bpe_dir ;;
   if found : bool then
     msg <- lift (format "BPE IWSLT for {}-{} exists, skipping..."
                         [drop_first src_lang; drop_first tgt_lang]) ;;
     LOGGER_info msg
   else
     os_makedirs bpe_dir ;;
     d' <- lift (pair_dirname src_lang tgt_lang) ;;
     let tok_dir := join (ROOT_TOK_DIR cfg) [IWSLT_name; d'] in
     let suffixs := iwslt_suffixs src_lang tgt_lang in
     let prefixs := iwslt_prefixs in
     for_each (product prefixs suffixs) (fun ps =>
       let '(prefix, suffix) := ps in
       let tokenized_file := join tok_dir [prefix +++ "." +++ suffix] in
       let bpe_out := join bpe_dir [prefix +++ "." +++ suffix] in
       apply_bpe tokenized_file bpe_out (last_chars 3 suffix)))%M.

Definition apply_bpe_multi30k : IO unit :=
  (let bpe_dir := join (ROOT_BPE_DIR cfg) ["multi30k"] in
   found <- os_path_exists bpe_dir ;;
   if found : bool then LOGGER_info "BPE Multi30k exists, skipping..."
   else
     os_makedirs bpe_dir ;;
     let tok_dir := join (ROOT_TOK_DIR cfg) ["multi30k"] in
     let prefixs := multi30k_prefixs in
     let langs := multi30k_langs in
     for_each (product prefixs langs) (fun pl =>
       let '(prefix, lang) := pl in
       let file_name := prefix +++ lang in
       let in_file := join tok_dir [file_name] in
       let out_file := join bpe_dir [file_name] in
       apply_bpe in_file out_file lang))%M.

End Preprocess.

(** ** The command lines of the two BPE scripts *)

Definition learn_bpe_command (cfg : Settings) : list string :=
  [PYTHONBIN cfg; LEARN_JOINT_BPE cfg;
   "--input";
   join (ROOT_TOK_DIR cfg) ["iwslt"; "en-de"; "train.en-de.en"];
   join (ROOT_TOK_DIR cfg) ["iwslt"; "en-de"; "train.en-de.de"];
   join (ROOT_TOK_DIR cfg) ["iwslt"; "fr-en"; "train.fr-en.fr"];
   "-s"; "10000";
   "-o"; join (ROOT_BPE_DIR cfg) ["bpe.codes"];
   "--write-vocabulary";
   join (ROOT_BPE_DIR cfg) ["vocab" +++ EN cfg];
   join (ROOT_BPE_DIR cfg) ["vocab" +++ DE cfg];
   join (ROOT_BPE_DIR cfg) ["vocab" +++ FR cfg]].

Definition apply_bpe_command (cfg : Settings) (in_file out_file lang : string)
  : list string :=
  [PYTHONBIN cfg; APPLY_BPE cfg;
   "-c"; join (ROOT_BPE_DIR cfg) ["bpe.codes"];
   "--vocabulary"; join (ROOT_BPE_DIR cfg) ["vocab" +++ lang];
   "--vocabulary-threshold"; str_of_int (MIN_FREQ cfg);
   "--input"; in_file;
   "--output"; out_file].

(** ** The stages of the pipeline that are guarded by a directory *)

Inductive stage : Type :=
| DownloadIWSLT (src_lang tgt_lang : string)
| TokenizeIWSLT (src_lang tgt_lang : string)
| DownloadMulti30k
| ApplyBpeIWSLT (src_lang tgt_lang : string)
| ApplyBpeMulti30k.

Definition run_stage (cfg : Settings) (P : Platform) (st : stage)
  : M (World P) unit :=
  match st with
  | DownloadIWSLT s t => _IWSLT_download_helper cfg P s t
  | TokenizeIWSLT s t => _tokenize_IWSLT_helper cfg P s t
  | DownloadMulti30k => _download_multi30k cfg P
  | ApplyBpeIWSLT s t => apply_bpe_iwslt cfg P s t
  | ApplyBpeMulti30k => apply_bpe_multi30k cfg P
  end.

(** The pair directory [<src>-<tgt>] of two language codes. *)
Definition pair_dir (src_lang tgt_lang : string) : string :=
  drop_first src_lang +++ "-" +++ drop_first tgt_lang.

(** The output directory whose existence makes a stage skip its work. *)
Definition stage_dir (cfg : Settings) (st : stage) : string :=
  match st with
  | DownloadIWSLT s t => join (ROOT_CORPUS_DIR cfg) ["iwslt"; pair_dir s t]
  | TokenizeIWSLT s t => join (ROOT_TOK_DIR cfg) ["iwslt"; pair_dir s t]
  | DownloadMulti30k => join (ROOT_CORPUS_DIR cfg) ["multi30k"]
  | ApplyBpeIWSLT s t => join (ROOT_BPE_DIR cfg) ["iwslt"; pair_dir s t]
  | ApplyBpeMulti30k => join (ROOT_BPE_DIR cfg) ["multi30k"]
  end.

(** The message a stage logs when it skips. *)
Definition skip_message (cfg : Settings) (st : stage) : string :=
  match st with
  | DownloadIWSLT s t => "iwslt " +++ pair_dir s t +++ " exists, skipping..."
  | TokenizeIWSLT s t => stage_dir cfg st +++ " exists, skipping..."
  | DownloadMulti30k => "multi30k exists, skipping..."
  | ApplyBpeIWSLT s t =>
      "BPE IWSLT for " +++ pair_dir s t +++ " exists, skipping..."
  | ApplyBpeMulti30k => "BPE Multi30k exists, skipping..."
  end.

Definition logged {P : Platform} (msg : string) (w : World P) : World P :=
  mkWorld (fs w) (log w ++ [msg]) (procs w) (IWSLT_dirname w) (IWSLT_urls w).

(** ** Tensors *)

(** The integer types of the data path: [int64], the type of [torch.tensor]
    on ints and of [.long()], and [int32], the type of [.int()].  The types of
    a tensor are these, the default floating-point type and the type of a
    byte. *)
Inductive int_dtype : Type := int64 | int32.

Inductive dtype : Type :=
| Int (d : int_dtype)
| float32
| uint8.

Coercion Int : int_dtype >-> dtype.

(** A two-dimensional tensor: its rows, and the size of dimension 1, which a
    tensor keeps even when it has no row. *)
Record tensor2 (A : Type) : Type := mkT2 {
  rows : list (list A);
  width : nat
}.

Arguments mkT2 {A} rows width.
Arguments rows {A} t.
Arguments width {A} t.

(** A three-dimensional tensor of shape [[length rows3, dim1, dim2]]. *)
Record tensor3 (A : Type) : Type := mkT3 {
  rows3 : list (list (list A));
  dim1 : nat;
  dim2 : nat
}.

Arguments mkT3 {A} rows3 dim1 dim2.
Arguments rows3 {A} t.
Arguments dim1 {A} t.
Arguments dim2 {A} t.

Definition shape2 {A : Type} (t : tensor2 A) (d0 d1 : nat) : Prop :=
  List.length (rows t) = d0 /\ width t = d1 /\
  Forall (fun r => List.length r = d1) (rows t).

(** [t[:, :-1]] *)
Definition drop_last_col {A : Type} (t : tensor2 A) : tensor2 A :=
  mkT2 (map (@removelast A) (rows t)) (width t - 1).

(** [t[:, 1:]] *)
Definition drop_first_col {A : Type} (t : tensor2 A) : tensor2 A :=
  mkT2 (map (@tl A) (rows t)) (width t - 1).

Definition map2d {A B : Type} (f : A -> B) (t : tensor2 A) : tensor2 B :=
  mkT2 (map (map f) (rows t)) (width t).

(** The [i, j] entry. *)
Definition entry {A : Type} (t : tensor2 A) (i j : nat) : option A :=
  match nth_error (rows t) i with
  | Some r => nth_error r j
  | None => None
  end.

(** The integer tensors of the data path: a data type, a device, and one or
    two dimensions of integers. *)
Inductive tdata : Type :=
| Vec (v : list Z)
| Mat (m : tensor2 Z).

Record Tensor : Type := mkTensor {
  t_dtype : dtype;
  t_device : string;
  t_data : tdata
}.

Definition rectangular {A : Type} (m : list (list A)) : bool :=
  match m with
  | [] => true
  | r :: m' => forallb (fun r' => (List.length r' =? List.length r)%nat) m'
  end.

(** [torch.tensor(v)] on a list of ints; the empty list gives an empty
    tensor of the default floating-point type. *)
Definition torch_tensor1 (v : list Z) : Tensor :=
  mkTensor (match v with [] => float32 | _ :: _ => int64 end) "cpu" (Vec v).

(** [torch.tensor(m)] on a list of lists of ints: the rows must have one
    length. *)
Definition torch_tensor2 (m : list (list Z)) : result Tensor :=
  match m with
  | [] => Ok (torch_tensor1 [])
  | r :: _ =>
      if rectangular m
      then Ok (mkTensor int64 "cpu" (Mat (mkT2 m (List.length r))))
      else Raise (ValueError "expected sequence of equal length")
  end.

(** [t.long()] on a tensor of integers (or on an empty one): the values
    stay. *)
Definition long (t : Tensor) : Tensor :=
  mkTensor int64 (t_device t) (t_data t).

Definition wrap32 (z : Z) : Z :=
  ((z + 2 ^ 31) mod 2 ^ 32 - 2 ^ 31)%Z.

Definition wrap64 (z : Z) : Z :=
  ((z + 2 ^ 63) mod 2 ^ 64 - 2 ^ 63)%Z.

(** The smallest and the largest value of an integer type. *)
Definition int_min (d : int_dtype) : Z :=
  match d with
  | int64 => (- 2 ^ 63)%Z
  | int32 => (- 2 ^ 31)%Z
  end.

Definition int_max (d : int_dtype) : Z :=
  match d with
  | int64 => (2 ^ 63 - 1)%Z
  | int32 => (2 ^ 31 - 1)%Z
  end.

(** The result of an operation on integers of type [d]: what leaves the
    range of the type wraps around. *)
Definition wrap (d : int_dtype) (z : Z) : Z :=
  match d with
  | int64 => wrap64 z
  | int32 => wrap32 z
  end.

(** A tensor of lengths: one dimension of integers of one of these types. *)
Record lengths_tensor : Type := mkLengths {
  len_dtype : int_dtype;
  len_values : list Z
}.

(** [t - k] for a tensor of lengths and an int: the result has the type of
    [t]. *)
Definition lengths_sub (t : lengths_tensor) (k : Z) : lengths_tensor :=
  mkLengths (len_dtype t)
            (map (fun l => wrap (len_dtype t) (l - k)) (len_values t)).

(** [t.int()]: the values are cast to 32 bits. *)
Definition int (t : Tensor) : Tensor :=
  mkTensor int32 (t_device t)
    (match t_data t with
     | Vec v => Vec (map wrap32 v)
     | Mat m => Mat (map2d wrap32 m)
     end).

(** ** ld_research.text: Vocab and padding *)

(** Modelled from the spec: the class [Vocab] of [ld_research/text] is not
    among the sources.  Section 4.3: a token table for one language, loaded
    from a file, with a reserved index for unknown tokens. *)
Record Vocab : Type := mkVocab {
  vocab_lang : string;
  stoi : dict Z;
  unk_index : Z
}.

(** Modelled from the spec: [Vocab.numerize] is not among the sources.
    Section 4.3: the same shape, every token replaced by its index, a token
    that is not in the table by the unknown index. *)
Definition numerize (v : Vocab) (batch : list (list string)) : list (list Z) :=
  map (map (fun tok => match dict_get (stoi v) tok with
                       | Ok i => i
                       | Raise _ => unk_index v
                       end)) batch.

Definition opt_token (t : option string) : list string :=
  match t with
  | Some x => [x]
  | None => []
  end.

(** Modelled from the spec: [pad_to_same_length] of [ld_research/text/utils]
    is not among the sources.  Section 4.2: every sentence becomes
    [init_token? + tokens + end_token?]; the longest of these gives the width;
    each is filled on the right with [pad_token]; the lengths returned are
    those before filling. *)
Definition pad_to_same_length (sentences : list (list string))
    (pad_token : string) (init_token end_token : option string)
  : list (list string) * list Z :=
  let wrapped :=
    map (fun s => opt_token init_token ++ s ++ opt_token end_token) sentences in
  let max_len := list_max (map (@List.length string) wrapped) in
  (map (fun s => s ++ repeat pad_token (max_len - List.length s)) wrapped,
   map (fun s => Z.of_nat (List.length s)) wrapped).

(** ** iwslt.py *)

(** A field of an [IWSLTExample]: the integer 0 and a list of tokens before
    collation, a tensor after it. *)
Inductive pyval : Type :=
| PInt (n : Z)
| PTokens (toks : list string)
| PTensor (t : Tensor).

Record IWSLTExample : Type := mkExample {
  src : pyval;
  tgt : pyval;
  src_lengths : pyval;
  tgt_lengths : pyval
}.

Record IWSLTDataset : Type := mkDataset {
  src_lang : string;
  tgt_lang : string;
  mode : string;
  src_vocab : Vocab;
  tgt_vocab : Vocab;
  bpe_corpus_dir : string;
  src_text : list string;
  tgt_text : list string
}.

(** The class attribute [IWSLTDataset.prefix]. *)
Definition prefix : dict string :=
  dict_of [("train", "train");
           ("valid", "IWSLT16.TED.tst2013");
           ("test", "IWSLT16.TED.tst2014")].

Record IWSLTDataloader : Type := mkDataloader {
  dataset : IWSLTDataset;
  batch_size : Z;
  shuffle : bool;
  num_workers : Z;
  pin_memory : bool;
  drop_last : bool;
  timeout : Z;
  dl_src_vocab : Vocab;
  dl_tgt_vocab : Vocab
}.

Section IWSLT.

Variable cfg : Settings.
Variable P : Platform.

(** [Vocab(lang=...)], which reads the vocabulary file of the language.  The
    constructor is not among the sources; it is a parameter. *)
Variable Vocab_init : FS P -> string -> result Vocab.

(** The keyword arguments of [Tensor.to] and its effect on a tensor. *)
Variable kwargs : Type.
Variable Tensor_to : kwargs -> Tensor -> Tensor.

(** [open(p, 'r', encoding='utf-8')] *)
Definition open_text (f : FS P) (p : string) : result text_file :=
  match open_r P p f with
  | Some file => Ok file
  | None => Raise (OSError p)
  end.

(** [get_txt] reads three attributes of [self]; [__init__] calls it before
    the object is complete, so they are passed one by one. *)
Definition get_txt (f : FS P) (self_src_lang self_tgt_lang : string)
    (self_bpe_corpus_dir : string) (mode : string)
  : result (list string * list string) :=
  (let base_text_name :=
     "{}." +++ drop_first self_src_lang +++ "-" +++ drop_first self_tgt_lang in
   let base_text_name_src := base_text_name +++ self_src_lang in
   let base_text_name_tgt := base_text_name +++ self_tgt_lang in
   p_src <- dict_get prefix mode ;;
   n_src <- format base_text_name_src [p_src] ;;
   let src_txt := join self_bpe_corpus_dir [n_src] in
   p_tgt <- dict_get prefix mode ;;
   n_tgt <- format base_text_name_tgt [p_tgt] ;;
   let tgt_txt := join self_bpe_corpus_dir [n_tgt] in
   src_file <- open_text f src_txt ;;
   tgt_file <- open_text f tgt_txt ;;
   src_contents <- text_readlines src_file ;;
   tgt_contents <- text_readlines tgt_file ;;
   Ok (src_contents, tgt_contents))%result.

Definition IWSLTDataset_init (f : FS P) (src_lang tgt_lang mode : string)
  : result IWSLTDataset :=
  (if negb (str_in mode ["train"; "test"; "valid"]) then
     msg <- format "Invalid mode {}" [mode] ;;
     Raise (AssertionError msg)
   else
     src_vocab <- Vocab_init f src_lang ;;
     tgt_vocab <- Vocab_init f tgt_lang ;;
     d <- format "{}-{}" [drop_first src_lang; drop_first tgt_lang] ;;
     let bpe_corpus_dir := join (ROOT_BPE_DIR cfg) ["iwslt"; d] in
     texts <- get_txt f src_lang tgt_lang bpe_corpus_dir mode ;;
     let '(src_text, tgt_text) := texts in
     if negb (List.length src_text =? List.length tgt_text)%nat then
       Raise (AssertionError "Not paired dataset, something is wrong")
     else
       Ok (mkDataset src_lang tgt_lang mode src_vocab tgt_vocab
                     bpe_corpus_dir src_text tgt_text))%result.

(** [__len__] *)
Definition IWSLTDataset_len (self : IWSLTDataset) : Z :=
  Z.of_nat (List.length (src_text self)).

(** [__getitem__] *)
Definition IWSLTDataset_getitem (self : IWSLTDataset) (index : Z)
  : result IWSLTExample :=
  (s <- py_index (src_text self) index ;;
   let src_sentence := split (rstrip_nl s) in
   t <- py_index (tgt_text self) index ;;
   let tgt_sentence := split (rstrip_nl t) in
   Ok (mkExample (PTokens src_sentence) (PTokens tgt_sentence)
                 (PInt 0) (PInt 0)))%result.

(** [v.to(...)] on one field: only a tensor has the method. *)
Definition field_to (kw : kwargs) (v : pyval) : result pyval :=
  match v with
  | PTensor t => Ok (PTensor (Tensor_to kw t))
  | PTokens _ => Raise (AttributeError "'list' object has no attribute 'to'")
  | PInt _ => Raise (AttributeError "'int' object has no attribute 'to'")
  end.

(** [IWSLTExample.to]: four assignments to the fields of [self], in order;
    the object is the state. *)
Definition IWSLTExample_to (kw : kwargs) : M IWSLTExample unit :=
  (v <- (fun self => (field_to kw (src self), self)) ;;
   (fun self => (Ok tt, mkExample v (tgt self)
                                  (src_lengths self) (tgt_lengths self))) ;;
   v <- (fun self => (field_to kw (tgt self), self)) ;;
   (fun self => (Ok tt, mkExample (src self) v
                                  (src_lengths self) (tgt_lengths self))) ;;
   v <- (fun self => (field_to kw (src_lengths self), self)) ;;
   (fun self => (Ok tt, mkExample (src self) (tgt self)
                                  v (tgt_lengths self))) ;;
   v <- (fun self => (field_to kw (tgt_lengths self), self)) ;;
   (fun self => (Ok tt, mkExample (src self) (tgt self)
                                  (src_lengths self) v)))%M.

(** [IWSLTDataloader.__init__]: the arguments go to the base class, and the
    two vocabularies of the data set are kept on the loader. *)
Definition IWSLTDataloader_init (dataset : IWSLTDataset) (batch_size : Z)
    (shuffle : bool) (num_workers : Z) (pin_memory drop_last : bool)
    (timeout : Z) : IWSLTDataloader :=
  mkDataloader dataset batch_size shuffle num_workers pin_memory drop_last
               timeout (src_vocab dataset) (tgt_vocab dataset).

(** The sentences of a batch.  What the padding function does with a field
    that is not a list of tokens is not known. *)
Definition sentence_of (v : pyval) : result (list string) :=
  match v with
  | PTokens toks => Ok toks
  | _ => Raise (NotModelled "padding a field that is not a list of tokens")
  end.

Definition collate_fn (self : IWSLTDataloader) (batch : list IWSLTExample)
  : result IWSLTExample :=
  (src_sentences <- rmap (fun example => sentence_of (src example)) batch ;;
   let '(src, src_lengths) :=
     pad_to_same_length src_sentences (EOS_WORD cfg) None
                        (Some (EOS_WORD cfg)) in
   tgt_sentences <- rmap (fun example => sentence_of (tgt example)) batch ;;
   let '(tgt, tgt_lengths) :=
     pad_to_same_length tgt_sentences (EOS_WORD cfg) (Some (BOS_WORD cfg))
                        (Some (EOS_WORD cfg)) in
   src <- torch_tensor2 (numerize (dl_src_vocab self) src) ;;
   let src := long src in
   tgt <- torch_tensor2 (numerize (dl_tgt_vocab self) tgt) ;;
   let tgt := long tgt in
   let src_lengths := int (torch_tensor1 src_lengths) in
   let tgt_lengths := int (torch_tensor1 tgt_lengths) in
   Ok (mkExample (PTensor src) (PTensor tgt)
                 (PTensor src_lengths) (PTensor tgt_lengths)))%result.

End IWSLT.

(** The tokens of a field that holds a sentence. *)
Definition field_tokens (v : pyval) : list string :=
  match v with
  | PTokens toks => toks
  | _ => []
  end.

(** An example as the data set returns it, before collation: the two
    sentences are lists of tokens. *)
Definition token_fields (e : IWSLTExample) : Prop :=
  (exists s, src e = PTokens s) /\ (exists t, tgt e = PTokens t).

(** The example that [__getitem__] builds from two sentences. *)
Definition pre_batching (s t : list string) : IWSLTExample :=
  mkExample (PTokens s) (PTokens t) (PInt 0) (PInt 0).

Definition is_tensor (v : pyval) : Prop := exists t, v = PTensor t.

(** ** agent.py *)

(** Modelled from the spec: [sequence_mask] of [ld_research/model/utils] is
    not among the sources.  Section 4.6: a mask of shape [[batch, max_len]]
    whose entry [j] of row [i] is valid exactly when [j < lengths[i]]. *)
Definition sequence_mask (lengths : list Z) (max_len : nat) : tensor2 bool :=
  mkT2 (map (fun l => map (fun j => (Z.of_nat j <? l)%Z) (seq 0 max_len))
            lengths)
       max_len.

(** The Agent: its two vocabularies and its sub-modules.  The encoder and
    the decoder ([ld_research/model/grus]) and the floating-point operations
    of the tensor library are parameters; [scalar] is the type of a
    floating-point entry. *)
Record Agent : Type := mkAgent {
  agent_src_vocab : Vocab;
  agent_tgt_vocab : Vocab;
  scalar : Type;
  (** [.float()] on one entry of a mask *)
  float_of_byte : bool -> scalar;
  (** [F.log_softmax] on one vector of the last dimension *)
  log_softmax_vec : list scalar -> list scalar;
  enc_states : Type;
  enc_memory : Type;
  (** [self.encoder.encode(src)] *)
  encoder_encode : tensor2 Z -> enc_states * enc_memory;
  (** [self.decoder.teacher_forcing(targets, memory, states, memory_lengths)] *)
  decoder_teacher_forcing :
    tensor2 Z -> enc_memory -> enc_states -> option (list Z) ->
    tensor3 scalar * tensor3 scalar
}.

(** [F.log_softmax(logits, dim=-1)] *)
Definition log_softmax (self : Agent) (logits : tensor3 (scalar self))
  : tensor3 (scalar self) :=
  mkT3 (map (map (log_softmax_vec self)) (rows3 logits))
       (dim1 logits) (dim2 logits).

(** An element of the tuple that [forward] returns. *)
Inductive output (self : Agent) : Type :=
| Float3 (t : tensor3 (scalar self))
| Long2 (t : tensor2 Z)
| Float2 (t : tensor2 (scalar self)).

Arguments Long2 {self} t.

(** [Agent.forward].  [None] for a length argument is [None].  The target
    lengths are a tensor of integers, and [tgt_lengths - 1] is taken in the
    type of that tensor.  The mask is moved to the device of the parameters; a
    [tensor2] holds values only, so the move does not show. *)
Definition forward (self : Agent) (src tgt : tensor2 Z)
    (src_lengths : option (list Z)) (tgt_lengths : option lengths_tensor)
    (with_align : bool)
  : result (list (output self)) :=
  let '(states, memory) := encoder_encode self src in
  let tgt_in := drop_last_col tgt in
  let '(logits, alignments) :=
    decoder_teacher_forcing self tgt_in memory states src_lengths in
  let tgt_out := drop_first_col tgt in
  let masks :=
    match tgt_lengths with
    | None => None
    | Some lengths =>
        Some (sequence_mask (len_values (lengths_sub lengths 1))
                            (dim1 logits))
    end in
  match masks with
  | None => Raise (AttributeError "'NoneType' object has no attribute 'float'")
  | Some masks =>
      let masks := map2d (float_of_byte self) masks in
      let logprobs := log_softmax self logits in
      let outputs := [Float3 self logprobs; Long2 tgt_out; Float2 self masks] in
      let outputs :=
        if with_align then outputs ++ [Float3 self alignments] else outputs in
      Ok outputs
  end.

(** ** A small platform for the examples *)

Definition example_cfg : Settings :=
  {| ROOT_CORPUS_DIR := "/data/corpus";
     ROOT_TOK_DIR := "/data/tok";
     ROOT_BPE_DIR := "/data/bpe";
     FR := ".fr"; EN := ".en"; DE := ".de";
     PYTHONBIN := "python3";
     LEARN_JOINT_BPE := "learn_joint_bpe_and_vocab.py";
     APPLY_BPE := "apply_bpe.py";
     MIN_FREQ := 50;
     EOS_WORD := "<EOS>";
     BOS_WORD := "<BOS>" |}.

(** A file system as a list of paths; a directory has no lines. *)
Definition example_fs : Type := list (string * option (list string)).

Fixpoint fs_find (f : example_fs) (p : string) : option (option (list string)) :=
  match f with
  | [] => None
  | (q, node) :: f' => if q =? p then Some node else fs_find f' p
  end.

Definition example_platform : Platform :=
  {| FS := example_fs;
     path_exists := fun f p =>
       match fs_find f p with Some _ => true | None => false end;
     makedirs := fun p f =>
       match fs_find f p with Some _ => None | None => Some ((p, None) :: f) end;
     open_w := fun p f => Some ((p, Some []) :: f);
     open_r := fun p f =>
       match fs_find f p with Some (Some ls) => Some (Lines ls) | _ => None end;
     write := fun p text f =>
       match fs_find f p with
       | Some (Some ls) => (p, Some (ls ++ [text])) :: f
       | _ => f
       end;
     subprocess_call := fun _ f => Some (0%Z, f);
     get_tokenizer_moses := Some split;
     lower := fun s => s;
     IWSLT_base_url := "https://wit3.fbk.eu/archive/2016-01//texts/{}/{}/{}.tgz";
     IWSLT_download := fun _ _ _ _ f => Some f;
     IWSLT_clean := fun _ f => Some f |}.

Definition example_world (f : example_fs) : World example_platform :=
  mkWorld (f : FS example_platform) [] [] None None.

Definition example_vocab (lang : string) : Vocab :=
  mkVocab lang (dict_of [("<BOS>", 0%Z); ("<EOS>", 1%Z); ("le", 3%Z);
                         ("chat", 4%Z); ("the", 5%Z); ("cat", 6%Z)]) 2%Z.

Definition example_Vocab_init (f : example_fs) (lang : string) : result Vocab :=
  Ok (example_vocab lang).

(** The two text files of the pair fr-en, split train, two lines each. *)
Definition example_corpus : example_fs :=
  [("/data/bpe/iwslt/fr-en/train.fr-en.fr",
    Some ["le chat" +++ NL; "chat" +++ NL]);
   ("/data/bpe/iwslt/fr-en/train.fr-en.en",
    Some ["the cat" +++ NL; "cat" +++ NL]);
   ("/data/bpe/iwslt/fr-en", None);
   ("/data/bpe", None);
   ("/data/bpe/bpe.codes", Some [])].

(** The data set that the constructor builds from [example_corpus]. *)
Definition example_dataset : IWSLTDataset :=
  mkDataset ".fr" ".en" "train" (example_vocab ".fr") (example_vocab ".en")
            "/data/bpe/iwslt/fr-en"
            ["le chat" +++ NL; "chat" +++ NL]
            ["the cat" +++ NL; "cat" +++ NL].

(** [to(device=...)] *)
Definition example_Tensor_to (device : string) (t : Tensor) : Tensor :=
  mkTensor (t_dtype t) device (t_data t).

(** An Agent whose scalars are integers and whose decoder gives every
    target position the same one-entry vector. *)
Definition example_agent : Agent :=
  {| agent_src_vocab := example_vocab ".fr";
     agent_tgt_vocab := example_vocab ".en";
     scalar := Z;
     float_of_byte := fun b => if b : bool then 1%Z else 0%Z;
     log_softmax_vec := fun v => v;
     enc_states := unit;
     enc_memory := unit;
     encoder_encode := fun _ => (tt, tt);
     decoder_teacher_forcing := fun targets _ _ _ =>
       (mkT3 (map (map (fun _ => [0%Z])) (rows targets)) (width targets) 1,
        mkT3 (map (map (fun _ => [1%Z])) (rows targets)) (width targets) 2) |}.

(** ** What a stage starts and writes *)

(** [done] is an initial part of [all]. *)
Definition prefix_of {A : Type} (done all : list A) : Prop :=
  exists rest, all = done ++ rest.

(** The computation [m] starts the commands [cmds], in this order, and no
    other: from every state it adds an initial part of [cmds] to the started
    processes, and all of them when it returns. *)
Definition starts {P : Platform} {A : Type} (m : M (World P) A)
    (cmds : list (list string)) : Prop :=
  forall w,
    (exists done, prefix_of done cmds /\ procs (snd (m w)) = procs w ++ done)
    /\ (forall a, fst (m w) = Ok a -> procs (snd (m w)) = procs w ++ cmds).

(** The name of a split file of a language pair. *)
Definition iwslt_file (p src_lang tgt_lang lang : string) : string :=
  p +++ "." +++ drop_first src_lang +++ "-" +++ drop_first tgt_lang +++ lang.

(** The BPE commands for one language pair: for each of the three prefixes,
    the source file and then the target file; each vocabulary is named by the
    last three characters of the file name. *)
Definition apply_bpe_iwslt_commands (cfg : Settings) (s t : string)
  : list (list string) :=
  flat_map
    (fun p =>
       map (fun lang =>
              apply_bpe_command cfg
                (join (join (ROOT_TOK_DIR cfg) ["iwslt"; pair_dir s t])
                      [iwslt_file p s t lang])
                (join (join (ROOT_BPE_DIR cfg) ["iwslt"; pair_dir s t])
                      [iwslt_file p s t lang])
                (last_chars 3
                   (drop_first s +++ "-" +++ drop_first t +++ lang)))
           [s; t])
    ["train"; "IWSLT16.TED.tst2013"; "IWSLT16.TED.tst2014"].

(** The BPE commands for multi30k: for each of the three prefixes, the
    French, the English and the German file. *)
Definition apply_bpe_multi30k_commands (cfg : Settings) : list (list string) :=
  flat_map
    (fun p =>
       map (fun lang =>
              apply_bpe_command cfg
                (join (join (ROOT_TOK_DIR cfg) ["multi30k"]) [p +++ lang])
                (join (join (ROOT_BPE_DIR cfg) ["multi30k"]) [p +++ lang])
                lang)
           [FR cfg; EN cfg; DE cfg])
    ["train"; "val"; "test_2017_flickr"].

(** The commands of the multi30k download: one [wget] and one [gunzip] per
    prefix and language. *)
Definition download_multi30k_commands (cfg : Settings) : list (list string) :=
  flat_map
    (fun p =>
       flat_map
         (fun lang =>
            [["wget";
              "https://github.com/multi30k/dataset/raw/master/data/task1/raw/"
              +++ p +++ lang +++ ".gz";
              "-P"; join (ROOT_CORPUS_DIR cfg) ["multi30k"]];
             ["gunzip"; "-k";
              join (join (ROOT_CORPUS_DIR cfg) ["multi30k"])
                   [p +++ lang +++ ".gz"]]])
         [FR cfg; EN cfg; DE cfg])
    ["train"; "val"; "test_2017_flickr"].

(** The [--output] argument of a BPE command. *)
Definition output_of (cmd : list string) : string := nth 11 cmd "".

(** The [--vocabulary] argument of a BPE command. *)
Definition vocabulary_of (cmd : list string) : string := nth 5 cmd "".

(** Every child process can be started. *)
Definition launches (P : Platform) : Prop :=
  forall cmd f, subprocess_call P cmd f <> None.

(** The text that [_tokenize] writes for one line of its input. *)
Definition tokenized_text (P : Platform) (tokenizer : string -> list string)
    (line : string) : string :=
  str_join " " (tokenizer (lower P line) ++ [NL]).

(** White space only. *)
Fixpoint space_only (s : string) : bool :=
  match s with
  | EmptyString => true
  | String c r => is_space c && space_only r
  end.

(** The last column of [t] is left out of account: [t] and [t'] agree after
    [t[:, :-1]]. *)
Definition same_but_last_col {A : Type} (t t' : tensor2 A) : Prop :=
  drop_last_col t = drop_last_col t'.

(** ** More of the example platform *)

(** The example platform with child processes that all report failure. *)
Definition failing_platform : Platform :=
  {| FS := example_fs;
     path_exists := path_exists example_platform;
     makedirs := makedirs example_platform;
     open_w := open_w example_platform;
     open_r := open_r example_platform;
     write := write example_platform;
     subprocess_call := fun _ f => Some (1%Z, f);
     get_tokenizer_moses := Some split;
     lower := fun s => s;
     IWSLT_base_url := IWSLT_base_url example_platform;
     IWSLT_download := fun _ _ _ _ f => Some f;
     IWSLT_clean := fun _ f => Some f |}.

(** The example platform with text files that open and cannot be decoded:
    [readlines()] raises the error of the codec. *)
Definition garbled_platform : Platform :=
  {| FS := example_fs;
     path_exists := path_exists example_platform;
     makedirs := makedirs example_platform;
     open_w := open_w example_platform;
     open_r := fun p f =>
       match fs_find f p with
       | Some (Some _) =>
           Some (Broken (Undecodable "'utf-8' codec can't decode byte 0xff"))
       | _ => None
       end;
     write := write example_platform;
     subprocess_call := subprocess_call example_platform;
     get_tokenizer_moses := Some split;
     lower := fun s => s;
     IWSLT_base_url := IWSLT_base_url example_platform;
     IWSLT_download := fun _ _ _ _ f => Some f;
     IWSLT_clean := fun _ f => Some f |}.

(** A file system in which every directory of the IWSLT preparation is
    there already. *)
Definition example_prepared : example_fs :=
  [("/data/corpus/iwslt/fr-en", None); ("/data/corpus/iwslt/en-de", None);
   ("/data/tok/iwslt/fr-en", None); ("/data/tok/iwslt/en-de", None);
   ("/data/corpus/multi30k", None); ("/data/tok/multi30k", None)].

(** One raw file of two lines, to be tokenized. *)
Definition example_raw : example_fs :=
  [("/data/corpus/multi30k/train.en", Some ["a cat" +++ NL; "sat" +++ NL])].

(** The computation [m] returns from every state. *)
Definition returns {S A : Type} (m : M S A) : Prop :=
  forall s, exists a, fst (m s) = Ok a.

(** A file system with the BPE codes and nothing segmented yet. *)
Definition example_codes : example_fs :=
  [("/data/bpe/bpe.codes", Some []); ("/data/bpe", None)].

(** The index that [numerize] gives one token. *)
Definition token_index (v : Vocab) (tok : string) : Z :=
  match dict_get (stoi v) tok with
  | Ok i => i
  | Raise _ => unk_index v
  end.

(** The decoder returns logits with as many time steps as its input has
    columns. *)
Definition keeps_time (self : Agent) : Prop :=
  forall targets memory states memory_lengths,
    dim1 (fst (decoder_teacher_forcing self targets memory states
                                       memory_lengths))
    = width targets.

(* ===================================================================== *)
(** * Part II.  Properties                                                *)
(* ===================================================================== *)

(** ** The string functions on examples *)

Example format_pair : format "{}-{}" ["fr"; "en"] = Ok "fr-en".
Proof. reflexivity. Qed.

Example format_escapes : format "x{{}}y{}" ["fr"; "en"] = Ok "x{}yfr".
Proof. reflexivity. Qed.

Example format_too_few :
  format "{}.{}-en.{}" ["train"]
  = Raise (IndexError "Replacement index out of range").
Proof. reflexivity. Qed.

Example split_line : split (" le  chat" +++ NL) = ["le"; "chat"].
Proof. reflexivity. Qed.

Example rstrip_line :
  rstrip_nl ("a" +++ NL +++ "b" +++ NL +++ NL) = "a" +++ NL +++ "b".
Proof. reflexivity. Qed.

Example join_relative :
  join "/data/bpe" ["iwslt"; "fr-en"] = "/data/bpe/iwslt/fr-en".
Proof. reflexivity. Qed.

Example join_absolute :
  join "/data/bpe/" ["iwslt"; "/fr-en"; "x"] = "/fr-en/x".
Proof. reflexivity. Qed.

Example basename_file :
  basename "/data/bpe/train.fr-en.fr" = "train.fr-en.fr".
Proof. reflexivity. Qed.

Example last_chars_suffix : last_chars 3 "fr-en.fr" = ".fr".
Proof. reflexivity. Qed.

Example dict_of_repeated_key :
  dict_of [("a", 1); ("b", 2); ("a", 3)] = [("a", 3); ("b", 2)].
Proof. reflexivity. Qed.

Example py_index_negative : py_index [1; 2; 3] (-1) = Ok 3.
Proof. reflexivity. Qed.

Example py_index_out_of_range :
  py_index [1; 2; 3] 3 = Raise (IndexError "list index out of range").
Proof. reflexivity. Qed.

Example py_index_not_index_sized :
  py_index [1; 2; 3] (2 ^ 63)
  = Raise (IndexError "cannot fit 'int' into an index-sized integer").
Proof. reflexivity. Qed.

(** ** Formatting *)

Lemma append_empty_r (s : string) : s +++ "" = s.
Proof. induction s as [|c s IH]; cbn; [reflexivity | now rewrite IH]. Qed.

Lemma append_assoc (s t u : string) : (s +++ t) +++ u = s +++ t +++ u.
Proof. induction s as [|c s IH]; cbn; [reflexivity | now rewrite IH]. Qed.

Lemma pair_dirname_ok (s t : string) : pair_dirname s t = Ok (pair_dir s t).
Proof.
  unfold pair_dirname, pair_dir. cbn. now rewrite append_empty_r.
Qed.

(** A template without braces is copied. *)
Lemma format_brace_free (s : string) (args : list string) :
  brace_free s = true -> format s args = Ok s.
Proof.
  induction s as [|c s IH]; intros H; [reflexivity|].
  cbn in H. apply andb_prop in H as [Hc Hs]. apply andb_prop in Hc as [Ho Hc].
  apply negb_true_iff in Ho, Hc.
  cbn. rewrite Ho, Hc, (IH Hs). reflexivity.
Qed.

Lemma brace_free_app (s t : string) :
  brace_free (s +++ t) = brace_free s && brace_free t.
Proof.
  induction s as [|c s IH]; [reflexivity|].
  cbn. rewrite IH. now rewrite !andb_assoc.
Qed.

Lemma brace_free_drop_first (s : string) :
  brace_free s = true -> brace_free (drop_first s) = true.
Proof.
  destruct s as [|c s]; [reflexivity|]. cbn.
  intros H. apply andb_prop in H. tauto.
Qed.

(** One leading field followed by literal text. *)
Lemma format_leading_field (s a : string) :
  brace_free s = true -> format ("{}" +++ s) [a] = Ok (a +++ s).
Proof.
  intros H. cbn. rewrite (format_brace_free s [] H). reflexivity.
Qed.

(** ** Splitting a line into tokens *)

Lemma space_free_app (s t : string) :
  space_free (s +++ t) = space_free s && space_free t.
Proof.
  induction s as [|c s IH]; [reflexivity|].
  cbn. rewrite IH. now rewrite andb_assoc.
Qed.

Lemma is_empty_true (s : string) : is_empty s = true <-> s = "".
Proof. destruct s; cbn; split; intros H; congruence. Qed.

Lemma is_empty_app_char (s : string) (c : ascii) :
  is_empty (s +++ String c "") = false.
Proof. destruct s; reflexivity. Qed.

(** Every string that [split] returns is a token: it is not empty and has
    no white space in it. *)
Lemma split_go_tokens (s tok : string) :
  space_free tok = true -> Forall token (split_go tok s).
Proof.
  revert tok. induction s as [|c r IH]; intros tok Htok; cbn.
  - destruct (is_empty tok) eqn:E; constructor; [|constructor].
    split; [|exact Htok]. intros E'. apply is_empty_true in E'. congruence.
  - destruct (is_space c) eqn:Ec.
    + destruct (is_empty tok) eqn:E.
      * now apply IH.
      * constructor; [|now apply IH].
        split; [|exact Htok]. intros E'. apply is_empty_true in E'. congruence.
    + apply IH. rewrite space_free_app, Htok. cbn. now rewrite Ec.
Qed.

Lemma split_tokens (s : string) : Forall token (split s).
Proof. now apply split_go_tokens. Qed.

(** Reading a run of characters without white space extends the token that
    is being read. *)
Lemma split_go_run (t rest tok : string) :
  space_free t = true -> split_go tok (t +++ rest) = split_go (tok +++ t) rest.
Proof.
  revert tok. induction t as [|c t IH]; intros tok Ht.
  - cbn. now rewrite append_empty_r.
  - cbn in Ht. apply andb_prop in Ht as [Hc Ht]. apply negb_true_iff in Hc.
    cbn. rewrite Hc. rewrite (IH _ Ht). now rewrite append_assoc.
Qed.

(** Tokens that are joined by single spaces are found again. *)
Lemma split_str_join (toks : list string) :
  Forall token toks -> split (str_join " " toks) = toks.
Proof.
  unfold split. induction 1 as [|t toks [Hne Hsf] Htoks IH]; [reflexivity|].
  destruct toks as [|u toks].
  - cbn [str_join]. rewrite <- (append_empty_r t) at 1.
    rewrite (split_go_run t "" "" Hsf). cbn.
    destruct t; [contradiction|reflexivity].
  - change (str_join " " (t :: u :: toks))
      with (t +++ " " +++ str_join " " (u :: toks)).
    rewrite (split_go_run t _ "" Hsf). cbn [append split_go].
    change (is_space " ") with true. cbn iota.
    destruct t; [contradiction|]. cbn [is_empty]. now rewrite IH.
Qed.

(** Removing the line feeds at the end of a line does not change its tokens:
    a line feed is white space. *)
Lemma split_go_rstrip_nl (s tok : string) :
  split_go tok (rstrip_nl s) = split_go tok s.
Proof.
  revert tok. induction s as [|c r IH]; intros tok; [reflexivity|].
  cbn [rstrip_nl].
  destruct (Ascii.eqb c (chr 10) && is_empty (rstrip_nl r)) eqn:E.
  - apply andb_prop in E as [Ec Er].
    apply Ascii.eqb_eq in Ec. subst c. apply is_empty_true in Er.
    cbn [split_go]. change (is_space (chr 10)) with true. cbn iota.
    rewrite <- (IH ""), Er. cbn. destruct (is_empty tok); reflexivity.
  - cbn [split_go]. destruct (is_space c); [|apply IH].
    destruct (is_empty tok); now rewrite IH.
Qed.

Lemma split_rstrip_nl (s : string) : split (rstrip_nl s) = split s.
Proof. apply split_go_rstrip_nl. Qed.

(** What [rstrip_nl] returns does not end with a line feed, and it is the
    line when the line does not end with one. *)
Lemma rstrip_nl_app_nl (s : string) : rstrip_nl (s +++ NL) = rstrip_nl s.
Proof.
  induction s as [|c s IH]; [reflexivity|].
  cbn [append rstrip_nl]. now rewrite IH.
Qed.

Lemma rstrip_nl_idempotent (s : string) : rstrip_nl (rstrip_nl s) = rstrip_nl s.
Proof.
  induction s as [|c s IH]; [reflexivity|].
  cbn [rstrip_nl].
  destruct (Ascii.eqb c (chr 10) && is_empty (rstrip_nl s)) eqn:E;
    [reflexivity|].
  cbn [rstrip_nl]. now rewrite IH, E.
Qed.

(** ** White space at the end of a line, and the lines that [_tokenize] writes *)

Lemma split_go_space_only (ws tok : string) :
  space_only ws = true -> split_go tok ws = split_go tok "".
Proof.
  revert tok. induction ws as [|c ws IH]; intros tok H; [reflexivity|].
  cbn in H. apply andb_prop in H as [Hc Hws].
  cbn [split_go]. rewrite Hc.
  destruct (is_empty tok) eqn:E; rewrite (IH "" Hws); reflexivity.
Qed.

(** A line of white space has no token. *)
Lemma split_space_only (ws : string) : space_only ws = true -> split ws = [].
Proof. intros H. unfold split. now rewrite (split_go_space_only ws "" H). Qed.

Lemma split_go_app_space_only (s ws tok : string) :
  space_only ws = true -> split_go tok (s +++ ws) = split_go tok s.
Proof.
  intros H. revert tok. induction s as [|c s IH]; intros tok.
  - cbn [append]. now apply split_go_space_only.
  - cbn [append split_go]. destruct (is_space c); [|apply IH].
    destruct (is_empty tok); now rewrite IH.
Qed.

Lemma str_join_app_last (sep x : string) (toks : list string) :
  toks <> [] ->
  str_join sep (toks ++ [x]) = str_join sep toks +++ sep +++ x.
Proof.
  induction toks as [|t toks IH]; [congruence|]. intros _.
  destruct toks as [|u toks].
  - reflexivity.
  - change (str_join sep ((t :: u :: toks) ++ [x]))
      with (t +++ sep +++ str_join sep ((u :: toks) ++ [x])).
    rewrite IH by discriminate.
    change (str_join sep (t :: u :: toks))
      with (t +++ sep +++ str_join sep (u :: toks)).
    now rewrite !append_assoc.
Qed.

(** X1.  What [_tokenize] writes for a line is read back by [__getitem__]:
    removing the line feed and splitting gives the tokens again, provided every
    token the tokenizer returned is a token (not empty, no white space). *)
Theorem tokenized_line_round_trip (P : Platform)
    (tokenizer : string -> list string) (line : string) :
  Forall token (tokenizer (lower P line)) ->
  split (rstrip_nl (tokenized_text P tokenizer line))
  = tokenizer (lower P line).
Proof.
  intros H. rewrite split_rstrip_nl. unfold tokenized_text.
  destruct (tokenizer (lower P line)) as [|t toks] eqn:E; [reflexivity|].
  rewrite str_join_app_last by discriminate.
  unfold split.
  rewrite (split_go_app_space_only (str_join " " (t :: toks)) (" " +++ NL) "")
    by reflexivity.
  now apply split_str_join.
Qed.

Lemma tokenized_line_round_trip_witness :
  split (rstrip_nl (tokenized_text example_platform split "a  cat "))
  = ["a"; "cat"].
Proof.
  apply (tokenized_line_round_trip example_platform split "a  cat ").
  repeat constructor; discriminate.
Defined.

(** ** Stages guarded by a directory *)

(** C8.  When the output directory of a stage exists already (the raw corpus
    directory of the pair for the IWSLT download, the token directory of the
    pair for the IWSLT tokenization, the multi30k corpus directory for its
    download, the BPE directory of the pair or of multi30k for the BPE
    application), the operation returns at once: the log gets the skip
    message, and the file system, the list of started processes and every
    other part of the state are as before. *)
Theorem stage_skips_when_directory_exists
    (cfg : Settings) (P : Platform) (st : stage) (w : World P) :
  path_exists P (fs w) (stage_dir cfg st) = true ->
  run_stage cfg P st w = (Ok tt, logged (skip_message cfg st) w).
Proof.
  intros H.
  destruct st as [s t|s t| |s t| ]; cbn [stage_dir] in H;
    unfold run_stage, _IWSLT_download_helper, _tokenize_IWSLT_helper,
      _download_multi30k, apply_bpe_iwslt, apply_bpe_multi30k;
    rewrite ?pair_dirname_ok; unfold bind, lift, os_path_exists;
    cbn -[join format append]; unfold IWSLT_name; rewrite H;
    cbn -[join append]; unfold LOGGER_info, logged;
    cbn [skip_message stage_dir]; unfold pair_dir;
    rewrite ?append_assoc; reflexivity.
Qed.

Lemma stage_skips_when_directory_exists_witness :
  run_stage example_cfg example_platform (ApplyBpeIWSLT ".fr" ".en")
            (example_world example_corpus)
  = (Ok tt,
     logged "BPE IWSLT for fr-en exists, skipping..."
            (example_world example_corpus)).
Proof.
  apply (stage_skips_when_directory_exists
           example_cfg example_platform (ApplyBpeIWSLT ".fr" ".en")).
  reflexivity.
Defined.

(** ** Learning and applying BPE *)

Section BPE.

Variable cfg : Settings.
Variable P : Platform.

Lemma call_procs (cmd : list string) (w : World P) :
  procs (snd (call P cmd w)) = procs w ++ [cmd].
Proof.
  unfold call.
  destruct (subprocess_call P cmd (fs w)) as [[status f]|]; reflexivity.
Qed.

(** Running a command and dropping its exit status, as both scripts are
    run, records exactly that command. *)
Lemma call_then_return_procs (cmd : list string) (w : World P) :
  procs (snd ((_ <- call P cmd ;; ret tt)%M w)) = procs w ++ [cmd].
Proof.
  unfold bind, call, ret.
  destruct (subprocess_call P cmd (fs w)) as [[status f]|]; reflexivity.
Qed.

Section DistinctLanguages.

Hypothesis langs_distinct : NoDup [EN cfg; DE cfg; FR cfg].

Lemma langs_eqb :
  (EN cfg =? DE cfg) = false /\ (EN cfg =? FR cfg) = false /\
  (DE cfg =? FR cfg) = false.
Proof.
  pose proof langs_distinct as H.
  inversion H as [|? ? H1 H2]; subst. inversion H2 as [|? ? H3 _]; subst.
  repeat split; apply String.eqb_neq; intros E.
  - apply H1. left. now rewrite E.
  - apply H1. right. left. now rewrite E.
  - apply H3. left. now rewrite E.
Qed.

(** With three different codes the dict has its three entries, in the order
    they are written. *)
Lemma lang_files_entries :
  lang_files cfg =
  [(EN cfg, join (ROOT_TOK_DIR cfg) ["iwslt"; "en-de"; "train.en-de.en"]);
   (DE cfg, join (ROOT_TOK_DIR cfg) ["iwslt"; "en-de"; "train.en-de.de"]);
   (FR cfg, join (ROOT_TOK_DIR cfg) ["iwslt"; "fr-en"; "train.fr-en.fr"])].
Proof.
  destruct langs_eqb as (Hed & Hef & Hdf).
  unfold lang_files, dict_of. cbn -[join].
  rewrite Hed. cbn -[join]. rewrite Hef, Hdf. reflexivity.
Qed.

Lemma lang_files_inputs :
  rmap (dict_get (lang_files cfg)) (dict_keys (lang_files cfg)) =
  Ok [join (ROOT_TOK_DIR cfg) ["iwslt"; "en-de"; "train.en-de.en"];
      join (ROOT_TOK_DIR cfg) ["iwslt"; "en-de"; "train.en-de.de"];
      join (ROOT_TOK_DIR cfg) ["iwslt"; "fr-en"; "train.fr-en.fr"]].
Proof.
  destruct langs_eqb as (Hed & Hef & Hdf).
  rewrite lang_files_entries. cbn -[join].
  rewrite !String.eqb_refl, Hed, Hef, Hdf. reflexivity.
Qed.

(** [learn_bpe] case by case: the root directory is there or is made, the
    codes file is there or the learner is run. *)
Lemma learn_bpe_unfold (w : World P) :
  learn_bpe cfg P w =
  if path_exists P (fs w) (ROOT_BPE_DIR cfg)
  then
    if path_exists P (fs w) (join (ROOT_BPE_DIR cfg) ["bpe.codes"])
    then (Ok tt, logged "bpe.codes file exist, skipping..." w)
    else (_ <- call P (learn_bpe_command cfg) ;; ret tt)%M
           (logged "Learning BPE on joint language..." w)
  else
    match makedirs P (ROOT_BPE_DIR cfg) (fs w) with
    | None => (Raise (OSError (ROOT_BPE_DIR cfg)), w)
    | Some f =>
        if path_exists P f (join (ROOT_BPE_DIR cfg) ["bpe.codes"])
        then (Ok tt, logged "bpe.codes file exist, skipping..." (set_fs P f w))
        else (_ <- call P (learn_bpe_command cfg) ;; ret tt)%M
               (logged "Learning BPE on joint language..." (set_fs P f w))
    end.
Proof.
  unfold learn_bpe, bind, lift, os_path_exists, os_makedirs, ret.
  destruct (path_exists P (fs w) (ROOT_BPE_DIR cfg)); cbn [negb].
  - destruct (path_exists P (fs w) (join (ROOT_BPE_DIR cfg) ["bpe.codes"]));
      cbn [negb]; [reflexivity|].
    rewrite lang_files_inputs, lang_files_entries. reflexivity.
  - destruct (makedirs P (ROOT_BPE_DIR cfg) (fs w)) as [f|]; [|reflexivity].
    cbn [fs set_fs].
    destruct (path_exists P f (join (ROOT_BPE_DIR cfg) ["bpe.codes"]));
      cbn [negb]; [reflexivity|].
    rewrite lang_files_inputs, lang_files_entries. reflexivity.
Qed.

(** C6.  [learn_bpe] starts the BPE learner at most once: the list of
    started processes is either unchanged or longer by the one command
    [learn_bpe_command], which names the interpreter and the script, the three
    training files (English, German, French) as joint input, 10000 merge
    operations, the codes file [ROOT_BPE_DIR/bpe.codes] and one vocabulary file
    [ROOT_BPE_DIR/vocab<code>] per language.  When the codes file exists
    already (and with it its directory), nothing is started and the state is
    as before except for the skip message in the log; when the directory is
    there and the codes file is not, the learner is started. *)
Theorem learn_bpe_invocation (w : World P) :
  (procs (snd (learn_bpe cfg P w)) = procs w \/
   procs (snd (learn_bpe cfg P w)) = procs w ++ [learn_bpe_command cfg])
  /\ (path_exists P (fs w) (ROOT_BPE_DIR cfg) = true ->
      path_exists P (fs w) (join (ROOT_BPE_DIR cfg) ["bpe.codes"]) = true ->
      learn_bpe cfg P w =
      (Ok tt, logged "bpe.codes file exist, skipping..." w))
  /\ (path_exists P (fs w) (ROOT_BPE_DIR cfg) = true ->
      path_exists P (fs w) (join (ROOT_BPE_DIR cfg) ["bpe.codes"]) = false ->
      procs (snd (learn_bpe cfg P w)) = procs w ++ [learn_bpe_command cfg]).
Proof.
  rewrite learn_bpe_unfold.
  repeat split.
  - destruct (path_exists P (fs w) (ROOT_BPE_DIR cfg)).
    + destruct (path_exists P (fs w) (join (ROOT_BPE_DIR cfg) ["bpe.codes"])).
      * left. reflexivity.
      * right. now rewrite call_then_return_procs.
    + destruct (makedirs P (ROOT_BPE_DIR cfg) (fs w)) as [f|].
      * destruct (path_exists P f (join (ROOT_BPE_DIR cfg) ["bpe.codes"])).
        -- left. reflexivity.
        -- right. now rewrite call_then_return_procs.
      * left. reflexivity.
  - intros Hroot Hcodes. now rewrite Hroot, Hcodes.
  - intros Hroot Hcodes. rewrite Hroot, Hcodes.
    now rewrite call_then_return_procs.
Qed.

End DistinctLanguages.

(** C7.  [apply_bpe] first looks for [ROOT_BPE_DIR/bpe.codes].  Without it
    the call raises an assertion error and the state is untouched: nothing is
    logged and nothing is started.  With it the call logs and then runs
    [apply_bpe_command]: the interpreter and the script, the codes file, the
    vocabulary file [ROOT_BPE_DIR/vocab<lang>], the threshold [MIN_FREQ], the
    input file and the output file; that command is the one process it
    starts. *)
Theorem apply_bpe_invocation (in_file out_file lang : string) (w : World P) :
  (path_exists P (fs w) (join (ROOT_BPE_DIR cfg) ["bpe.codes"]) = false ->
   apply_bpe cfg P in_file out_file lang w =
   (Raise (AssertionError
             (join (ROOT_BPE_DIR cfg) ["bpe.codes"] +++ " not exists!")), w))
  /\ (path_exists P (fs w) (join (ROOT_BPE_DIR cfg) ["bpe.codes"]) = true ->
      apply_bpe cfg P in_file out_file lang w =
      (_ <- call P (apply_bpe_command cfg in_file out_file lang) ;; ret tt)%M
        (logged ("Applying BPE to " +++ basename out_file) w)
      /\ procs (snd (apply_bpe cfg P in_file out_file lang w)) =
         procs w ++ [apply_bpe_command cfg in_file out_file lang]).
Proof.
  assert (Hmsg : forall s, format "Applying BPE to {}" [s]
                           = Ok ("Applying BPE to " +++ s)).
  { intros s. cbn. now rewrite append_empty_r. }
  split; intros H.
  - unfold apply_bpe, bind, lift, os_path_exists, raise. rewrite H.
    reflexivity.
  - assert (E : apply_bpe cfg P in_file out_file lang w =
      (_ <- call P (apply_bpe_command cfg in_file out_file lang) ;; ret tt)%M
        (logged ("Applying BPE to " +++ basename out_file) w)).
    { unfold apply_bpe. unfold bind at 1, os_path_exists at 1. rewrite H.
      cbn [negb]. unfold bind at 1, lift at 1. rewrite Hmsg.
      reflexivity. }
    split; [exact E|]. rewrite E. now rewrite call_then_return_procs.
Qed.

End BPE.

Lemma learn_bpe_invocation_witness :
  learn_bpe example_cfg example_platform (example_world example_corpus)
  = (Ok tt, logged "bpe.codes file exist, skipping..."
                   (example_world example_corpus)).
Proof.
  refine (proj1 (proj2 (learn_bpe_invocation
                          example_cfg example_platform _
                          (example_world example_corpus))) _ _).
  - repeat constructor; cbn; intuition discriminate.
  - reflexivity.
  - reflexivity.
Defined.

Lemma apply_bpe_invocation_witness :
  procs (snd (apply_bpe example_cfg example_platform
                "/data/tok/iwslt/fr-en/train.fr-en.fr"
                "/data/bpe/iwslt/fr-en/train.fr-en.fr" ".fr"
                (example_world example_corpus)))
  = [["python3"; "apply_bpe.py"; "-c"; "/data/bpe/bpe.codes";
      "--vocabulary"; "/data/bpe/vocab.fr";
      "--vocabulary-threshold"; "50";
      "--input"; "/data/tok/iwslt/fr-en/train.fr-en.fr";
      "--output"; "/data/bpe/iwslt/fr-en/train.fr-en.fr"]].
Proof.
  refine (proj2 (proj2 (apply_bpe_invocation
                          example_cfg example_platform
                          "/data/tok/iwslt/fr-en/train.fr-en.fr"
                          "/data/bpe/iwslt/fr-en/train.fr-en.fr" ".fr"
                          (example_world example_corpus)) _)).
  reflexivity.
Defined.

(** ** The processes a stage starts *)

Lemma prefix_of_nil {A : Type} (l : list A) : prefix_of [] l.
Proof. now exists l. Qed.

Lemma prefix_of_refl {A : Type} (l : list A) : prefix_of l l.
Proof. exists []. now rewrite app_nil_r. Qed.

Lemma prefix_of_app_r {A : Type} (done a b : list A) :
  prefix_of done a -> prefix_of done (a ++ b).
Proof. intros [rest ->]. exists (rest ++ b). now rewrite app_assoc. Qed.

Lemma prefix_of_app_l {A : Type} (a done b : list A) :
  prefix_of done b -> prefix_of (a ++ done) (a ++ b).
Proof. intros [rest ->]. exists rest. now rewrite app_assoc. Qed.

Section Starts.

Variable P : Platform.

Lemma starts_silent {A : Type} (m : M (World P) A) :
  (forall w, procs (snd (m w)) = procs w) -> starts m [].
Proof.
  intros H w. split.
  - exists []. split; [apply prefix_of_nil | now rewrite H, app_nil_r].
  - intros _ _. now rewrite H, app_nil_r.
Qed.

Lemma starts_raise {A : Type} (e : exn) (cmds : list (list string)) :
  starts (raise e : M (World P) A) cmds.
Proof.
  intros w. split.
  - exists []. split; [apply prefix_of_nil | cbn; now rewrite app_nil_r].
  - intros a H. discriminate.
Qed.

Lemma starts_ret {A : Type} (a : A) : starts (ret a : M (World P) A) [].
Proof. now apply starts_silent. Qed.

Lemma starts_lift {A : Type} (r : result A) : starts (lift r : M (World P) A) [].
Proof. now apply starts_silent. Qed.

Lemma starts_log (msg : string) : starts (LOGGER_info P msg) [].
Proof. now apply starts_silent. Qed.

Lemma starts_exists (p : string) : starts (os_path_exists P p) [].
Proof. now apply starts_silent. Qed.

Lemma starts_fs_step (what : string) (step : FS P -> option (FS P)) :
  starts (fs_step P what step) [].
Proof.
  apply starts_silent. intros w. unfold fs_step.
  destruct (step (fs w)); reflexivity.
Qed.

Lemma starts_makedirs (p : string) : starts (os_makedirs P p) [].
Proof.
  apply starts_silent. intros w. unfold os_makedirs.
  destruct (makedirs P p (fs w)); reflexivity.
Qed.

Lemma starts_open_read (p : string) : starts (open_read P p) [].
Proof.
  apply starts_silent. intros w. unfold open_read.
  destruct (open_r P p (fs w)); reflexivity.
Qed.

Lemma starts_file_readlines (file : text_file) :
  starts (file_readlines P file) [].
Proof. now apply starts_silent. Qed.

Lemma starts_file_write (p text : string) : starts (file_write P p text) [].
Proof. now apply starts_silent. Qed.

Lemma starts_get_tokenizer : starts (get_tokenizer P) [].
Proof.
  apply starts_silent. intros w. unfold get_tokenizer.
  destruct (get_tokenizer_moses P); reflexivity.
Qed.

Lemma starts_call (cmd : list string) : starts (call P cmd) [cmd].
Proof.
  intros w. split.
  - exists [cmd]. split; [apply prefix_of_refl | apply call_procs].
  - intros _ _. apply call_procs.
Qed.

(** Sequencing: the commands of the first part, then those of the second. *)
Lemma starts_bind {A B : Type} (m : M (World P) A) (k : A -> M (World P) B)
    (c1 c2 : list (list string)) :
  starts m c1 -> (forall a, starts (k a) c2) -> starts (bind m k) (c1 ++ c2).
Proof.
  intros Hm Hk w. unfold bind.
  destruct (Hm w) as [(done & Hp & Hd) Hok].
  destruct (m w) as [[a|e] w1]; cbn [fst snd] in *.
  - specialize (Hok a eq_refl).
    destruct (Hk a w1) as [(done2 & Hp2 & Hd2) Hok2]. split.
    + exists (c1 ++ done2). split; [now apply prefix_of_app_l|].
      now rewrite Hd2, Hok, app_assoc.
    + intros b Hb. now rewrite (Hok2 b Hb), Hok, app_assoc.
  - split.
    + exists done. split; [now apply prefix_of_app_r | exact Hd].
    + intros b Hb. discriminate.
Qed.

Lemma starts_then {A B : Type} (m : M (World P) A) (k : A -> M (World P) B)
    (c : list (list string)) :
  starts m [] -> (forall a, starts (k a) c) -> starts (bind m k) c.
Proof. intros Hm Hk. now apply (starts_bind m k [] c). Qed.

Lemma starts_one_then {A B : Type} (m : M (World P) A)
    (k : A -> M (World P) B) (cmd : list string) (c : list (list string)) :
  starts m [cmd] -> (forall a, starts (k a) c) -> starts (bind m k) (cmd :: c).
Proof. intros Hm Hk. now apply (starts_bind m k [cmd] c). Qed.

(** A loop starts the commands of its rounds, one round after the other. *)
Lemma starts_for_each {A : Type} (l : list A) (body : A -> M (World P) unit)
    (cmds : A -> list (list string)) :
  (forall x, starts (body x) (cmds x)) ->
  starts (for_each l body) (flat_map cmds l).
Proof.
  intros H. induction l as [|x l IH]; cbn [for_each flat_map].
  - apply starts_ret.
  - apply starts_bind; [apply H | intros _; exact IH].
Qed.

(** What runs a silent body never starts anything. *)
Lemma starts_for_each_silent {A : Type} (l : list A)
    (body : A -> M (World P) unit) :
  (forall x, starts (body x) []) -> starts (for_each l body) [].
Proof.
  intros H. induction l as [|x l IH]; cbn [for_each].
  - apply starts_ret.
  - apply starts_then; [apply H | intros _; exact IH].
Qed.

End Starts.

Ltac starts_silent_steps :=
  repeat first
    [ apply starts_ret | apply starts_lift | apply starts_log
    | apply starts_exists | apply starts_makedirs | apply starts_fs_step
    | apply starts_open_read | apply starts_file_readlines
    | apply starts_file_write
    | apply starts_get_tokenizer | apply starts_raise
    | (apply starts_then; [|intros ?]) ].

Section PipelineStarts.

Variable cfg : Settings.
Variable P : Platform.

Lemma apply_bpe_starts (in_file out_file lang : string) :
  starts (apply_bpe cfg P in_file out_file lang)
         [apply_bpe_command cfg in_file out_file lang].
Proof.
  unfold apply_bpe. cbv zeta.
  apply starts_then; [apply starts_exists|]. intros found.
  destruct found; cbn [negb].
  - apply starts_then; [apply starts_lift|]. intros msg.
    apply starts_then; [apply starts_log|]. intros _.
    apply starts_one_then; [apply starts_call|]. intros _. apply starts_ret.
  - apply starts_then; [apply starts_lift|]. intros msg. apply starts_raise.
Qed.

Lemma tokenize_starts (in_file out_file : string) :
  starts (_tokenize P in_file out_file) [].
Proof.
  unfold _tokenize. starts_silent_steps.
  apply starts_for_each_silent. intros line. apply starts_file_write.
Qed.

End PipelineStarts.

(** ** The work of the stages *)

Lemma bind_lift_ok {S A B : Type} (a : A) (k : A -> M S B) :
  bind (lift (Ok a)) k = k a.
Proof. reflexivity. Qed.

Lemma returns_bind {S A B : Type} (m : M S A) (k : A -> M S B) :
  returns m -> (forall a, returns (k a)) -> returns (bind m k).
Proof.
  intros Hm Hk s. unfold bind. destruct (Hm s) as [a Ha].
  destruct (m s) as [[a'|e] s1]; cbn in Ha; [|discriminate].
  apply Hk.
Qed.

Lemma returns_for_each {S A : Type} (l : list A) (body : A -> M S unit) :
  (forall x, returns (body x)) -> returns (for_each l body).
Proof.
  intros H. induction l as [|x l IH]; cbn [for_each].
  - intros s. now exists tt.
  - apply returns_bind; [apply H | intros _; exact IH].
Qed.

Section PipelineWork.

Variable cfg : Settings.
Variable P : Platform.

Lemma returns_call (cmd : list string) : launches P -> returns (call P cmd).
Proof.
  intros HL w. unfold call.
  destruct (subprocess_call P cmd (fs w)) as [[status f]|] eqn:E.
  - now exists status.
  - now apply HL in E.
Qed.

(** X2.  When the BPE directory of a language pair is not there,
    [apply_bpe_iwslt] starts BPE commands only, and only those of
    [apply_bpe_iwslt_commands], in that order: whatever happens, the processes
    started are an initial part of that list; when the call returns, they are
    the whole list, six commands. *)
Theorem apply_bpe_iwslt_started (s t : string) (w : World P) :
  path_exists P (fs w) (join (ROOT_BPE_DIR cfg) ["iwslt"; pair_dir s t]) = false ->
  (exists done,
     prefix_of done (apply_bpe_iwslt_commands cfg s t)
     /\ procs (snd (apply_bpe_iwslt cfg P s t w)) = procs w ++ done)
  /\ (forall u, fst (apply_bpe_iwslt cfg P s t w) = Ok u ->
        procs (snd (apply_bpe_iwslt cfg P s t w))
        = procs w ++ apply_bpe_iwslt_commands cfg s t).
Proof.
  intros H.
  remember (apply_bpe_iwslt cfg P s t w) as r eqn:E.
  unfold apply_bpe_iwslt in E.
  rewrite !pair_dirname_ok in E. rewrite !bind_lift_ok in E.
  unfold bind at 1, os_path_exists at 1 in E. unfold IWSLT_name in E.
  rewrite H in E.
  match type of E with
  | _ = ?K w =>
      assert (HK : starts K (apply_bpe_iwslt_commands cfg s t))
  end.
  { apply starts_then; [apply starts_makedirs|]. intros _.
    unfold apply_bpe_iwslt_commands, iwslt_prefixs, iwslt_suffixs, iwslt_file.
    cbn [product flat_map map app for_each].
    repeat (apply starts_one_then; [apply apply_bpe_starts | intros _]).
    apply starts_ret. }
  subst r. exact (HK w).
Qed.

(** X3.  The same for multi30k: nine commands, each with the vocabulary of its
    language. *)
Theorem apply_bpe_multi30k_started (w : World P) :
  path_exists P (fs w) (join (ROOT_BPE_DIR cfg) ["multi30k"]) = false ->
  (exists done,
     prefix_of done (apply_bpe_multi30k_commands cfg)
     /\ procs (snd (apply_bpe_multi30k cfg P w)) = procs w ++ done)
  /\ (forall u, fst (apply_bpe_multi30k cfg P w) = Ok u ->
        procs (snd (apply_bpe_multi30k cfg P w))
        = procs w ++ apply_bpe_multi30k_commands cfg).
Proof.
  intros H.
  remember (apply_bpe_multi30k cfg P w) as r eqn:E.
  unfold apply_bpe_multi30k in E. cbv zeta in E.
  unfold bind at 1, os_path_exists at 1 in E. rewrite H in E.
  match type of E with
  | _ = ?K w =>
      assert (HK : starts K (apply_bpe_multi30k_commands cfg))
  end.
  { apply starts_then; [apply starts_makedirs|]. intros _.
    unfold apply_bpe_multi30k_commands, multi30k_prefixs, multi30k_langs.
    cbn [product flat_map map app for_each].
    repeat (apply starts_one_then; [apply apply_bpe_starts | intros _]).
    apply starts_ret. }
  subst r. exact (HK w).
Qed.

Lemma multi30k_url (p lang : string) :
  format multi30k_base_url [p; lang]
  = Ok ("https://github.com/multi30k/dataset/raw/master/data/task1/raw/"
        +++ p +++ lang +++ ".gz").
Proof. reflexivity. Qed.

Lemma multi30k_gz (p lang : string) :
  format "{}{}.gz" [p; lang] = Ok (p +++ lang +++ ".gz").
Proof. reflexivity. Qed.

Lemma download_round_starts (corpus_dir p lang : string) :
  starts
    (url <- lift (format multi30k_base_url [p; lang]) ;;
     call P ["wget"; url; "-P"; corpus_dir] ;;
     gz <- lift (format "{}{}.gz" [p; lang]) ;;
     call P ["gunzip"; "-k"; join corpus_dir [gz]] ;;
     ret tt)%M
    [["wget";
      "https://github.com/multi30k/dataset/raw/master/data/task1/raw/"
      +++ p +++ lang +++ ".gz"; "-P"; corpus_dir];
     ["gunzip"; "-k"; join corpus_dir [p +++ lang +++ ".gz"]]].
Proof.
  rewrite multi30k_url, bind_lift_ok.
  apply starts_one_then; [apply starts_call|]. intros _.
  rewrite multi30k_gz, bind_lift_ok.
  apply starts_one_then; [apply starts_call|]. intros _.
  apply starts_ret.
Qed.

Lemma download_round_returns (corpus_dir p lang : string) :
  launches P ->
  returns
    (url <- lift (format multi30k_base_url [p; lang]) ;;
     call P ["wget"; url; "-P"; corpus_dir] ;;
     gz <- lift (format "{}{}.gz" [p; lang]) ;;
     call P ["gunzip"; "-k"; join corpus_dir [gz]] ;;
     ret tt)%M.
Proof.
  intros HL. rewrite multi30k_url, bind_lift_ok.
  apply returns_bind; [now apply returns_call|]. intros _.
  rewrite multi30k_gz, bind_lift_ok.
  apply returns_bind; [now apply returns_call|]. intros _.
  intros w. now exists tt.
Qed.

(** X4.  When the multi30k corpus directory is not there, [_download_multi30k]
    starts [wget] and [gunzip] for each of the nine files, in that order and
    nothing else, and it never looks at an exit status: as long as the two
    programs can be started the call returns, with all eighteen commands
    started, whatever they report. *)
Theorem download_multi30k_started (w : World P) :
  path_exists P (fs w) (join (ROOT_CORPUS_DIR cfg) ["multi30k"]) = false ->
  (exists done,
     prefix_of done (download_multi30k_commands cfg)
     /\ procs (snd (_download_multi30k cfg P w)) = procs w ++ done)
  /\ (launches P ->
      fst (_download_multi30k cfg P w) = Ok tt
      /\ procs (snd (_download_multi30k cfg P w))
         = procs w ++ download_multi30k_commands cfg).
Proof.
  intros H.
  remember (_download_multi30k cfg P w) as r eqn:E.
  unfold _download_multi30k in E. cbv zeta in E.
  unfold bind at 1, os_path_exists at 1 in E. rewrite H in E.
  match type of E with
  | _ = ?K w =>
      assert (HK : starts K (download_multi30k_commands cfg));
      [|assert (HR : launches P -> returns K)]
  end.
  { apply starts_then; [apply starts_log|]. intros _.
    unfold download_multi30k_commands, multi30k_prefixs, multi30k_langs.
    cbn [product flat_map map app for_each].
    repeat (apply (starts_bind P _ _ [_; _]);
            [apply download_round_starts | intros _]).
    apply starts_ret. }
  { intros HL. apply returns_bind; [intros w0; now exists tt|]. intros _.
    apply returns_for_each. intros [p lang].
    now apply download_round_returns. }
  subst r. split; [exact (proj1 (HK w))|].
  intros HL. destruct (HR HL w) as [[] Hu].
  split; [exact Hu | exact (proj2 (HK w) tt Hu)].
Qed.


Lemma substring_all (s : string) : substring 0 (String.length s) s = s.
Proof. induction s as [|c s IH]; cbn; [reflexivity | now rewrite IH]. Qed.

(** The last characters of a name that ends with a code of that length are
    the code. *)
Lemma last_chars_app (x lang : string) :
  last_chars (String.length lang) (x +++ lang) = lang.
Proof.
  unfold last_chars.
  induction x as [|c x IH].
  - cbn [append]. rewrite Nat.sub_diag. apply substring_all.
  - cbn [append String.length].
    replace (S (String.length (x +++ lang)) - String.length lang)
      with (S (String.length (x +++ lang) - String.length lang)).
    + exact IH.
    + assert (String.length lang <= String.length (x +++ lang)).
      { clear. induction x as [|c x IH]; cbn; lia. }
      lia.
Qed.

(** X5.  For language codes of three characters (a marker and a two-letter ISO
    code), every BPE command of [apply_bpe_iwslt] names the vocabulary of the
    language of its own file, [vocab<src_lang>] for a source file and
    [vocab<tgt_lang>] for a target file: the last three characters of the file
    name are the language code. *)
Theorem apply_bpe_iwslt_vocabularies (s t : string) :
  String.length s = 3 -> String.length t = 3 ->
  map vocabulary_of (apply_bpe_iwslt_commands cfg s t)
  = [join (ROOT_BPE_DIR cfg) ["vocab" +++ s];
     join (ROOT_BPE_DIR cfg) ["vocab" +++ t];
     join (ROOT_BPE_DIR cfg) ["vocab" +++ s];
     join (ROOT_BPE_DIR cfg) ["vocab" +++ t];
     join (ROOT_BPE_DIR cfg) ["vocab" +++ s];
     join (ROOT_BPE_DIR cfg) ["vocab" +++ t]].
Proof.
  intros Hs Ht. unfold apply_bpe_iwslt_commands.
  cbn [flat_map map app]. unfold vocabulary_of, apply_bpe_command.
  cbn [nth].
  assert (Es : last_chars 3 (drop_first s +++ "-" +++ drop_first t +++ s) = s).
  { rewrite <- Hs at 1. rewrite <- !append_assoc. apply last_chars_app. }
  assert (Et : last_chars 3 (drop_first s +++ "-" +++ drop_first t +++ t) = t).
  { rewrite <- Ht at 1. rewrite <- !append_assoc. apply last_chars_app. }
  rewrite Es, Et. reflexivity.
Qed.

(** ** Stages that are skipped, one by one *)

Lemma IWSLT_download_skips (s t : string) (w : World P) :
  path_exists P (fs w) (join (ROOT_CORPUS_DIR cfg) ["iwslt"; pair_dir s t])
  = true ->
  _IWSLT_download_helper cfg P s t w
  = (Ok tt, logged ("iwslt " +++ pair_dir s t +++ " exists, skipping...") w).
Proof.
  intros H. unfold _IWSLT_download_helper.
  rewrite pair_dirname_ok, bind_lift_ok.
  unfold bind at 1, os_path_exists at 1. unfold IWSLT_name. rewrite H.
  unfold bind, lift, LOGGER_info, logged. cbn -[join append].
  unfold pair_dir. rewrite ?append_assoc. reflexivity.
Qed.

Lemma IWSLT_tokenize_skips (s t : string) (w : World P) :
  path_exists P (fs w) (join (ROOT_TOK_DIR cfg) ["iwslt"; pair_dir s t])
  = true ->
  _tokenize_IWSLT_helper cfg P s t w
  = (Ok tt,
     logged (join (ROOT_TOK_DIR cfg) ["iwslt"; pair_dir s t]
             +++ " exists, skipping...") w).
Proof.
  intros H. unfold _tokenize_IWSLT_helper.
  rewrite pair_dirname_ok, bind_lift_ok.
  unfold bind at 1, os_path_exists at 1. unfold IWSLT_name. rewrite H.
  unfold bind, lift, LOGGER_info, logged. cbn -[join append]. reflexivity.
Qed.

Lemma apply_bpe_iwslt_skips (s t : string) (w : World P) :
  path_exists P (fs w) (join (ROOT_BPE_DIR cfg) ["iwslt"; pair_dir s t])
  = true ->
  apply_bpe_iwslt cfg P s t w
  = (Ok tt,
     logged ("BPE IWSLT for " +++ pair_dir s t +++ " exists, skipping...") w).
Proof.
  intros H. unfold apply_bpe_iwslt.
  rewrite pair_dirname_ok, bind_lift_ok.
  unfold bind at 1, os_path_exists at 1. unfold IWSLT_name. rewrite H.
  unfold bind, lift, LOGGER_info, logged. cbn -[join append].
  unfold pair_dir. rewrite ?append_assoc. reflexivity.
Qed.

(** X6.  When the four directories of the IWSLT preparation are there (raw
    corpus and tokens, for French-English and English-German), [prepare_IWSLT]
    returns after four skip messages, in the order download fr-en, download
    en-de, tokenize fr-en, tokenize en-de, and changes nothing else. *)
Theorem prepare_IWSLT_all_present (w : World P) :
  path_exists P (fs w)
    (join (ROOT_CORPUS_DIR cfg) ["iwslt"; pair_dir (FR cfg) (EN cfg)]) = true ->
  path_exists P (fs w)
    (join (ROOT_CORPUS_DIR cfg) ["iwslt"; pair_dir (EN cfg) (DE cfg)]) = true ->
  path_exists P (fs w)
    (join (ROOT_TOK_DIR cfg) ["iwslt"; pair_dir (FR cfg) (EN cfg)]) = true ->
  path_exists P (fs w)
    (join (ROOT_TOK_DIR cfg) ["iwslt"; pair_dir (EN cfg) (DE cfg)]) = true ->
  prepare_IWSLT cfg P w
  = (Ok tt,
     mkWorld (fs w)
       (log w ++
        ["iwslt " +++ pair_dir (FR cfg) (EN cfg) +++ " exists, skipping...";
         "iwslt " +++ pair_dir (EN cfg) (DE cfg) +++ " exists, skipping...";
         join (ROOT_TOK_DIR cfg) ["iwslt"; pair_dir (FR cfg) (EN cfg)]
         +++ " exists, skipping...";
         join (ROOT_TOK_DIR cfg) ["iwslt"; pair_dir (EN cfg) (DE cfg)]
         +++ " exists, skipping..."])
       (procs w) (IWSLT_dirname w) (IWSLT_urls w)).
Proof.
  intros H1 H2 H3 H4. unfold prepare_IWSLT.
  unfold bind at 1. rewrite (IWSLT_download_skips _ _ w H1).
  unfold bind at 1. rewrite (IWSLT_download_skips _ _ (logged _ w) H2).
  unfold bind at 1.
  rewrite (IWSLT_tokenize_skips _ _ (logged _ (logged _ w)) H3).
  rewrite (IWSLT_tokenize_skips _ _ (logged _ (logged _ (logged _ w))) H4).
  unfold logged. cbn [fs log procs IWSLT_dirname IWSLT_urls].
  rewrite <- !app_assoc. reflexivity.
Qed.

(** X7.  When the multi30k corpus directory and token directory are both there,
    [prepare_multi30k] returns after two skip messages and changes nothing
    else. *)
Theorem prepare_multi30k_all_present (w : World P) :
  path_exists P (fs w) (join (ROOT_CORPUS_DIR cfg) ["multi30k"]) = true ->
  path_exists P (fs w) (join (ROOT_TOK_DIR cfg) ["multi30k"]) = true ->
  prepare_multi30k cfg P w
  = (Ok tt,
     mkWorld (fs w)
       (log w ++ ["multi30k exists, skipping...";
                  "multi30k tokens exists, skipping..."])
       (procs w) (IWSLT_dirname w) (IWSLT_urls w)).
Proof.
  intros H1 H2. unfold prepare_multi30k, _download_multi30k. cbv zeta.
  unfold bind, os_path_exists, LOGGER_info. cbn [fst snd fs].
  rewrite H1. cbn [fs]. rewrite H2. cbn [fs log procs IWSLT_dirname IWSLT_urls].
  rewrite <- !app_assoc. reflexivity.
Qed.

(** X8.  A first run of [apply_bpe_iwslt] without the codes file makes the BPE
    directory of the pair and then fails at the first file, with an assertion
    error and no file written. The directory stays, so the next run finds it
    and reports that the work exists: the failure is not repaired by running
    the stage again. *)
Theorem apply_bpe_iwslt_failure_is_kept (s t : string) (w : World P)
    (f1 : FS P) :
  let bpe_dir := join (ROOT_BPE_DIR cfg) ["iwslt"; pair_dir s t] in
  let codes_file := join (ROOT_BPE_DIR cfg) ["bpe.codes"] in
  path_exists P (fs w) bpe_dir = false ->
  makedirs P bpe_dir (fs w) = Some f1 ->
  path_exists P f1 bpe_dir = true ->
  path_exists P f1 codes_file = false ->
  apply_bpe_iwslt cfg P s t w
  = (Raise (AssertionError (codes_file +++ " not exists!")), set_fs P f1 w)
  /\ apply_bpe_iwslt cfg P s t (set_fs P f1 w)
     = (Ok tt,
        logged ("BPE IWSLT for " +++ pair_dir s t +++ " exists, skipping...")
               (set_fs P f1 w)).
Proof.
  intros bpe_dir codes_file Hno Hmk Hdir Hcodes. split.
  - unfold apply_bpe_iwslt.
    rewrite !pair_dirname_ok, !bind_lift_ok.
    unfold bind at 1, os_path_exists at 1. unfold IWSLT_name.
    fold bpe_dir. rewrite Hno.
    unfold bind at 1, os_makedirs at 1. rewrite Hmk.
    unfold iwslt_prefixs, iwslt_suffixs. cbn [product flat_map map app for_each].
    unfold bind at 1, apply_bpe at 1. cbv zeta.
    unfold bind at 1, os_path_exists at 1. cbn [fs set_fs].
    fold codes_file. rewrite Hcodes. reflexivity.
  - apply apply_bpe_iwslt_skips. exact Hdir.
Qed.

(** ** Tokenizing a file *)

Lemma readlines_some (f : FS P) (p : string) (lines : list string) :
  readlines P f p = Some lines <-> open_r P p f = Some (Lines lines).
Proof.
  unfold readlines. destruct (open_r P p f) as [[ls|e]|]; split; intros H;
    try discriminate; inversion H; reflexivity.
Qed.

Lemma write_lines (out : string) (text : string -> string)
    (lines : list string) (w : World P) :
  for_each lines (fun line => file_write P out (text line)) w
  = (Ok tt,
     set_fs P (fold_left (fun f line => write P out (text line) f) lines (fs w))
            w).
Proof.
  revert w. induction lines as [|line lines IH]; intros w.
  - destruct w; reflexivity.
  - cbn [for_each fold_left]. unfold bind at 1, file_write at 1.
    rewrite IH. reflexivity.
Qed.

(** X9.  With a tokenizer at hand, an output file that can be opened and an
    input file that can be read, [_tokenize] logs its message once and writes
    one text per input line, in their order: the tokens of the lowered line
    joined by spaces and followed by a space (when there is a token) and a line
    feed. It starts no process. *)
Theorem tokenize_writes (in_file out_file : string)
    (tokenizer : string -> list string) (f1 : FS P) (lines : list string)
    (w : World P) :
  get_tokenizer_moses P = Some tokenizer ->
  open_w P out_file (fs w) = Some f1 ->
  readlines P f1 in_file = Some lines ->
  _tokenize P in_file out_file w
  = (Ok tt,
     mkWorld
       (fold_left (fun f line =>
                     write P out_file (tokenized_text P tokenizer line) f)
                  lines f1)
       (log w ++ ["tokenizing " +++ basename in_file +++ "..."])
       (procs w) (IWSLT_dirname w) (IWSLT_urls w)).
Proof.
  intros Htok Hopen Hread. apply readlines_some in Hread.
  unfold _tokenize, get_tokenizer. rewrite Htok.
  unfold bind at 1, ret at 1.
  unfold bind at 1, fs_step at 1. rewrite Hopen.
  unfold bind at 1, open_read at 1. cbn [fs set_fs]. rewrite Hread.
  change (format "tokenizing {}..." [basename in_file])
    with (Ok ("tokenizing " +++ basename in_file +++ "...") : result string).
  rewrite bind_lift_ok. unfold bind at 1, LOGGER_info at 1.
  unfold file_readlines, text_readlines. rewrite bind_lift_ok.
  rewrite (write_lines out_file (tokenized_text P tokenizer)).
  reflexivity.
Qed.

(** X10.  [_tokenize] opens its output before its input, and it logs
    between opening the input and reading it.  When the input cannot be
    opened, the call raises the error of the file system for the input path,
    the output file has been created (or emptied) all the same, and nothing is
    logged.  When the input opens and [readlines()] raises (the text cannot be
    decoded, or the system cannot read it), the call raises that exception,
    the output file has been created (or emptied), and the message is in the
    log already. *)
Theorem tokenize_unreadable_input (in_file out_file : string)
    (tokenizer : string -> list string) (f1 : FS P) (w : World P) :
  get_tokenizer_moses P = Some tokenizer ->
  open_w P out_file (fs w) = Some f1 ->
  let logged_w :=
    mkWorld f1 (log w ++ ["tokenizing " +++ basename in_file +++ "..."])
            (procs w) (IWSLT_dirname w) (IWSLT_urls w) in
  (open_r P in_file f1 = None ->
   _tokenize P in_file out_file w = (Raise (OSError in_file), set_fs P f1 w))
  /\ (forall msg,
        open_r P in_file f1 = Some (Broken (Undecodable msg)) ->
        _tokenize P in_file out_file w
        = (Raise (UnicodeDecodeError msg), logged_w))
  /\ (forall what,
        open_r P in_file f1 = Some (Broken (Unreadable what)) ->
        _tokenize P in_file out_file w = (Raise (OSError what), logged_w)).
Proof.
  intros Htok Hopen logged_w.
  split; [intros Hread | split; [intros msg Hread | intros what Hread]];
    unfold _tokenize, get_tokenizer; rewrite Htok;
    unfold bind at 1, ret at 1;
    unfold bind at 1, fs_step at 1; rewrite Hopen;
    unfold bind at 1, open_read at 1; cbn [fs set_fs]; rewrite Hread;
    try reflexivity;
    change (format "tokenizing {}..." [basename in_file])
      with (Ok ("tokenizing " +++ basename in_file +++ "...") : result string);
    rewrite bind_lift_ok; unfold bind at 1, LOGGER_info at 1;
    reflexivity.
Qed.

End PipelineWork.

Lemma apply_bpe_iwslt_started_witness :
  procs (snd (apply_bpe_iwslt example_cfg example_platform ".fr" ".en"
                              (example_world example_codes)))
  = apply_bpe_iwslt_commands example_cfg ".fr" ".en".
Proof.
  refine (proj2 (apply_bpe_iwslt_started example_cfg example_platform
                   ".fr" ".en" (example_world example_codes) _) tt _).
  - reflexivity.
  - reflexivity.
Defined.

Lemma apply_bpe_multi30k_started_witness :
  procs (snd (apply_bpe_multi30k example_cfg example_platform
                                 (example_world example_codes)))
  = apply_bpe_multi30k_commands example_cfg.
Proof.
  refine (proj2 (apply_bpe_multi30k_started example_cfg example_platform
                   (example_world example_codes) _) tt _).
  - reflexivity.
  - reflexivity.
Defined.

(** Every command fails, and the download returns all the same. *)
Lemma download_multi30k_started_witness :
  fst (_download_multi30k example_cfg failing_platform
         (mkWorld ([] : FS failing_platform) [] [] None None)) = Ok tt
  /\ List.length
       (procs (snd (_download_multi30k example_cfg failing_platform
                      (mkWorld ([] : FS failing_platform) [] [] None None))))
     = 18.
Proof.
  destruct (proj2 (download_multi30k_started example_cfg failing_platform
                     (mkWorld ([] : FS failing_platform) [] [] None None)
                     eq_refl))
    as [Hok Hprocs].
  - intros cmd f. discriminate.
  - split; [exact Hok|]. rewrite Hprocs. reflexivity.
Defined.

Lemma apply_bpe_iwslt_vocabularies_witness :
  map vocabulary_of (apply_bpe_iwslt_commands example_cfg ".fr" ".en")
  = ["/data/bpe/vocab.fr"; "/data/bpe/vocab.en";
     "/data/bpe/vocab.fr"; "/data/bpe/vocab.en";
     "/data/bpe/vocab.fr"; "/data/bpe/vocab.en"].
Proof.
  apply (apply_bpe_iwslt_vocabularies example_cfg ".fr" ".en");
    reflexivity.
Defined.

(** A code of another length: the vocabulary named is not that of the
    language. *)
Example apply_bpe_iwslt_long_code :
  map vocabulary_of (apply_bpe_iwslt_commands example_cfg ".pt-br" ".en")
  = ["/data/bpe/vocab-br"; "/data/bpe/vocab.en";
     "/data/bpe/vocab-br"; "/data/bpe/vocab.en";
     "/data/bpe/vocab-br"; "/data/bpe/vocab.en"].
Proof. reflexivity. Qed.

Lemma prepare_IWSLT_all_present_witness :
  prepare_IWSLT example_cfg example_platform (example_world example_prepared)
  = (Ok tt,
     mkWorld (example_prepared : FS example_platform)
       ["iwslt fr-en exists, skipping..."; "iwslt en-de exists, skipping...";
        "/data/tok/iwslt/fr-en exists, skipping...";
        "/data/tok/iwslt/en-de exists, skipping..."]
       [] None None).
Proof.
  apply (prepare_IWSLT_all_present example_cfg example_platform
           (example_world example_prepared)); reflexivity.
Defined.

Lemma prepare_multi30k_all_present_witness :
  prepare_multi30k example_cfg example_platform
                   (example_world example_prepared)
  = (Ok tt,
     mkWorld (example_prepared : FS example_platform)
       ["multi30k exists, skipping..."; "multi30k tokens exists, skipping..."]
       [] None None).
Proof.
  apply (prepare_multi30k_all_present example_cfg example_platform
           (example_world example_prepared)); reflexivity.
Defined.

Lemma apply_bpe_iwslt_failure_is_kept_witness :
  apply_bpe_iwslt example_cfg example_platform ".fr" ".en"
                  (example_world [("/data/bpe/iwslt/fr-en", None)])
  = (Ok tt,
     logged "BPE IWSLT for fr-en exists, skipping..."
            (example_world [("/data/bpe/iwslt/fr-en", None)])).
Proof.
  refine (proj2 (apply_bpe_iwslt_failure_is_kept
                   example_cfg example_platform ".fr" ".en"
                   (example_world [])
                   ([("/data/bpe/iwslt/fr-en", None)] : FS example_platform)
                   _ _ _ _)); reflexivity.
Defined.

Lemma tokenize_writes_witness :
  _tokenize example_platform "/data/corpus/multi30k/train.en"
            "/data/tok/multi30k/train.en" (example_world example_raw)
  = (Ok tt,
     mkWorld
       ([("/data/tok/multi30k/train.en", Some ["a cat " +++ NL; "sat " +++ NL]);
         ("/data/tok/multi30k/train.en", Some ["a cat " +++ NL]);
         ("/data/tok/multi30k/train.en", Some []);
         ("/data/corpus/multi30k/train.en", Some ["a cat" +++ NL; "sat" +++ NL])]
        : FS example_platform)
       ["tokenizing train.en..."] [] None None).
Proof.
  apply (tokenize_writes example_platform
           "/data/corpus/multi30k/train.en" "/data/tok/multi30k/train.en"
           split
           ([("/data/tok/multi30k/train.en", Some []);
             ("/data/corpus/multi30k/train.en",
              Some ["a cat" +++ NL; "sat" +++ NL])] : FS example_platform)
           ["a cat" +++ NL; "sat" +++ NL]
           (example_world example_raw)); reflexivity.
Defined.

Lemma tokenize_unreadable_input_witness :
  _tokenize example_platform "/data/corpus/multi30k/train.en"
            "/data/tok/multi30k/train.en" (example_world [])
  = (Raise (OSError "/data/corpus/multi30k/train.en"),
     example_world [("/data/tok/multi30k/train.en", Some [])])
  /\ _tokenize garbled_platform "/data/corpus/multi30k/train.en"
               "/data/tok/multi30k/train.en"
               (mkWorld (example_raw : FS garbled_platform) [] [] None None)
     = (Raise (UnicodeDecodeError "'utf-8' codec can't decode byte 0xff"),
        mkWorld
          ((("/data/tok/multi30k/train.en", Some []) :: example_raw)
           : FS garbled_platform)
          ["tokenizing train.en..."] [] None None).
Proof.
  split.
  - apply (proj1 (tokenize_unreadable_input example_platform
                    "/data/corpus/multi30k/train.en"
                    "/data/tok/multi30k/train.en" split
                    ([("/data/tok/multi30k/train.en", Some [])]
                     : FS example_platform)
                    (example_world []) eq_refl eq_refl)).
    reflexivity.
  - apply (proj1 (proj2 (tokenize_unreadable_input garbled_platform
                    "/data/corpus/multi30k/train.en"
                    "/data/tok/multi30k/train.en" split
                    ((("/data/tok/multi30k/train.en", Some []) :: example_raw)
                     : FS garbled_platform)
                    (mkWorld (example_raw : FS garbled_platform) [] [] None None)
                    eq_refl eq_refl))
                 "'utf-8' codec can't decode byte 0xff").
    reflexivity.
Defined.

(** ** The download helper and the root of the BPE files *)

Section PipelineMore.

Variable cfg : Settings.
Variable P : Platform.

(** X11.  When the raw corpus directory of the pair is not there and the
    download and the cleaning succeed, [_IWSLT_download_helper] logs where it
    downloads, and it leaves the two class attributes [IWSLT.dirname] and
    [IWSLT.urls] set to the directory name and the one URL of this pair: the
    download runs with them, and they stay so after the call. *)
Theorem IWSLT_download_work (s t url : string) (f1 f2 : FS P) (w : World P) :
  let corpus_dir := join (ROOT_CORPUS_DIR cfg) ["iwslt"; pair_dir s t] in
  path_exists P (fs w) corpus_dir = false ->
  format (IWSLT_base_url P) [drop_first s; drop_first t; pair_dir s t]
  = Ok url ->
  IWSLT_download P (Some (pair_dir s t)) (Some [url]) (ROOT_CORPUS_DIR cfg)
                 corpus_dir (fs w) = Some f1 ->
  IWSLT_clean P corpus_dir f1 = Some f2 ->
  _IWSLT_download_helper cfg P s t w
  = (Ok tt,
     mkWorld f2 (log w ++ ["downloading in " +++ corpus_dir +++ "..."])
             (procs w) (Some (pair_dir s t)) (Some [url])).
Proof.
  intros corpus_dir Hno Hurl Hdl Hclean. unfold _IWSLT_download_helper.
  rewrite !pair_dirname_ok, !bind_lift_ok.
  unfold bind at 1, os_path_exists at 1. unfold IWSLT_name.
  fold corpus_dir. rewrite Hno.
  change (format "downloading in {}..." [corpus_dir])
    with (Ok ("downloading in " +++ corpus_dir +++ "...") : result string).
  rewrite bind_lift_ok. rewrite Hurl.
  unfold bind, lift, LOGGER_info, fs_step.
  cbn [fs log procs IWSLT_dirname IWSLT_urls fst snd set_fs].
  rewrite Hdl. cbn [fs log procs IWSLT_dirname IWSLT_urls set_fs].
  rewrite Hclean. reflexivity.
Qed.

(** X12.  When [ROOT_BPE_DIR] is not there, [learn_bpe] makes it first. If that
    fails the call raises the error of the file system, and nothing is logged
    or started. If it succeeds and there is no codes file in the new directory,
    the learner is started, once, after its log message. *)
Theorem learn_bpe_makes_root (w : World P) :
  NoDup [EN cfg; DE cfg; FR cfg] ->
  path_exists P (fs w) (ROOT_BPE_DIR cfg) = false ->
  (makedirs P (ROOT_BPE_DIR cfg) (fs w) = None ->
   learn_bpe cfg P w = (Raise (OSError (ROOT_BPE_DIR cfg)), w))
  /\ (forall f1,
        makedirs P (ROOT_BPE_DIR cfg) (fs w) = Some f1 ->
        path_exists P f1 (join (ROOT_BPE_DIR cfg) ["bpe.codes"]) = false ->
        procs (snd (learn_bpe cfg P w)) = procs w ++ [learn_bpe_command cfg]
        /\ log (snd (learn_bpe cfg P w))
           = log w ++ ["Learning BPE on joint language..."]).
Proof.
  intros Hlangs Hroot. rewrite (learn_bpe_unfold cfg P Hlangs w), Hroot.
  split.
  - intros Hmk. now rewrite Hmk.
  - intros f1 Hmk Hcodes. rewrite Hmk, Hcodes. split.
    + now rewrite call_then_return_procs.
    + unfold bind, call, ret, logged.
      cbn [fs log procs IWSLT_dirname IWSLT_urls set_fs].
      destruct (subprocess_call P (learn_bpe_command cfg) f1) as [[st f]|];
        reflexivity.
Qed.

End PipelineMore.

Lemma IWSLT_download_work_witness :
  _IWSLT_download_helper example_cfg example_platform ".fr" ".en"
                         (example_world [])
  = (Ok tt,
     mkWorld ([] : FS example_platform)
       ["downloading in /data/corpus/iwslt/fr-en..."] []
       (Some "fr-en")
       (Some ["https://wit3.fbk.eu/archive/2016-01//texts/fr/en/fr-en.tgz"])).
Proof.
  apply (IWSLT_download_work example_cfg example_platform ".fr" ".en"
           "https://wit3.fbk.eu/archive/2016-01//texts/fr/en/fr-en.tgz"
           ([] : FS example_platform) ([] : FS example_platform)
           (example_world [])); reflexivity.
Defined.

Lemma learn_bpe_makes_root_witness :
  procs (snd (learn_bpe example_cfg example_platform (example_world [])))
  = [learn_bpe_command example_cfg].
Proof.
  refine (proj1 (proj2 (learn_bpe_makes_root example_cfg example_platform
                          (example_world []) _ _)
                       ([("/data/bpe", None)] : FS example_platform) _ _)).
  - repeat constructor; cbn; intuition discriminate.
  - reflexivity.
  - reflexivity.
  - reflexivity.
Defined.

(** ** Tokenization starts no process *)

Lemma starts_nothing {P : Platform} {A : Type} (m : M (World P) A)
    (w : World P) :
  starts m [] -> procs (snd (m w)) = procs w.
Proof.
  intros H. destruct (proj1 (H w)) as [done [[rest Hrest] Hd]].
  symmetry in Hrest. apply app_eq_nil in Hrest as [-> _].
  now rewrite Hd, app_nil_r.
Qed.

Section Tokenization.

Variable cfg : Settings.
Variable P : Platform.

(** X13.  Tokenization runs in the calling process: whatever the file system
    holds and whether the call returns or raises, [_tokenize_IWSLT_helper]
    starts no child process. *)
Theorem tokenize_IWSLT_starts_nothing (s t : string) (w : World P) :
  procs (snd (_tokenize_IWSLT_helper cfg P s t w)) = procs w.
Proof.
  apply starts_nothing. unfold _tokenize_IWSLT_helper.
  rewrite !pair_dirname_ok, !bind_lift_ok.
  apply starts_then; [apply starts_exists|]. intros [|].
  - starts_silent_steps.
  - apply starts_then; [apply starts_makedirs|]. intros _.
    apply starts_for_each_silent. intros [p suffix]. apply tokenize_starts.
Qed.

(** X14.  [prepare_multi30k] starts the [wget] and [gunzip] commands of the
    download and no other process.  Its tokenization starts no process: in
    any state, and whether the call returns or raises, the processes started
    are those that [_download_multi30k] alone starts from that state.  They
    are none when the corpus directory is there, and in every case an initial
    part of [download_multi30k_commands]. *)
Theorem prepare_multi30k_started (w : World P) :
  procs (snd (prepare_multi30k cfg P w))
  = procs (snd (_download_multi30k cfg P w))
  /\ (path_exists P (fs w) (join (ROOT_CORPUS_DIR cfg) ["multi30k"]) = true ->
      procs (snd (prepare_multi30k cfg P w)) = procs w)
  /\ exists done,
       prefix_of done (download_multi30k_commands cfg)
       /\ procs (snd (prepare_multi30k cfg P w)) = procs w ++ done.
Proof.
  assert (HT : procs (snd (prepare_multi30k cfg P w))
               = procs (snd (_download_multi30k cfg P w))).
  { unfold prepare_multi30k. cbv zeta. unfold bind at 1.
    destruct (_download_multi30k cfg P w) as [[u|e] w1]; cbn [fst snd];
      [|reflexivity].
    apply starts_nothing.
    apply starts_then; [apply starts_exists|]. intros [|].
    - apply starts_log.
    - apply starts_then; [apply starts_log|]. intros _.
      apply starts_then; [apply starts_makedirs|]. intros _.
      apply starts_for_each_silent. intros [p lang].
      apply starts_then; [apply starts_lift|]. intros name.
      apply tokenize_starts. }
  rewrite HT. split; [reflexivity|].
  remember (_download_multi30k cfg P w) as r eqn:E.
  unfold _download_multi30k in E. cbv zeta in E.
  unfold bind at 1, os_path_exists at 1 in E.
  destruct (path_exists P (fs w) (join (ROOT_CORPUS_DIR cfg) ["multi30k"])).
  - subst r. split; [reflexivity|].
    exists []. split; [apply prefix_of_nil|].
    cbn. now rewrite app_nil_r.
  - split; [discriminate|].
    match type of E with
    | _ = ?K w =>
        assert (HK : starts K (download_multi30k_commands cfg))
    end.
    { apply starts_then; [apply starts_log|]. intros _.
      unfold download_multi30k_commands, multi30k_prefixs, multi30k_langs.
      cbn [product flat_map map app for_each].
      repeat (apply (starts_bind P _ _ [_; _]);
              [apply download_round_starts | intros _]).
      apply starts_ret. }
    subst r. exact (proj1 (HK w)).
Qed.

End Tokenization.

Lemma prepare_multi30k_started_witness :
  procs (snd (prepare_multi30k example_cfg example_platform
                (example_world [("/data/corpus/multi30k", None)])))
  = [].
Proof.
  apply (proj1 (proj2 (prepare_multi30k_started
                         example_cfg example_platform
                         (example_world [("/data/corpus/multi30k", None)])))).
  reflexivity.
Defined.

(** ** IWSLTDataset *)

Section Dataset.

Variable cfg : Settings.
Variable P : Platform.
Variable Vocab_init : FS P -> string -> result Vocab.

Local Abbreviation init := (IWSLTDataset_init cfg P Vocab_init).

(** The three modes and the prefix each one stands for. *)
Lemma prefix_entries :
  prefix = [("train", "train"); ("valid", "IWSLT16.TED.tst2013");
            ("test", "IWSLT16.TED.tst2014")].
Proof. reflexivity. Qed.

Lemma mode_prefix_lookup (mode p : string) :
  In (mode, p) [("train", "train"); ("valid", "IWSLT16.TED.tst2013");
                ("test", "IWSLT16.TED.tst2014")] ->
  str_in mode ["train"; "test"; "valid"] = true /\ dict_get prefix mode = Ok p.
Proof.
  intros [E|[E|[E|[]]]]; inversion E; subst; split; reflexivity.
Qed.

Lemma str_in_In (x : string) (l : list string) :
  str_in x l = true <-> In x l.
Proof.
  unfold str_in. rewrite existsb_exists. split.
  - intros (y & Hy & E). apply String.eqb_eq in E. now subst.
  - intros H. exists x. split; [exact H | apply String.eqb_refl].
Qed.

Lemma valid_mode_prefix (mode : string) :
  str_in mode ["train"; "test"; "valid"] = true ->
  exists p, In (mode, p) [("train", "train"); ("valid", "IWSLT16.TED.tst2013");
                          ("test", "IWSLT16.TED.tst2014")].
Proof.
  intros H. apply str_in_In in H. destruct H as [E|[E|[E|[]]]]; subst.
  - exists "train". now left.
  - exists "IWSLT16.TED.tst2014". right. right. now left.
  - exists "IWSLT16.TED.tst2013". right. now left.
Qed.

(** The name of a split file: [<prefix>.<srcISO>-<tgtISO><langCode>]. *)
Lemma split_file_name (p s t lang : string) :
  brace_free s = true -> brace_free t = true -> brace_free lang = true ->
  format (("{}." +++ drop_first s +++ "-" +++ drop_first t) +++ lang) [p]
  = Ok (p +++ "." +++ pair_dir s t +++ lang).
Proof.
  intros Hs Ht Hl. unfold pair_dir.
  rewrite !append_assoc.
  change ("{}." +++ drop_first s +++ "-" +++ drop_first t +++ lang)
    with ("{}" +++ "." +++ drop_first s +++ "-" +++ drop_first t +++ lang).
  apply format_leading_field.
  change ("." +++ drop_first s +++ "-" +++ drop_first t +++ lang)
    with ("." +++ (drop_first s +++ "-" +++ drop_first t +++ lang)).
  rewrite !brace_free_app.
  rewrite (brace_free_drop_first s Hs), (brace_free_drop_first t Ht), Hl.
  reflexivity.
Qed.

(** Which files [get_txt] opens and reads. *)
Lemma get_txt_files (f : FS P) (s t dir mode p : string) :
  brace_free s = true -> brace_free t = true ->
  dict_get prefix mode = Ok p ->
  get_txt P f s t dir mode =
  (src_file <- open_text P f (join dir [p +++ "." +++ pair_dir s t +++ s]) ;;
   tgt_file <- open_text P f (join dir [p +++ "." +++ pair_dir s t +++ t]) ;;
   src_contents <- text_readlines src_file ;;
   tgt_contents <- text_readlines tgt_file ;;
   Ok (src_contents, tgt_contents))%result.
Proof.
  intros Hs Ht Hp. unfold get_txt. rewrite Hp. cbn [rbind].
  rewrite (split_file_name p s t s Hs Ht Hs). cbn [rbind].
  rewrite (split_file_name p s t t Hs Ht Ht). reflexivity.
Qed.

(** The constructor once the mode is accepted. *)
Lemma init_valid_mode (f : FS P) (s t mode : string) :
  str_in mode ["train"; "test"; "valid"] = true ->
  init f s t mode =
  (src_vocab <- Vocab_init f s ;;
   tgt_vocab <- Vocab_init f t ;;
   let dir := join (ROOT_BPE_DIR cfg) ["iwslt"; pair_dir s t] in
   texts <- get_txt P f s t dir mode ;;
   if negb (List.length (fst texts) =? List.length (snd texts))%nat then
     Raise (AssertionError "Not paired dataset, something is wrong")
   else
     Ok (mkDataset s t mode src_vocab tgt_vocab dir (fst texts) (snd texts)))%result.
Proof.
  intros Hm. unfold IWSLTDataset_init. rewrite Hm. cbn [negb].
  destruct (Vocab_init f s) as [sv|e]; [|reflexivity]. cbn [rbind].
  destruct (Vocab_init f t) as [tv|e]; [|reflexivity]. cbn [rbind].
  change (format "{}-{}" [drop_first s; drop_first t]) with (pair_dirname s t).
  rewrite pair_dirname_ok. cbn [rbind].
  destruct (get_txt P f s t _ mode) as [[a b]|e]; reflexivity.
Qed.

Lemma init_invalid_mode (f : FS P) (s t mode : string) :
  str_in mode ["train"; "test"; "valid"] = false ->
  init f s t mode = Raise (AssertionError ("Invalid mode " +++ mode)).
Proof.
  intros Hm. unfold IWSLTDataset_init. rewrite Hm. cbn.
  now rewrite append_empty_r.
Qed.

(** Every data set that the constructor returns is paired. *)
Lemma init_paired (f : FS P) (s t mode : string) (ds : IWSLTDataset) :
  init f s t mode = Ok ds ->
  List.length (src_text ds) = List.length (tgt_text ds).
Proof.
  intros H.
  destruct (str_in mode ["train"; "test"; "valid"]) eqn:Hm.
  - rewrite (init_valid_mode f s t mode Hm) in H.
    destruct (Vocab_init f s) as [sv|e]; [|discriminate]. cbn [rbind] in H.
    destruct (Vocab_init f t) as [tv|e]; [|discriminate]. cbn [rbind] in H.
    destruct (get_txt P f s t _ mode) as [[a b]|e]; [|discriminate].
    cbn [rbind fst snd] in H.
    destruct (List.length a =? List.length b)%nat eqn:E; [|discriminate].
    cbn [negb] in H. inversion H; subst. cbn. now apply Nat.eqb_eq.
  - rewrite (init_invalid_mode f s t mode Hm) in H. discriminate.
Qed.

(** The constructor in full, for a mode that is one of the three and
    language codes that are plain text. *)
Lemma init_reads (f : FS P) (s t mode p : string) :
  brace_free s = true -> brace_free t = true ->
  In (mode, p) [("train", "train"); ("valid", "IWSLT16.TED.tst2013");
                ("test", "IWSLT16.TED.tst2014")] ->
  let dir := join (ROOT_BPE_DIR cfg) ["iwslt"; pair_dir s t] in
  init f s t mode =
  (src_vocab <- Vocab_init f s ;;
   tgt_vocab <- Vocab_init f t ;;
   src_file <- open_text P f (join dir [p +++ "." +++ pair_dir s t +++ s]) ;;
   tgt_file <- open_text P f (join dir [p +++ "." +++ pair_dir s t +++ t]) ;;
   src_contents <- text_readlines src_file ;;
   tgt_contents <- text_readlines tgt_file ;;
   if negb (List.length src_contents =? List.length tgt_contents)%nat then
     Raise (AssertionError "Not paired dataset, something is wrong")
   else
     Ok (mkDataset s t mode src_vocab tgt_vocab dir
                   src_contents tgt_contents))%result.
Proof.
  intros Hs Ht Hin dir.
  destruct (mode_prefix_lookup mode p Hin) as [Hm Hp].
  rewrite (init_valid_mode f s t mode Hm). fold dir.
  destruct (Vocab_init f s) as [sv|e]; [|reflexivity]. cbn [rbind].
  destruct (Vocab_init f t) as [tv|e]; [|reflexivity]. cbn [rbind].
  rewrite (get_txt_files f s t dir mode p Hs Ht Hp).
  destruct (open_text P f (join dir [p +++ "." +++ pair_dir s t +++ s]))
    as [a|e]; [|reflexivity]. cbn [rbind].
  destruct (open_text P f (join dir [p +++ "." +++ pair_dir s t +++ t]))
    as [b|e]; [|reflexivity]. cbn [rbind].
  destruct (text_readlines a) as [la|e]; [|reflexivity]. cbn [rbind].
  destruct (text_readlines b) as [lb|e]; reflexivity.
Qed.


Lemma readlines_open_text (f : FS P) (p : string) (ls : list string) :
  readlines P f p = Some ls -> open_text P f p = Ok (Lines ls).
Proof.
  unfold open_text, readlines.
  destruct (open_r P p f) as [[lines|e]|]; intros H; try discriminate.
  now inversion H.
Qed.

(** Opening and reading never raise an assertion error. *)
Lemma open_text_error (f : FS P) (p : string) (e : exn) :
  open_text P f p = Raise e -> e = OSError p.
Proof.
  unfold open_text. destruct (open_r P p f); intros H; now inversion H.
Qed.

Lemma text_readlines_error (file : text_file) (e : exn) :
  text_readlines file = Raise e -> forall msg, e <> AssertionError msg.
Proof.
  destruct file as [lines|[m|what]]; cbn; intros H msg; inversion H;
    discriminate.
Qed.


(** With a root that is a directory name (not empty, no slash at its end)
    and a pair name that does not start with a slash, the joined path is the
    concatenation that the layout shows. *)
Lemma endswith_sep_iwslt (root : string) :
  endswith_sep (root +++ "/iwslt") = false.
Proof.
  induction root as [|c r IH]; [reflexivity|].
  destruct r as [|c' r]; [reflexivity|]. exact IH.
Qed.

Lemma corpus_dir_literal (root pair : string) :
  root <> "" -> endswith_sep root = false -> startswith_sep pair = false ->
  join root ["iwslt"; pair] = root +++ "/iwslt/" +++ pair.
Proof.
  intros Hr He Hp. unfold join. cbn [fold_left].
  assert (E0 : (root =? "") = false) by now apply String.eqb_neq.
  assert (E1 : ((root +++ "/iwslt") =? "") = false).
  { apply String.eqb_neq. destruct root; [contradiction|discriminate]. }
  assert (J : join2 root "iwslt" = root +++ "/iwslt").
  { unfold join2. cbn [startswith_sep Ascii.eqb Bool.eqb].
    rewrite E0, He. reflexivity. }
  rewrite J. unfold join2.
  rewrite Hp, E1, endswith_sep_iwslt. cbn [orb].
  rewrite !append_assoc. reflexivity.
Qed.

End Dataset.

Section DatasetClaims.

Variable cfg : Settings.
Variable P : Platform.
Variable Vocab_init : FS P -> string -> result Vocab.

Local Abbreviation init := (IWSLTDataset_init cfg P Vocab_init).

Lemma mode_prefix_unique (mode p q : string) :
  In (mode, p) [("train", "train"); ("valid", "IWSLT16.TED.tst2013");
                ("test", "IWSLT16.TED.tst2014")] ->
  In (mode, q) [("train", "train"); ("valid", "IWSLT16.TED.tst2013");
                ("test", "IWSLT16.TED.tst2014")] ->
  p = q.
Proof.
  intros Hp Hq.
  destruct (mode_prefix_lookup mode p Hp) as [_ Ep].
  destruct (mode_prefix_lookup mode q Hq) as [_ Eq].
  rewrite Ep in Eq. now inversion Eq.
Qed.

(** When one of the two files cannot be opened or cannot be read, what opens
    and reads them raises, and not an assertion error. *)
Lemma read_pair_fails {A : Type} (f : FS P) (a b : string)
    (k : list string -> list string -> result A) :
  readlines P f a = None \/ readlines P f b = None ->
  exists e,
    (src_file <- open_text P f a ;;
     tgt_file <- open_text P f b ;;
     src_contents <- text_readlines src_file ;;
     tgt_contents <- text_readlines tgt_file ;;
     k src_contents tgt_contents)%result = Raise e
    /\ forall msg, e <> AssertionError msg.
Proof.
  unfold open_text, readlines.
  destruct (open_r P a f) as [[la|[ma|wa]]|];
    destruct (open_r P b f) as [[lb|[mb|wb]]|]; cbn;
    intros [H|H]; try discriminate;
    (eexists; split; [reflexivity | intros msg; discriminate]).
Qed.

(** C3.  Let the language codes be plain text and let the two vocabularies
    load.  Then constructing the data set raises an assertion error exactly
    when the mode is none of train, test, valid, or the mode is one of them and
    the two text files of the split can be read and have different numbers of
    lines.  Whenever the constructor returns, the two files have the same
    number of lines and [len] of the data set is that number. *)
Theorem init_assertion_iff (f : FS P) (src_lang tgt_lang mode : string)
    (sv tv : Vocab) :
  brace_free src_lang = true -> brace_free tgt_lang = true ->
  Vocab_init f src_lang = Ok sv -> Vocab_init f tgt_lang = Ok tv ->
  let iso_pair := drop_first src_lang +++ "-" +++ drop_first tgt_lang in
  let dir := join (ROOT_BPE_DIR cfg) ["iwslt"; iso_pair] in
  let src_txt p := join dir [p +++ "." +++ iso_pair +++ src_lang] in
  let tgt_txt p := join dir [p +++ "." +++ iso_pair +++ tgt_lang] in
  ((exists msg, init f src_lang tgt_lang mode = Raise (AssertionError msg))
   <->
   (~ In mode ["train"; "test"; "valid"]
    \/ exists p ls lt,
         In (mode, p) [("train", "train"); ("valid", "IWSLT16.TED.tst2013");
                       ("test", "IWSLT16.TED.tst2014")]
         /\ readlines P f (src_txt p) = Some ls
         /\ readlines P f (tgt_txt p) = Some lt
         /\ List.length ls <> List.length lt))
  /\
  (forall ds, init f src_lang tgt_lang mode = Ok ds ->
     exists p ls lt,
       In (mode, p) [("train", "train"); ("valid", "IWSLT16.TED.tst2013");
                     ("test", "IWSLT16.TED.tst2014")]
       /\ readlines P f (src_txt p) = Some ls
       /\ readlines P f (tgt_txt p) = Some lt
       /\ List.length ls = List.length lt
       /\ IWSLTDataset_len ds = Z.of_nat (List.length ls)).
Proof.
  intros Hs Ht Hsv Htv iso_pair dir src_txt tgt_txt.
  destruct (str_in mode ["train"; "test"; "valid"]) eqn:Hm.
  - destruct (valid_mode_prefix mode Hm) as [p Hin].
    pose proof (init_reads cfg P Vocab_init f src_lang tgt_lang mode p
                           Hs Ht Hin) as E.
    cbv zeta in E. rewrite Hsv, Htv in E. cbn [rbind] in E.
    unfold pair_dir in E. fold iso_pair in E. fold dir in E.
    fold (src_txt p) (tgt_txt p) in E.
    destruct (readlines P f (src_txt p)) as [a|] eqn:Ea.
    2:{ destruct (read_pair_fails f (src_txt p) (tgt_txt p)
                   (fun x y =>
                      if negb (List.length x =? List.length y)%nat
                      then Raise (AssertionError
                                    "Not paired dataset, something is wrong")
                      else Ok (mkDataset src_lang tgt_lang mode sv tv dir x y))
                   (or_introl Ea)) as [e [He Hne]].
        rewrite He in E. split.
        - split.
          + intros [msg H]. rewrite E in H. inversion H. now apply Hne in H1.
          + intros [Hno|(q & ls & lt & Hq & Hls & _)].
            * exfalso. apply Hno. now apply str_in_In.
            * rewrite (mode_prefix_unique mode q p Hq Hin) in Hls.
              rewrite Ea in Hls. discriminate.
        - intros ds H. rewrite E in H. discriminate. }
    destruct (readlines P f (tgt_txt p)) as [b|] eqn:Eb.
    2:{ destruct (read_pair_fails f (src_txt p) (tgt_txt p)
                   (fun x y =>
                      if negb (List.length x =? List.length y)%nat
                      then Raise (AssertionError
                                    "Not paired dataset, something is wrong")
                      else Ok (mkDataset src_lang tgt_lang mode sv tv dir x y))
                   (or_intror Eb)) as [e [He Hne]].
        rewrite He in E. split.
        - split.
          + intros [msg H]. rewrite E in H. inversion H. now apply Hne in H1.
          + intros [Hno|(q & ls & lt & Hq & _ & Hlt & _)].
            * exfalso. apply Hno. now apply str_in_In.
            * rewrite (mode_prefix_unique mode q p Hq Hin) in Hlt.
              rewrite Eb in Hlt. discriminate.
        - intros ds H. rewrite E in H. discriminate. }
    rewrite (readlines_open_text P f (src_txt p) a Ea) in E.
    rewrite (readlines_open_text P f (tgt_txt p) b Eb) in E.
    cbn [rbind text_readlines] in E.
    destruct (List.length a =? List.length b)%nat eqn:El; cbn [negb] in E.
    + apply Nat.eqb_eq in El. split.
      * split.
        -- intros [msg H]. rewrite E in H. discriminate.
        -- intros [Hno|(q & ls & lt & Hq & Hls & Hlt & Hne)].
           ++ exfalso. apply Hno. now apply str_in_In.
           ++ rewrite (mode_prefix_unique mode q p Hq Hin) in Hls, Hlt.
              rewrite Ea in Hls. rewrite Eb in Hlt.
              inversion Hls; inversion Hlt; subst. contradiction.
      * intros ds H. rewrite E in H. inversion H; subst.
        exists p, a, b. repeat split; assumption.
    + apply Nat.eqb_neq in El. split.
      * split.
        -- intros _. right. exists p, a, b. repeat split; assumption.
        -- intros _. eexists. exact E.
      * intros ds H. rewrite E in H. discriminate.
  - pose proof (init_invalid_mode cfg P Vocab_init f src_lang tgt_lang mode Hm)
      as E.
    split.
    + split.
      * intros _. left. intros Hin. apply str_in_In in Hin.
        rewrite Hin in Hm. discriminate.
      * intros _. eexists. exact E.
    + intros ds H. rewrite E in H. discriminate.
Qed.

(** C4.  On a data set that the constructor returned, an index [i] with
    [0 <= i < len] gives the example whose [src] and [tgt] are the tokens of
    line [i] of the source and of the target text (the trailing line feed
    removed, then split on white space) and whose two lengths are the
    integer 0. *)
Theorem getitem_valid_index (f : FS P) (src_lang tgt_lang mode : string)
    (ds : IWSLTDataset) (i : Z) :
  init f src_lang tgt_lang mode = Ok ds ->
  (0 <= i < IWSLTDataset_len ds)%Z ->
  IWSLTDataset_getitem ds i =
  Ok (mkExample
        (PTokens (split (rstrip_nl (nth (Z.to_nat i) (src_text ds) ""))))
        (PTokens (split (rstrip_nl (nth (Z.to_nat i) (tgt_text ds) ""))))
        (PInt 0) (PInt 0)).
Proof.
  intros Hinit Hi.
  pose proof (init_paired cfg P Vocab_init f src_lang tgt_lang mode ds Hinit)
    as Hlen.
  unfold IWSLTDataset_len in Hi.
  assert (Hidx : forall l : list string,
             (0 <= i < Z.of_nat (List.length l))%Z ->
             py_index l i = Ok (nth (Z.to_nat i) l "")).
  { intros l Hl. unfold py_index.
    destruct (i <? 0)%Z eqn:Eneg; [apply Z.ltb_lt in Eneg; lia|].
    assert (Hb : ((0 <=? i) && (i <? Z.of_nat (List.length l)))%Z = true).
    { apply andb_true_intro. split; [apply Z.leb_le | apply Z.ltb_lt]; lia. }
    rewrite Hb.
    rewrite (nth_error_nth' l "") by lia. reflexivity. }
  unfold IWSLTDataset_getitem.
  rewrite (Hidx (src_text ds) Hi). cbn [rbind].
  rewrite (Hidx (tgt_text ds)) by (rewrite <- Hlen; exact Hi).
  reflexivity.
Qed.

(** X15.  A negative index counts from the end, as in any Python list. *)
Lemma getitem_negative_index (f : FS P) (src_lang tgt_lang mode : string)
    (ds : IWSLTDataset) (i : Z) :
  init f src_lang tgt_lang mode = Ok ds ->
  (- IWSLTDataset_len ds <= i < 0)%Z ->
  IWSLTDataset_getitem ds i =
  IWSLTDataset_getitem ds (i + IWSLTDataset_len ds).
Proof.
  intros Hinit Hi.
  pose proof (init_paired cfg P Vocab_init f src_lang tgt_lang mode ds Hinit)
    as Hlen.
  unfold IWSLTDataset_len in *.
  assert (Hidx : forall l : list string,
             List.length l = List.length (src_text ds) ->
             py_index l i = py_index l (i + Z.of_nat (List.length (src_text ds)))).
  { intros l Hl. unfold py_index. rewrite Hl.
    destruct (i <? 0)%Z eqn:Eneg; [|apply Z.ltb_ge in Eneg; lia].
    destruct (i + Z.of_nat (List.length (src_text ds)) <? 0)%Z eqn:E2;
      [apply Z.ltb_lt in E2; lia|].
    assert (Hb : ((0 <=? i + Z.of_nat (List.length (src_text ds)))
                  && (i + Z.of_nat (List.length (src_text ds))
                      <? Z.of_nat (List.length (src_text ds))))%Z = true).
    { apply andb_true_intro. split; [apply Z.leb_le | apply Z.ltb_lt]; lia. }
    rewrite Hb. reflexivity. }
  unfold IWSLTDataset_getitem.
  rewrite (Hidx (src_text ds) eq_refl), (Hidx (tgt_text ds) (eq_sym Hlen)).
  reflexivity.
Qed.

(** X16.  Outside [-len, len) the index is refused with an index error and
    no example is returned: the error of the list, [list index out of range],
    for an int that fits into an index-sized integer (from [-2^63] to
    [2^63 - 1]), and the error of the conversion for an int that does not. *)
Lemma getitem_out_of_range (ds : IWSLTDataset) (i : Z) :
  (i < - IWSLTDataset_len ds \/ IWSLTDataset_len ds <= i)%Z ->
  ((- 2 ^ 63 <= i < 2 ^ 63)%Z ->
   IWSLTDataset_getitem ds i = Raise (IndexError "list index out of range"))
  /\ ((i < - 2 ^ 63 \/ 2 ^ 63 <= i)%Z ->
      IWSLTDataset_getitem ds i
      = Raise (IndexError "cannot fit 'int' into an index-sized integer")).
Proof.
  intros Hi. unfold IWSLTDataset_len in Hi.
  assert (E : IWSLTDataset_getitem ds i
              = if index_sized i
                then Raise (IndexError "list index out of range")
                else Raise (IndexError
                              "cannot fit 'int' into an index-sized integer")).
  { unfold IWSLTDataset_getitem, py_index.
    destruct (i <? 0)%Z eqn:Eneg.
    - apply Z.ltb_lt in Eneg.
      destruct Hi as [Hi|Hi]; [|lia].
      assert (Hb : (0 <=? i + Z.of_nat (List.length (src_text ds)))%Z = false)
        by (apply Z.leb_gt; lia).
      rewrite Hb. cbn [andb]. destruct (index_sized i); reflexivity.
    - apply Z.ltb_ge in Eneg.
      destruct Hi as [Hi|Hi]; [lia|].
      assert (Hb : (i <? Z.of_nat (List.length (src_text ds)))%Z = false)
        by (apply Z.ltb_ge; lia).
      rewrite Hb, andb_false_r. destruct (index_sized i); reflexivity. }
  rewrite E. unfold index_sized, PY_SSIZE_T_MAX. split; intros Hr.
  - assert (Hb : ((- (2 ^ 63 - 1) - 1 <=? i) && (i <=? 2 ^ 63 - 1))%Z = true).
    { apply andb_true_intro. split; apply Z.leb_le; lia. }
    now rewrite Hb.
  - assert (Hb : ((- (2 ^ 63 - 1) - 1 <=? i) && (i <=? 2 ^ 63 - 1))%Z = false).
    { apply andb_false_iff. destruct Hr as [Hr|Hr];
        [left | right]; apply Z.leb_gt; lia. }
    now rewrite Hb.
Qed.

End DatasetClaims.


Lemma init_assertion_iff_witness :
  exists msg,
    IWSLTDataset_init example_cfg example_platform example_Vocab_init
                      example_corpus ".fr" ".en" "dev"
    = Raise (AssertionError msg).
Proof.
  apply (proj1 (init_assertion_iff
                  example_cfg example_platform example_Vocab_init
                  example_corpus ".fr" ".en" "dev"
                  (example_vocab ".fr") (example_vocab ".en")
                  eq_refl eq_refl eq_refl eq_refl)).
  left. cbn. intuition discriminate.
Defined.

Lemma getitem_valid_index_witness :
  IWSLTDataset_init example_cfg example_platform example_Vocab_init
                    example_corpus ".fr" ".en" "train" = Ok example_dataset
  /\ IWSLTDataset_getitem example_dataset 1 =
     Ok (mkExample (PTokens ["chat"]) (PTokens ["cat"]) (PInt 0) (PInt 0)).
Proof.
  split; [reflexivity|].
  apply (getitem_valid_index example_cfg example_platform example_Vocab_init
           example_corpus ".fr" ".en" "train" example_dataset 1).
  - reflexivity.
  - cbn. lia.
Defined.

(** ** More on the data set *)

Section DatasetMore.

Variable cfg : Settings.
Variable P : Platform.
Variable Vocab_init : FS P -> string -> result Vocab.

(** X17.  Called with a mode that is not a key of [prefix], [get_txt] raises a
    key error for that mode before it opens any file. *)
Theorem get_txt_unknown_mode (f : FS P) (s t dir mode : string) :
  ~ In mode ["train"; "valid"; "test"] ->
  get_txt P f s t dir mode = Raise (KeyError mode).
Proof.
  intros H. unfold get_txt.
  assert (E : dict_get prefix mode = Raise (KeyError mode)).
  { rewrite prefix_entries. cbn [dict_get].
    destruct ("train" =? mode) eqn:E1;
      [apply String.eqb_eq in E1; subst; exfalso; apply H; now left|].
    destruct ("valid" =? mode) eqn:E2;
      [apply String.eqb_eq in E2; subst; exfalso; apply H; right; now left|].
    destruct ("test" =? mode) eqn:E3;
      [apply String.eqb_eq in E3; subst; exfalso; apply H; right; right;
       now left|].
    reflexivity. }
  rewrite E. reflexivity.
Qed.

(** X18.  With an accepted mode and both vocabularies loaded, the
    constructor opens the source file, then the target file, and only then
    reads them.  A source file that cannot be opened makes it raise the error
    of the file system for that very path (not an assertion error), whatever
    the target file is.  When the source opens and the target cannot be opened,
    it raises the error of the file system for the target path, even if the
    source could not have been read.  When both open and reading the source
    raises, it raises that exception, whatever the target holds. *)
Theorem init_unreadable_source (f : FS P) (src_lang tgt_lang mode p : string)
    (sv tv : Vocab) :
  brace_free src_lang = true -> brace_free tgt_lang = true ->
  In (mode, p) [("train", "train"); ("valid", "IWSLT16.TED.tst2013");
                ("test", "IWSLT16.TED.tst2014")] ->
  Vocab_init f src_lang = Ok sv -> Vocab_init f tgt_lang = Ok tv ->
  let dir := join (ROOT_BPE_DIR cfg) ["iwslt"; pair_dir src_lang tgt_lang] in
  let src_txt :=
    join dir [p +++ "." +++ pair_dir src_lang tgt_lang +++ src_lang] in
  let tgt_txt :=
    join dir [p +++ "." +++ pair_dir src_lang tgt_lang +++ tgt_lang] in
  let init := IWSLTDataset_init cfg P Vocab_init f src_lang tgt_lang mode in
  (open_r P src_txt f = None -> init = Raise (OSError src_txt))
  /\ (forall src_file,
        open_r P src_txt f = Some src_file -> open_r P tgt_txt f = None ->
        init = Raise (OSError tgt_txt))
  /\ (forall msg tgt_file,
        open_r P src_txt f = Some (Broken (Undecodable msg)) ->
        open_r P tgt_txt f = Some tgt_file ->
        init = Raise (UnicodeDecodeError msg))
  /\ (forall what tgt_file,
        open_r P src_txt f = Some (Broken (Unreadable what)) ->
        open_r P tgt_txt f = Some tgt_file ->
        init = Raise (OSError what)).
Proof.
  intros Hs Ht Hin Hsv Htv dir src_txt tgt_txt init.
  assert (E : init
              = (src_file <- open_text P f src_txt ;;
                 tgt_file <- open_text P f tgt_txt ;;
                 src_contents <- text_readlines src_file ;;
                 tgt_contents <- text_readlines tgt_file ;;
                 if negb (List.length src_contents
                          =? List.length tgt_contents)%nat
                 then Raise (AssertionError
                               "Not paired dataset, something is wrong")
                 else Ok (mkDataset src_lang tgt_lang mode sv tv dir
                                    src_contents tgt_contents))%result).
  { unfold init.
    rewrite (init_reads cfg P Vocab_init f src_lang tgt_lang mode p Hs Ht Hin).
    cbv zeta. rewrite Hsv, Htv. reflexivity. }
  rewrite E. unfold open_text.
  split; [|split; [|split]].
  - intros Ha. rewrite Ha. reflexivity.
  - intros src_file Ha Hb. rewrite Ha, Hb. reflexivity.
  - intros msg tgt_file Ha Hb. rewrite Ha, Hb. reflexivity.
  - intros what tgt_file Ha Hb. rewrite Ha, Hb. reflexivity.
Qed.

(** X19.  An example that [__getitem__] returns holds two lists of tokens, none
    of them empty and none with white space in it, and the two zeros. *)
Theorem getitem_tokens (ds : IWSLTDataset) (i : Z) (e : IWSLTExample) :
  IWSLTDataset_getitem ds i = Ok e ->
  exists s t, e = pre_batching s t /\ Forall token s /\ Forall token t.
Proof.
  unfold IWSLTDataset_getitem. intros H.
  destruct (py_index (src_text ds) i) as [a|]; cbn [rbind] in H;
    [|discriminate].
  destruct (py_index (tgt_text ds) i) as [b|]; cbn [rbind] in H;
    [|discriminate].
  inversion H; subst.
  exists (split (rstrip_nl a)), (split (rstrip_nl b)).
  repeat split; apply split_tokens.
Qed.

(** X20.  A source line of white space only (an empty line with its line feed,
    say) gives an example whose [src] is the empty list. *)
Theorem getitem_blank_line (ds : IWSLTDataset) (i : Z) (line : string)
    (e : IWSLTExample) :
  py_index (src_text ds) i = Ok line -> space_only line = true ->
  IWSLTDataset_getitem ds i = Ok e -> src e = PTokens [].
Proof.
  intros Hline Hws. unfold IWSLTDataset_getitem. rewrite Hline.
  cbn [rbind]. intros H.
  destruct (py_index (tgt_text ds) i) as [b|]; cbn [rbind] in H;
    [|discriminate].
  inversion H; subst. cbn [src].
  now rewrite split_rstrip_nl, (split_space_only line Hws).
Qed.

(** X21.  The two files that the data set reads for a mode are output files of
    the BPE commands of [apply_bpe_iwslt] for the same language pair: the names
    that the preprocessing writes are the names that the data set looks for. *)
Theorem dataset_reads_bpe_outputs (f : FS P) (s t mode p : string) :
  brace_free s = true -> brace_free t = true ->
  In (mode, p) [("train", "train"); ("valid", "IWSLT16.TED.tst2013");
                ("test", "IWSLT16.TED.tst2014")] ->
  exists a b,
    In a (apply_bpe_iwslt_commands cfg s t)
    /\ In b (apply_bpe_iwslt_commands cfg s t)
    /\ get_txt P f s t (join (ROOT_BPE_DIR cfg) ["iwslt"; pair_dir s t]) mode
       = (src_file <- open_text P f (output_of a) ;;
          tgt_file <- open_text P f (output_of b) ;;
          src_contents <- text_readlines src_file ;;
          tgt_contents <- text_readlines tgt_file ;;
          Ok (src_contents, tgt_contents))%result.
Proof.
  intros Hs Ht Hin.
  destruct (mode_prefix_lookup mode p Hin) as [_ Hp].
  rewrite (get_txt_files P f s t _ mode p Hs Ht Hp).
  unfold pair_dir at 2 4. rewrite !append_assoc.
  unfold apply_bpe_iwslt_commands. cbn [flat_map map app].
  destruct Hin as [E|[E|[E|[]]]]; inversion E; subst; clear E;
    eexists; eexists; (split; [|split]).
  - left. reflexivity.
  - right. left. reflexivity.
  - unfold output_of, apply_bpe_command, iwslt_file. cbn [nth]. reflexivity.
  - do 2 right. left. reflexivity.
  - do 3 right. left. reflexivity.
  - unfold output_of, apply_bpe_command, iwslt_file. cbn [nth]. reflexivity.
  - do 4 right. left. reflexivity.
  - do 5 right. left. reflexivity.
  - unfold output_of, apply_bpe_command, iwslt_file. cbn [nth]. reflexivity.
Qed.

End DatasetMore.

Lemma get_txt_unknown_mode_witness :
  get_txt example_platform example_corpus ".fr" ".en"
          "/data/bpe/iwslt/fr-en" "dev"
  = Raise (KeyError "dev").
Proof.
  apply (get_txt_unknown_mode example_platform example_corpus).
  cbn. intuition discriminate.
Defined.

Lemma init_unreadable_source_witness :
  IWSLTDataset_init example_cfg example_platform example_Vocab_init
                    example_corpus ".fr" ".en" "valid"
  = Raise (OSError "/data/bpe/iwslt/fr-en/IWSLT16.TED.tst2013.fr-en.fr")
  /\ IWSLTDataset_init example_cfg garbled_platform example_Vocab_init
        [("/data/bpe/iwslt/fr-en/train.fr-en.fr", Some ["le chat" +++ NL])]
        ".fr" ".en" "train"
     = Raise (OSError "/data/bpe/iwslt/fr-en/train.fr-en.en").
Proof.
  split.
  - apply (proj1 (init_unreadable_source example_cfg example_platform
                    example_Vocab_init example_corpus ".fr" ".en" "valid"
                    "IWSLT16.TED.tst2013"
                    (example_vocab ".fr") (example_vocab ".en")
                    eq_refl eq_refl (or_intror (or_introl eq_refl))
                    eq_refl eq_refl)).
    reflexivity.
  - apply (proj1 (proj2 (init_unreadable_source example_cfg garbled_platform
                    example_Vocab_init
                    [("/data/bpe/iwslt/fr-en/train.fr-en.fr",
                      Some ["le chat" +++ NL])]
                    ".fr" ".en" "train" "train"
                    (example_vocab ".fr") (example_vocab ".en")
                    eq_refl eq_refl (or_introl eq_refl) eq_refl eq_refl))
                 (Broken (Undecodable "'utf-8' codec can't decode byte 0xff"))).
    + reflexivity.
    + reflexivity.
Defined.

Lemma getitem_tokens_witness :
  exists s t,
    mkExample (PTokens ["le"; "chat"]) (PTokens ["the"; "cat"])
              (PInt 0) (PInt 0)
    = pre_batching s t /\ Forall token s /\ Forall token t.
Proof.
  apply (getitem_tokens example_dataset 0). reflexivity.
Defined.

Lemma getitem_blank_line_witness :
  src (mkExample (PTokens []) (PTokens ["cat"]) (PInt 0) (PInt 0))
  = PTokens [].
Proof.
  apply (getitem_blank_line
           (mkDataset ".fr" ".en" "train" (example_vocab ".fr")
                      (example_vocab ".en") "/data/bpe/iwslt/fr-en"
                      [" " +++ NL] ["cat" +++ NL])
           0 (" " +++ NL)); reflexivity.
Defined.

Lemma dataset_reads_bpe_outputs_witness :
  exists a b,
    In a (apply_bpe_iwslt_commands example_cfg ".fr" ".en")
    /\ In b (apply_bpe_iwslt_commands example_cfg ".fr" ".en")
    /\ get_txt example_platform example_corpus ".fr" ".en"
               "/data/bpe/iwslt/fr-en" "train"
       = (src_file <- open_text example_platform example_corpus
                                (output_of a) ;;
          tgt_file <- open_text example_platform example_corpus
                                (output_of b) ;;
          src_contents <- text_readlines src_file ;;
          tgt_contents <- text_readlines tgt_file ;;
          Ok (src_contents, tgt_contents))%result.
Proof.
  apply (dataset_reads_bpe_outputs example_cfg example_platform
           example_corpus ".fr" ".en" "train" "train"); try reflexivity.
  left. reflexivity.
Defined.

Lemma getitem_negative_index_witness :
  IWSLTDataset_getitem example_dataset (-1)
  = Ok (mkExample (PTokens ["chat"]) (PTokens ["cat"]) (PInt 0) (PInt 0)).
Proof.
  refine (eq_trans
            (getitem_negative_index example_cfg example_platform
               example_Vocab_init example_corpus ".fr" ".en" "train"
               example_dataset (-1) _ _) _).
  - reflexivity.
  - cbn. lia.
  - reflexivity.
Defined.

Lemma getitem_out_of_range_witness :
  IWSLTDataset_getitem example_dataset 2
  = Raise (IndexError "list index out of range")
  /\ IWSLTDataset_getitem example_dataset (2 ^ 63)
     = Raise (IndexError "cannot fit 'int' into an index-sized integer").
Proof.
  split.
  - apply (getitem_out_of_range example_dataset 2).
    + right. vm_compute. discriminate.
    + lia.
  - apply (getitem_out_of_range example_dataset (2 ^ 63)).
    + right. vm_compute. discriminate.
    + lia.
Defined.

(** ** Padding *)

Lemma list_max_bound (l : list nat) : Forall (fun k => k <= list_max l) l.
Proof. now apply list_max_le. Qed.

(** Every row that [pad_to_same_length] returns has the length of the
    longest wrapped sentence. *)
Lemma pad_rows_length (sentences : list (list string)) (pad_token : string)
    (init_token end_token : option string) :
  Forall (fun r => List.length r =
                   list_max (map (@List.length string)
                      (map (fun s => opt_token init_token ++ s
                                     ++ opt_token end_token) sentences)))
         (fst (pad_to_same_length sentences pad_token init_token end_token)).
Proof.
  unfold pad_to_same_length. cbn [fst].
  set (wrapped := map _ sentences).
  pose proof (list_max_bound (map (@List.length string) wrapped)) as Hb.
  rewrite Forall_map in Hb. rewrite Forall_map.
  eapply Forall_impl; [|exact Hb]. cbn beta. intros s Hs.
  rewrite length_app, repeat_length. lia.
Qed.

(** Wrapping adds the same number of tokens to every sentence, hence to the
    longest one. *)
Lemma list_max_wrapped (sentences : list (list string)) (i e : list string) :
  sentences <> [] ->
  list_max (map (@List.length string)
                (map (fun s => i ++ s ++ e) sentences))
  = list_max (map (@List.length string) sentences)
    + List.length i + List.length e.
Proof.
  induction sentences as [|a l IH]; [congruence|]. intros _.
  destruct l as [|b l].
  - cbn. rewrite !length_app. lia.
  - change (list_max (map (@List.length string)
                          (map (fun s => i ++ s ++ e) (a :: b :: l))))
      with (Nat.max (List.length (i ++ a ++ e))
              (list_max (map (@List.length string)
                             (map (fun s => i ++ s ++ e) (b :: l))))).
    rewrite IH by discriminate.
    change (list_max (map (@List.length string) (a :: b :: l)))
      with (Nat.max (List.length a)
                    (list_max (map (@List.length string) (b :: l)))).
    rewrite !length_app. lia.
Qed.

Lemma pad_not_empty (sentences : list (list string)) (pad_token : string)
    (init_token end_token : option string) :
  sentences <> [] ->
  fst (pad_to_same_length sentences pad_token init_token end_token) <> [].
Proof.
  destruct sentences; [congruence|]. intros _. discriminate.
Qed.

(** The lengths that are returned are those of the wrapped sentences. *)
Lemma pad_lengths (sentences : list (list string)) (pad_token : string)
    (init_token end_token : option string) :
  snd (pad_to_same_length sentences pad_token init_token end_token)
  = map (fun s => Z.of_nat (List.length s
                            + List.length (opt_token init_token)
                            + List.length (opt_token end_token))) sentences.
Proof.
  unfold pad_to_same_length. cbn [snd]. rewrite map_map.
  apply map_ext. intros s. rewrite !length_app. f_equal. lia.
Qed.

(** ** Tensors from lists *)

Lemma rectangular_Forall {A : Type} (r : list A) (m : list (list A)) (w : nat) :
  Forall (fun r' => List.length r' = w) (r :: m) -> rectangular (r :: m) = true.
Proof.
  intros H. inversion H as [|? ? Hr Hm]; subst. cbn.
  apply forallb_forall. intros r' Hin.
  rewrite Forall_forall in Hm. rewrite (Hm r' Hin). apply Nat.eqb_refl.
Qed.

Lemma torch_tensor2_rows (m : list (list Z)) (w : nat) :
  m <> [] -> Forall (fun r => List.length r = w) m ->
  torch_tensor2 m = Ok (mkTensor int64 "cpu" (Mat (mkT2 m w))).
Proof.
  intros Hne H. destruct m as [|r m]; [congruence|].
  unfold torch_tensor2. rewrite (rectangular_Forall r m w H).
  inversion H; subst. reflexivity.
Qed.

Lemma numerize_rows (v : Vocab) (batch : list (list string)) (w : nat) :
  Forall (fun r => List.length r = w) batch ->
  Forall (fun r => List.length r = w) (numerize v batch).
Proof.
  intros H. unfold numerize. rewrite Forall_map.
  eapply Forall_impl; [|exact H]. cbn beta. intros r Hr.
  now rewrite length_map.
Qed.

Lemma wrap32_small (z : Z) :
  (- 2 ^ 31 <= z < 2 ^ 31)%Z -> wrap32 z = z.
Proof.
  intros H. unfold wrap32. rewrite Z.mod_small; lia.
Qed.

(** ** IWSLTDataloader.collate_fn *)

Section Collate.

Variable cfg : Settings.

Lemma sentences_of_src (batch : list IWSLTExample) :
  Forall token_fields batch ->
  rmap (fun example => sentence_of (src example)) batch
  = Ok (map (fun e => field_tokens (src e)) batch).
Proof.
  induction 1 as [|e l [[s Hs] _] _ IH]; [reflexivity|].
  cbn [rmap map]. rewrite Hs. cbn. rewrite IH. reflexivity.
Qed.

Lemma sentences_of_tgt (batch : list IWSLTExample) :
  Forall token_fields batch ->
  rmap (fun example => sentence_of (tgt example)) batch
  = Ok (map (fun e => field_tokens (tgt e)) batch).
Proof.
  induction 1 as [|e l [_ [t Ht]] _ IH]; [reflexivity|].
  cbn [rmap map]. rewrite Ht. cbn. rewrite IH. reflexivity.
Qed.

(** C5.  For a batch that is not empty and whose examples hold sentences
    (lists of tokens), [collate_fn] returns one example.  Its [src] is the
    int64 tensor of the source sentences padded with EOS_WORD as pad token and
    as end token and with no init token, numbered by the loader's source
    vocabulary; its width is the longest source sentence plus one.  Its [tgt]
    is the int64 tensor of the target sentences padded with BOS_WORD as init
    token and EOS_WORD as end and pad token, numbered by the target
    vocabulary; its width is the longest target sentence plus two.  Its two
    length fields are the int32 tensors of the two lists of lengths. *)
Theorem collate_fn_batch (self : IWSLTDataloader) (batch : list IWSLTExample) :
  batch <> [] ->
  Forall token_fields batch ->
  let srcs := map (fun e => field_tokens (src e)) batch in
  let tgts := map (fun e => field_tokens (tgt e)) batch in
  let src_pad :=
    pad_to_same_length srcs (EOS_WORD cfg) None (Some (EOS_WORD cfg)) in
  let tgt_pad :=
    pad_to_same_length tgts (EOS_WORD cfg) (Some (BOS_WORD cfg))
                       (Some (EOS_WORD cfg)) in
  collate_fn cfg self batch =
  Ok (mkExample
        (PTensor (mkTensor int64 "cpu"
           (Mat (mkT2 (numerize (dl_src_vocab self) (fst src_pad))
                      (list_max (map (@List.length string) srcs) + 1)))))
        (PTensor (mkTensor int64 "cpu"
           (Mat (mkT2 (numerize (dl_tgt_vocab self) (fst tgt_pad))
                      (list_max (map (@List.length string) tgts) + 2)))))
        (PTensor (mkTensor int32 "cpu" (Vec (map wrap32 (snd src_pad)))))
        (PTensor (mkTensor int32 "cpu" (Vec (map wrap32 (snd tgt_pad)))))).
Proof.
  intros Hne Hfields srcs tgts src_pad tgt_pad.
  assert (Hsrcs : srcs <> []) by (destruct batch; [congruence|discriminate]).
  assert (Htgts : tgts <> []) by (destruct batch; [congruence|discriminate]).
  unfold collate_fn.
  rewrite (sentences_of_src batch Hfields). cbn [rbind]. fold srcs.
  rewrite (surjective_pairing
             (pad_to_same_length srcs (EOS_WORD cfg) None (Some (EOS_WORD cfg)))).
  fold src_pad.
  rewrite (sentences_of_tgt batch Hfields). cbn [rbind]. fold tgts.
  rewrite (surjective_pairing
             (pad_to_same_length tgts (EOS_WORD cfg) (Some (BOS_WORD cfg))
                                 (Some (EOS_WORD cfg)))).
  fold tgt_pad.
  rewrite (torch_tensor2_rows (numerize (dl_src_vocab self) (fst src_pad))
             (list_max (map (@List.length string) srcs) + 1)).
  - cbn [rbind].
    rewrite (torch_tensor2_rows (numerize (dl_tgt_vocab self) (fst tgt_pad))
               (list_max (map (@List.length string) tgts) + 2)).
    + reflexivity.
    + unfold numerize. intros E. apply map_eq_nil in E.
      now apply (pad_not_empty tgts (EOS_WORD cfg) (Some (BOS_WORD cfg))
                               (Some (EOS_WORD cfg)) Htgts).
    + apply numerize_rows.
      pose proof (pad_rows_length tgts (EOS_WORD cfg) (Some (BOS_WORD cfg))
                                  (Some (EOS_WORD cfg))) as H.
      cbn [opt_token] in H.
      rewrite (list_max_wrapped tgts [BOS_WORD cfg] [EOS_WORD cfg] Htgts) in H.
      cbn [List.length] in H.
      replace (list_max (map (@List.length string) tgts) + 2)
        with (list_max (map (@List.length string) tgts) + 1 + 1) by lia.
      exact H.
  - unfold numerize. intros E. apply map_eq_nil in E.
    now apply (pad_not_empty srcs (EOS_WORD cfg) None (Some (EOS_WORD cfg)) Hsrcs).
  - apply numerize_rows.
    pose proof (pad_rows_length srcs (EOS_WORD cfg) None
                                (Some (EOS_WORD cfg))) as H.
    cbn [opt_token] in H.
    rewrite (list_max_wrapped srcs [] [EOS_WORD cfg] Hsrcs) in H.
    cbn [List.length] in H.
    replace (list_max (map (@List.length string) srcs) + 1)
      with (list_max (map (@List.length string) srcs) + 0 + 1) by lia.
    exact H.
Qed.

(** The lengths in a collated batch: a source sentence counts its tokens
    and the end token, a target sentence its tokens and both boundary tokens;
    a length below 2^31 is kept by the cast to 32 bits. *)
Lemma collate_lengths (sentences : list (list string)) :
  snd (pad_to_same_length sentences (EOS_WORD cfg) None (Some (EOS_WORD cfg)))
  = map (fun s => Z.of_nat (List.length s + 1)) sentences
  /\ snd (pad_to_same_length sentences (EOS_WORD cfg) (Some (BOS_WORD cfg))
                             (Some (EOS_WORD cfg)))
     = map (fun s => Z.of_nat (List.length s + 2)) sentences.
Proof.
  split; rewrite pad_lengths; apply map_ext; intros s; cbn [opt_token List.length];
    f_equal; lia.
Qed.

(** Every target row of a collated batch starts with the begin token. *)
Lemma collate_tgt_rows_start (sentences : list (list string)) :
  Forall (fun r => hd_error r = Some (BOS_WORD cfg))
         (fst (pad_to_same_length sentences (EOS_WORD cfg)
                 (Some (BOS_WORD cfg)) (Some (EOS_WORD cfg)))).
Proof.
  unfold pad_to_same_length. cbn [fst]. rewrite !Forall_map.
  apply Forall_forall. intros s _. reflexivity.
Qed.

End Collate.

Lemma collate_fn_batch_witness :
  collate_fn example_cfg
    (IWSLTDataloader_init example_dataset 2 false 0 false false 0)
    [pre_batching ["le"; "chat"] ["the"; "cat"];
     pre_batching ["chat"] ["a"; "cat"; "sat"]]
  = Ok (mkExample
          (PTensor (mkTensor int64 "cpu"
                      (Mat (mkT2 [[3; 4; 1]; [4; 1; 1]]%Z 3))))
          (PTensor (mkTensor int64 "cpu"
                      (Mat (mkT2 [[0; 5; 6; 1; 1]; [0; 2; 6; 2; 1]]%Z 5))))
          (PTensor (mkTensor int32 "cpu" (Vec [3; 2]%Z)))
          (PTensor (mkTensor int32 "cpu" (Vec [4; 5]%Z)))).
Proof.
  refine (eq_trans
            (collate_fn_batch example_cfg
               (IWSLTDataloader_init example_dataset 2 false 0 false false 0)
               [pre_batching ["le"; "chat"] ["the"; "cat"];
                pre_batching ["chat"] ["a"; "cat"; "sat"]] _ _) _).
  - discriminate.
  - repeat constructor; eexists; reflexivity.
  - reflexivity.
Defined.

(** ** IWSLTExample.to *)

Section ExampleTo.

Variable kwargs : Type.
Variable Tensor_to : kwargs -> Tensor -> Tensor.

Local Abbreviation example_to := (IWSLTExample_to kwargs Tensor_to).

Lemma field_to_ok (kw : kwargs) (v v' : pyval) :
  field_to kwargs Tensor_to kw v = Ok v' ->
  exists t, v = PTensor t /\ v' = PTensor (Tensor_to kw t).
Proof.
  destruct v as [n|toks|t]; cbn; intros H; try discriminate.
  inversion H. now exists t.
Qed.

(** C10, as amended.  [to] calls [.to] on the four fields in order (src,
    tgt, src_lengths, tgt_lengths) and assigns each result back; it returns
    nothing.  On an example whose four fields are tensors all four are
    replaced, and a call that returns was made on such an example.  A list has
    no method [to], nor has an int: at the first field that is not a tensor
    the call raises the attribute error of that field, with the fields before
    it replaced and that field and those after it as they were.  So on an
    example from before batching the very first call, on the list [src],
    raises, and the example is as it was; and an example is changed by a call
    that raises only when [src] is a tensor and a later field is not. *)
Theorem example_to_behaviour (kw : kwargs) :
  (forall a b c d,
     example_to kw (mkExample (PTensor a) (PTensor b) (PTensor c) (PTensor d))
     = (Ok tt, mkExample (PTensor (Tensor_to kw a)) (PTensor (Tensor_to kw b))
                         (PTensor (Tensor_to kw c)) (PTensor (Tensor_to kw d))))
  /\ (forall e e' r,
        example_to kw e = (Ok r, e') ->
        is_tensor (src e) /\ is_tensor (tgt e)
        /\ is_tensor (src_lengths e) /\ is_tensor (tgt_lengths e))
  /\ (forall toks,
        field_to kwargs Tensor_to kw (PTokens toks)
        = Raise (AttributeError "'list' object has no attribute 'to'"))
  /\ (forall n,
        field_to kwargs Tensor_to kw (PInt n)
        = Raise (AttributeError "'int' object has no attribute 'to'"))
  /\ (forall v b c d x,
        field_to kwargs Tensor_to kw v = Raise x ->
        example_to kw (mkExample v b c d) = (Raise x, mkExample v b c d))
  /\ (forall a v c d x,
        field_to kwargs Tensor_to kw v = Raise x ->
        example_to kw (mkExample (PTensor a) v c d)
        = (Raise x, mkExample (PTensor (Tensor_to kw a)) v c d))
  /\ (forall a b v d x,
        field_to kwargs Tensor_to kw v = Raise x ->
        example_to kw (mkExample (PTensor a) (PTensor b) v d)
        = (Raise x,
           mkExample (PTensor (Tensor_to kw a)) (PTensor (Tensor_to kw b))
                     v d))
  /\ (forall a b c v x,
        field_to kwargs Tensor_to kw v = Raise x ->
        example_to kw (mkExample (PTensor a) (PTensor b) (PTensor c) v)
        = (Raise x,
           mkExample (PTensor (Tensor_to kw a)) (PTensor (Tensor_to kw b))
                     (PTensor (Tensor_to kw c)) v))
  /\ (forall s t,
        example_to kw (pre_batching s t)
        = (Raise (AttributeError "'list' object has no attribute 'to'"),
           pre_batching s t))
  /\ (forall a t c d,
        example_to kw (mkExample (PTensor a) (PTokens t) c d)
        = (Raise (AttributeError "'list' object has no attribute 'to'"),
           mkExample (PTensor (Tensor_to kw a)) (PTokens t) c d))
  /\ (forall e e' x,
        example_to kw e = (Raise x, e') -> e' <> e ->
        is_tensor (src e)
        /\ ~ (is_tensor (tgt e) /\ is_tensor (src_lengths e)
              /\ is_tensor (tgt_lengths e))).
Proof.
  split; [|split; [|split; [|split; [|split; [|split; [|split; [|split;
    [|split; [|split]]]]]]]]].
  - intros a b c d. reflexivity.
  - intros [v1 v2 v3 v4] e' r. unfold IWSLTExample_to, bind. cbn.
    destruct v1 as [n|toks|t1]; cbn; try discriminate.
    destruct v2 as [n|toks|t2]; cbn; try discriminate.
    destruct v3 as [n|toks|t3]; cbn; try discriminate.
    destruct v4 as [n|toks|t4]; cbn; try discriminate.
    intros _. unfold is_tensor. repeat split; eexists; reflexivity.
  - intros toks. reflexivity.
  - intros n. reflexivity.
  - intros v b c d x Hv. unfold IWSLTExample_to, bind. cbn [src].
    rewrite Hv. reflexivity.
  - intros a v c d x Hv. unfold IWSLTExample_to, bind.
    cbn [src tgt src_lengths tgt_lengths field_to]. rewrite Hv. reflexivity.
  - intros a b v d x Hv. unfold IWSLTExample_to, bind.
    cbn [src tgt src_lengths tgt_lengths field_to]. rewrite Hv. reflexivity.
  - intros a b c v x Hv. unfold IWSLTExample_to, bind.
    cbn [src tgt src_lengths tgt_lengths field_to]. rewrite Hv. reflexivity.
  - intros s t. reflexivity.
  - intros a t c d. reflexivity.
  - intros [v1 v2 v3 v4] e' x. unfold IWSLTExample_to, bind. cbn.
    destruct v1 as [n|toks|t1]; cbn;
      try (intros H Hne; inversion H; subst; now contradiction Hne).
    intros H Hne. split; [eexists; reflexivity|].
    intros ([t2 E2] & [t3 E3] & [t4 E4]). subst. cbn in H. discriminate.
Qed.

End ExampleTo.

(** C10, as stated, fails on an example from before batching: the call raises
    at [src], before any field is assigned, so the example is not partly
    updated; and this is so for every such example. *)
Lemma example_to_pre_batching_unchanged :
  IWSLTExample_to string example_Tensor_to "cuda"
                  (pre_batching ["le"; "chat"] ["the"; "cat"])
  = (Raise (AttributeError "'list' object has no attribute 'to'"),
     pre_batching ["le"; "chat"] ["the"; "cat"])
  /\ ~ (exists (s t : list string) (device : string),
          snd (IWSLTExample_to string example_Tensor_to device
                               (pre_batching s t))
          <> pre_batching s t).
Proof.
  split; [reflexivity|].
  intros (s & t & device & H). apply H. reflexivity.
Qed.

Lemma example_to_behaviour_witness :
  IWSLTExample_to string example_Tensor_to "cuda"
    (mkExample (PTensor (mkTensor int64 "cpu" (Mat (mkT2 [[3; 1]]%Z 2))))
               (PTensor (mkTensor int64 "cpu" (Mat (mkT2 [[0; 5; 1]]%Z 3))))
               (PInt 0)
               (PTensor (mkTensor int32 "cpu" (Vec [3]%Z))))
  = (Raise (AttributeError "'int' object has no attribute 'to'"),
     mkExample (PTensor (mkTensor int64 "cuda" (Mat (mkT2 [[3; 1]]%Z 2))))
               (PTensor (mkTensor int64 "cuda" (Mat (mkT2 [[0; 5; 1]]%Z 3))))
               (PInt 0)
               (PTensor (mkTensor int32 "cpu" (Vec [3]%Z)))).
Proof.
  apply (proj1 (proj2 (proj2 (proj2 (proj2 (proj2 (proj2
           (example_to_behaviour string example_Tensor_to "cuda")))))))).
  reflexivity.
Defined.

(** ** From the data set to the batch and to the device *)

Section Batches.

Variable cfg : Settings.

(** What [__getitem__] returns holds two sentences. *)
Lemma getitem_fields (ds : IWSLTDataset) (i : Z) (e : IWSLTExample) :
  IWSLTDataset_getitem ds i = Ok e -> token_fields e.
Proof.
  unfold IWSLTDataset_getitem. intros H.
  destruct (py_index (src_text ds) i) as [a|]; cbn [rbind] in H;
    [|discriminate].
  destruct (py_index (tgt_text ds) i) as [b|]; cbn [rbind] in H;
    [|discriminate].
  inversion H; subst. split; eexists; reflexivity.
Qed.

(** The padded and numbered sentences of a batch make a tensor. *)
Lemma padded_tensor (v : Vocab) (sentences : list (list string))
    (pad_token : string) (init_token end_token : option string) :
  sentences <> [] ->
  torch_tensor2
    (numerize v (fst (pad_to_same_length sentences pad_token
                                         init_token end_token)))
  = Ok (mkTensor int64 "cpu"
          (Mat (mkT2
                  (numerize v (fst (pad_to_same_length sentences pad_token
                                      init_token end_token)))
                  (list_max
                     (map (@List.length string)
                          (map (fun s => opt_token init_token ++ s
                                         ++ opt_token end_token)
                               sentences)))))).
Proof.
  intros Hne. apply torch_tensor2_rows.
  - unfold numerize. intros E. apply map_eq_nil in E.
    now apply (pad_not_empty sentences pad_token init_token end_token Hne).
  - apply numerize_rows. apply pad_rows_length.
Qed.

(** X22.  Whatever [collate_fn] returns has four tensor fields, the sentences
    as 64-bit integers and the lengths as 32-bit integers; so [to] succeeds on
    it and replaces all four. *)
Theorem collated_batch_moves (self : IWSLTDataloader)
    (batch : list IWSLTExample) (e : IWSLTExample)
    (kwargs : Type) (Tensor_to : kwargs -> Tensor -> Tensor) (kw : kwargs) :
  collate_fn cfg self batch = Ok e ->
  exists a b c d,
    e = mkExample (PTensor a) (PTensor b) (PTensor c) (PTensor d)
    /\ t_dtype a = int64 /\ t_dtype b = int64
    /\ t_dtype c = int32 /\ t_dtype d = int32
    /\ IWSLTExample_to kwargs Tensor_to kw e
       = (Ok tt,
          mkExample (PTensor (Tensor_to kw a)) (PTensor (Tensor_to kw b))
                    (PTensor (Tensor_to kw c)) (PTensor (Tensor_to kw d))).
Proof.
  unfold collate_fn. intros H.
  destruct (rmap (fun example => sentence_of (src example)) batch)
    as [srcs|]; cbn [rbind] in H; [|discriminate].
  destruct (pad_to_same_length srcs _ _ _) as [sp sl].
  destruct (rmap (fun example => sentence_of (tgt example)) batch)
    as [tgts|]; cbn [rbind] in H; [|discriminate].
  destruct (pad_to_same_length tgts _ _ _) as [tp tl].
  destruct (torch_tensor2 (numerize (dl_src_vocab self) sp)) as [a|];
    cbn [rbind] in H; [|discriminate].
  destruct (torch_tensor2 (numerize (dl_tgt_vocab self) tp)) as [b|];
    cbn [rbind] in H; [|discriminate].
  inversion H; subst. do 4 eexists. repeat split.
Qed.

(** X23.  Examples that [__getitem__] returned, at least one of them, always
    collate: a batch drawn from a data set cannot make [collate_fn] fail. *)
Theorem dataset_batch_collates (self : IWSLTDataloader) (ds : IWSLTDataset)
    (indices : list Z) (batch : list IWSLTExample) :
  indices <> [] ->
  rmap (IWSLTDataset_getitem ds) indices = Ok batch ->
  exists e, collate_fn cfg self batch = Ok e.
Proof.
  intros Hne Hbatch.
  assert (Hfields : Forall token_fields batch).
  { revert batch Hbatch. clear Hne.
    induction indices as [|i l IH]; intros batch H; cbn [rmap] in H.
    - inversion H. constructor.
    - destruct (IWSLTDataset_getitem ds i) as [e|] eqn:Ei;
        cbn [rbind] in H; [|discriminate].
      destruct (rmap (IWSLTDataset_getitem ds) l) as [es|];
        cbn [rbind] in H; [|discriminate].
      inversion H; subst. constructor; [|now apply IH].
      exact (getitem_fields ds i e Ei). }
  assert (Hb : batch <> []).
  { destruct indices as [|i l]; [congruence|]. cbn [rmap] in Hbatch.
    destruct (IWSLTDataset_getitem ds i); cbn [rbind] in Hbatch;
      [|discriminate].
    destruct (rmap (IWSLTDataset_getitem ds) l); cbn [rbind] in Hbatch;
      [|discriminate].
    inversion Hbatch. discriminate. }
  unfold collate_fn.
  rewrite (sentences_of_src batch Hfields). cbn [rbind].
  rewrite (surjective_pairing (pad_to_same_length _ (EOS_WORD cfg) None _)).
  rewrite (sentences_of_tgt batch Hfields). cbn [rbind].
  rewrite (surjective_pairing
             (pad_to_same_length _ (EOS_WORD cfg) (Some (BOS_WORD cfg)) _)).
  rewrite padded_tensor by (destruct batch; [congruence|discriminate]).
  cbn [rbind].
  rewrite padded_tensor by (destruct batch; [congruence|discriminate]).
  cbn [rbind]. eexists. reflexivity.
Qed.

End Batches.

Lemma collated_batch_moves_witness :
  exists a b c d,
    mkExample (PTensor (mkTensor int64 "cpu" (Mat (mkT2 [[3; 4; 1]]%Z 3))))
              (PTensor (mkTensor int64 "cpu" (Mat (mkT2 [[0; 5; 6; 1]]%Z 4))))
              (PTensor (mkTensor int32 "cpu" (Vec [3]%Z)))
              (PTensor (mkTensor int32 "cpu" (Vec [4]%Z)))
    = mkExample (PTensor a) (PTensor b) (PTensor c) (PTensor d)
    /\ t_dtype a = int64 /\ t_dtype b = int64
    /\ t_dtype c = int32 /\ t_dtype d = int32
    /\ IWSLTExample_to string example_Tensor_to "cuda"
         (mkExample
            (PTensor (mkTensor int64 "cpu" (Mat (mkT2 [[3; 4; 1]]%Z 3))))
            (PTensor (mkTensor int64 "cpu" (Mat (mkT2 [[0; 5; 6; 1]]%Z 4))))
            (PTensor (mkTensor int32 "cpu" (Vec [3]%Z)))
            (PTensor (mkTensor int32 "cpu" (Vec [4]%Z))))
       = (Ok tt,
          mkExample (PTensor (example_Tensor_to "cuda" a))
                    (PTensor (example_Tensor_to "cuda" b))
                    (PTensor (example_Tensor_to "cuda" c))
                    (PTensor (example_Tensor_to "cuda" d))).
Proof.
  apply (collated_batch_moves example_cfg
           (IWSLTDataloader_init example_dataset 1 false 0 false false 0)
           [pre_batching ["le"; "chat"] ["the"; "cat"]]).
  reflexivity.
Defined.

Lemma dataset_batch_collates_witness :
  exists e,
    collate_fn example_cfg
      (IWSLTDataloader_init example_dataset 2 false 0 false false 0)
      [pre_batching ["chat"] ["cat"]; pre_batching ["le"; "chat"] ["the"; "cat"]]
    = Ok e.
Proof.
  apply (dataset_batch_collates example_cfg
           (IWSLTDataloader_init example_dataset 2 false 0 false false 0)
           example_dataset [1; -2]%Z).
  - discriminate.
  - reflexivity.
Defined.

(** ** Slices and masks *)

Lemma length_removelast {A : Type} (l : list A) :
  List.length (removelast l) = List.length l - 1.
Proof.
  rewrite removelast_firstn_len, length_firstn. lia.
Qed.

Lemma nth_error_removelast {A : Type} (l : list A) (j : nat) :
  j < List.length l - 1 -> nth_error (removelast l) j = nth_error l j.
Proof.
  intros H. rewrite removelast_firstn_len, nth_error_firstn.
  assert (E : (j <? Init.Nat.pred (List.length l))%nat = true)
    by (apply Nat.ltb_lt; lia).
  now rewrite E.
Qed.

(** [t[:, :-1]] and [t[:, 1:]] of a tensor of shape [[d0, d1]] have shape
    [[d0, d1 - 1]]. *)
Lemma drop_last_col_shape {A : Type} (t : tensor2 A) (d0 d1 : nat) :
  shape2 t d0 d1 -> shape2 (drop_last_col t) d0 (d1 - 1).
Proof.
  intros (H0 & H1 & Hr). unfold shape2, drop_last_col. cbn [rows width].
  rewrite length_map, Forall_map. repeat split; [assumption | now rewrite H1 |].
  eapply Forall_impl; [|exact Hr]. cbn beta. intros r E.
  now rewrite length_removelast, E.
Qed.

Lemma drop_first_col_shape {A : Type} (t : tensor2 A) (d0 d1 : nat) :
  shape2 t d0 d1 -> shape2 (drop_first_col t) d0 (d1 - 1).
Proof.
  intros (H0 & H1 & Hr). unfold shape2, drop_first_col. cbn [rows width].
  rewrite length_map, Forall_map. repeat split; [assumption | now rewrite H1 |].
  eapply Forall_impl; [|exact Hr]. cbn beta. intros r E.
  now rewrite length_tl, E.
Qed.

(** The entries of the two slices: the decoder input keeps every column
    but the last, the target output is the input moved by one. *)
Lemma drop_last_col_entry {A : Type} (t : tensor2 A) (d0 d1 i j : nat) :
  shape2 t d0 d1 -> j < d1 - 1 ->
  entry (drop_last_col t) i j = entry t i j.
Proof.
  intros (_ & _ & Hr) Hj. unfold entry, drop_last_col. cbn [rows].
  rewrite nth_error_map.
  destruct (nth_error (rows t) i) as [r|] eqn:E; [|reflexivity].
  cbn [option_map]. apply nth_error_removelast.
  rewrite Forall_forall in Hr. rewrite (Hr r (nth_error_In _ _ E)). exact Hj.
Qed.

Lemma drop_first_col_entry {A : Type} (t : tensor2 A) (i j : nat) :
  entry (drop_first_col t) i j = entry t i (S j).
Proof.
  unfold entry, drop_first_col. cbn [rows]. rewrite nth_error_map.
  destruct (nth_error (rows t) i) as [r|]; [|reflexivity]. cbn [option_map].
  symmetry. apply nth_error_S.
Qed.

Lemma map2d_shape {A B : Type} (f : A -> B) (t : tensor2 A) (d0 d1 : nat) :
  shape2 t d0 d1 -> shape2 (map2d f t) d0 d1.
Proof.
  intros (H0 & H1 & Hr). unfold shape2, map2d. cbn [rows width].
  rewrite length_map, Forall_map. repeat split; try assumption.
  eapply Forall_impl; [|exact Hr]. cbn beta. intros r E.
  now rewrite length_map.
Qed.

Lemma sequence_mask_shape (lengths : list Z) (max_len : nat) :
  shape2 (sequence_mask lengths max_len) (List.length lengths) max_len.
Proof.
  unfold shape2, sequence_mask. cbn [rows width].
  rewrite length_map, Forall_map. repeat split.
  apply Forall_forall. intros l _. now rewrite length_map, length_seq.
Qed.

Lemma sequence_mask_entry (lengths : list Z) (max_len i j : nat) (l : Z) :
  nth_error lengths i = Some l -> j < max_len ->
  entry (sequence_mask lengths max_len) i j = Some (Z.of_nat j <? l)%Z.
Proof.
  intros Hi Hj. unfold entry, sequence_mask. cbn [rows].
  rewrite nth_error_map, Hi. cbn [option_map].
  rewrite nth_error_map, nth_error_seq.
  assert (E : (j <? max_len)%nat = true) by now apply Nat.ltb_lt.
  rewrite E. reflexivity.
Qed.

Lemma map2d_entry {A B : Type} (f : A -> B) (t : tensor2 A) (i j : nat) :
  entry (map2d f t) i j = option_map f (entry t i j).
Proof.
  unfold entry, map2d. cbn [rows]. rewrite nth_error_map.
  destruct (nth_error (rows t) i) as [r|]; [|reflexivity]. cbn [option_map].
  apply nth_error_map.
Qed.

(** The mask of the specification's example: lengths 3, 1, 2 and width 4. *)
Example sequence_mask_example :
  rows (sequence_mask [3; 1; 2]%Z 4)
  = [[true; true; true; false];
     [true; false; false; false];
     [true; true; false; false]].
Proof. reflexivity. Qed.

(** ** Integers of a fixed width *)

(** A value of the type is kept. *)
Lemma wrap_in_range (d : int_dtype) (z : Z) :
  (int_min d <= z <= int_max d)%Z -> wrap d z = z.
Proof.
  destruct d; unfold wrap, wrap64, wrap32, int_min, int_max; intros H.
  - rewrite Z.mod_small; lia.
  - rewrite Z.mod_small; lia.
Qed.

(** One below the smallest value is the largest. *)
Lemma wrap_below_min (d : int_dtype) : wrap d (int_min d - 1) = int_max d.
Proof. destruct d; reflexivity. Qed.

(** ** Agent.forward *)

Section Forward.

Variable self : Agent.

(** C1.  What the code does when [tgt_lengths] is not supplied: the mask is
    [None] after the conditional expression, and the next statement calls
    [.float()] on it, so the call raises an attribute error for every input
    and returns no tuple at all.  The docstring of [forward] promises the
    opposite, a result whose mask is [None]. *)
Theorem forward_without_tgt_lengths (src tgt : tensor2 Z)
    (src_lengths : option (list Z)) (with_align : bool) :
  forward self src tgt src_lengths None with_align
  = Raise (AttributeError "'NoneType' object has no attribute 'float'").
Proof.
  unfold forward.
  destruct (encoder_encode self src) as [states memory].
  destruct (decoder_teacher_forcing self (drop_last_col tgt) memory states
                                    src_lengths) as [logits alignments].
  reflexivity.
Qed.

(** [forward] with lengths supplied, in terms of what the encoder and the
    decoder return. *)
Lemma forward_unfold (src tgt : tensor2 Z) (src_lengths : option (list Z))
    (tgt_lengths : lengths_tensor) (with_align : bool) :
  let enc := encoder_encode self src in
  let dec := decoder_teacher_forcing self (drop_last_col tgt)
                                     (snd enc) (fst enc) src_lengths in
  forward self src tgt src_lengths (Some tgt_lengths) with_align
  = Ok ([Float3 self (log_softmax self (fst dec));
         Long2 (drop_first_col tgt);
         Float2 self
           (map2d (float_of_byte self)
                  (sequence_mask (len_values (lengths_sub tgt_lengths 1))
                                 (dim1 (fst dec))))]
        ++ if with_align then [Float3 self (snd dec)] else []).
Proof.
  cbv zeta. unfold forward.
  destruct (encoder_encode self src) as [states memory]. cbn [fst snd].
  destruct (decoder_teacher_forcing self (drop_last_col tgt) memory states
                                    src_lengths) as [logits alignments].
  cbn [fst snd]. destruct with_align; reflexivity.
Qed.

(** C2.  Let [tgt] have shape [[bsz, tgt_len]], let there be one target
    length per row, in a tensor of an integer type, and let the decoder return
    logits with as many time steps as its input has columns.  With
    [tgt_lengths] supplied, [forward] gives the decoder [tgt[:, :-1]]
    (together with the encoder's memory and states and [src_lengths]) and
    returns the tuple of: the log-softmax of the logits along the last
    dimension; [tgt[:, 1:]]; the mask of [tgt_lengths - 1] with
    [max_len = logits.size(1)], as floats; and, exactly when [with_align] is
    true, the alignments as a fourth element.  The log-probabilities, the
    target output and the mask all have [tgt_len - 1] time steps.  The
    subtraction is that of the tensor, in its integer type: entry [[i, j]] of
    the mask is the float of [j < tgt_lengths[i] - 1] for every length that is
    a value of the type other than its smallest, and for the smallest value,
    where the subtraction wraps around to the largest, the row is all ones.
    Entry [[i, j]] of the target output is entry [[i, j + 1]] of [tgt], and
    the decoder input agrees with [tgt] on its columns. *)
Theorem forward_with_tgt_lengths (src tgt : tensor2 Z)
    (src_lengths : option (list Z)) (tgt_lengths : lengths_tensor)
    (with_align : bool) (bsz tgt_len : nat) :
  shape2 tgt bsz tgt_len ->
  List.length (len_values tgt_lengths) = bsz ->
  let enc := encoder_encode self src in
  let tgt_in := drop_last_col tgt in
  let dec := decoder_teacher_forcing self tgt_in (snd enc) (fst enc)
                                     src_lengths in
  let logits := fst dec in
  let alignments := snd dec in
  dim1 logits = width tgt_in ->
  let logprobs := log_softmax self logits in
  let tgt_out := drop_first_col tgt in
  let d := len_dtype tgt_lengths in
  let mask :=
    map2d (float_of_byte self)
          (sequence_mask (map (fun l => wrap d (l - 1)) (len_values tgt_lengths))
                         (dim1 logits)) in
  forward self src tgt src_lengths (Some tgt_lengths) with_align
  = Ok ([Float3 self logprobs; Long2 tgt_out; Float2 self mask]
        ++ if with_align then [Float3 self alignments] else [])
  /\ (forall outputs,
        forward self src tgt src_lengths (Some tgt_lengths) with_align
        = Ok outputs ->
        (List.length outputs = 4 <-> with_align = true)
        /\ (List.length outputs = 3 <-> with_align = false))
  /\ shape2 tgt_in bsz (tgt_len - 1)
  /\ shape2 tgt_out bsz (tgt_len - 1)
  /\ dim1 logprobs = tgt_len - 1
  /\ shape2 mask bsz (tgt_len - 1)
  /\ (forall i j l,
        nth_error (len_values tgt_lengths) i = Some l -> j < tgt_len - 1 ->
        entry mask i j
        = Some (float_of_byte self (Z.of_nat j <? wrap d (l - 1))%Z))
  /\ (forall i j l,
        nth_error (len_values tgt_lengths) i = Some l -> j < tgt_len - 1 ->
        (int_min d < l <= int_max d)%Z ->
        entry mask i j = Some (float_of_byte self (Z.of_nat j <? l - 1)%Z))
  /\ (forall i j,
        nth_error (len_values tgt_lengths) i = Some (int_min d) ->
        j < tgt_len - 1 -> (Z.of_nat tgt_len - 1 <= int_max d)%Z ->
        entry mask i j = Some (float_of_byte self true))
  /\ (forall i j, entry tgt_out i j = entry tgt i (S j))
  /\ (forall i j, j < tgt_len - 1 -> entry tgt_in i j = entry tgt i j).
Proof.
  intros Hshape Hlens enc tgt_in dec logits alignments Hdec
         logprobs tgt_out d mask.
  pose proof (forward_unfold src tgt src_lengths tgt_lengths with_align) as E.
  cbv zeta in E. unfold lengths_sub in E. cbn [len_values] in E.
  fold enc in E. fold tgt_in in E. fold dec in E.
  fold logits alignments in E. fold d in E. fold logprobs tgt_out mask in E.
  pose proof (drop_last_col_shape tgt bsz tgt_len Hshape) as Hin.
  fold tgt_in in Hin.
  assert (Hd1 : dim1 logits = tgt_len - 1).
  { rewrite Hdec. now destruct Hin as (_ & Hw & _). }
  assert (Hentry : forall i j l,
             nth_error (len_values tgt_lengths) i = Some l -> j < tgt_len - 1 ->
             entry mask i j
             = Some (float_of_byte self (Z.of_nat j <? wrap d (l - 1))%Z)).
  { intros i j l Hi Hj. subst mask. rewrite map2d_entry.
    rewrite (sequence_mask_entry _ (dim1 logits) i j (wrap d (l - 1))).
    - reflexivity.
    - rewrite nth_error_map, Hi. reflexivity.
    - now rewrite Hd1. }
  split; [exact E|].
  split; [|split; [|split; [|split; [|split; [|split; [|split; [|split;
    [|split]]]]]]]].
  - intros outputs H. rewrite E in H. inversion H; subst outputs.
    destruct with_align; cbn; split; split; intros; congruence.
  - exact Hin.
  - apply drop_first_col_shape. exact Hshape.
  - exact Hd1.
  - subst mask. apply map2d_shape. rewrite Hd1, <- Hlens.
    rewrite <- (length_map (fun l => wrap d (l - 1)) (len_values tgt_lengths)).
    apply sequence_mask_shape.
  - exact Hentry.
  - intros i j l Hi Hj Hl. rewrite (Hentry i j l Hi Hj).
    rewrite wrap_in_range by lia. reflexivity.
  - intros i j Hi Hj Hmax. rewrite (Hentry i j (int_min d) Hi Hj).
    rewrite wrap_below_min.
    assert (Hlt : (Z.of_nat j <? int_max d)%Z = true)
      by (apply Z.ltb_lt; lia).
    now rewrite Hlt.
  - intros i j. apply drop_first_col_entry.
  - intros i j Hj. now apply (drop_last_col_entry tgt bsz tgt_len).
Qed.

End Forward.

(** A batch of two targets of three tokens through the example Agent. *)
Lemma forward_with_tgt_lengths_witness :
  forward example_agent (mkT2 [[3; 4; 1]; [4; 1; 1]]%Z 3)
          (mkT2 [[0; 5; 6]; [0; 6; 1]]%Z 3)
          (Some [3; 2]%Z) (Some (mkLengths int32 [3; 2]%Z)) true
  = Ok [Float3 example_agent (mkT3 [[[0]; [0]]; [[0]; [0]]]%Z 2 1);
        Long2 (mkT2 [[5; 6]; [6; 1]]%Z 2);
        Float2 example_agent (mkT2 [[1; 1]; [1; 0]]%Z 2);
        Float3 example_agent (mkT3 [[[1]; [1]]; [[1]; [1]]]%Z 2 2)].
Proof.
  refine (proj1 (forward_with_tgt_lengths example_agent
                   (mkT2 [[3; 4; 1]; [4; 1; 1]]%Z 3)
                   (mkT2 [[0; 5; 6]; [0; 6; 1]]%Z 3)
                   (Some [3; 2]%Z) (mkLengths int32 [3; 2]%Z) true 2 3
                   _ _ _)).
  - repeat split. repeat constructor.
  - reflexivity.
  - reflexivity.
Defined.

(** The call of C1 on the same batch. *)
Example forward_without_tgt_lengths_example :
  forward example_agent (mkT2 [[3; 4; 1]; [4; 1; 1]]%Z 3)
          (mkT2 [[0; 5; 6]; [0; 6; 1]]%Z 3)
          (Some [3; 2]%Z) None false
  = Raise (AttributeError "'NoneType' object has no attribute 'float'").
Proof. reflexivity. Qed.

(** The smallest 32-bit length: [tgt_lengths - 1] wraps around, and the row
    of the mask is all ones. *)
Example forward_smallest_length_example :
  forward example_agent (mkT2 [[3; 4; 1]; [4; 1; 1]]%Z 3)
          (mkT2 [[0; 5; 6]; [0; 6; 1]]%Z 3)
          None (Some (mkLengths int32 [-2147483648; 2]%Z)) false
  = Ok [Float3 example_agent (mkT3 [[[0]; [0]]; [[0]; [0]]]%Z 2 1);
        Long2 (mkT2 [[5; 6]; [6; 1]]%Z 2);
        Float2 example_agent (mkT2 [[1; 1]; [1; 0]]%Z 2)].
Proof. reflexivity. Qed.

(** ** Forward on a target and on a collated batch *)

Section ForwardMore.

Variable self : Agent.

(** X24.  The decoder never sees the last column of the target: two targets
    that differ in their last column only give the same log-probabilities, the
    same mask and the same alignments; only the target output, the second
    element of the tuple, can differ. *)
Theorem forward_ignores_last_target_column (src tgt tgt' : tensor2 Z)
    (src_lengths : option (list Z)) (tgt_lengths : lengths_tensor)
    (with_align : bool) :
  same_but_last_col tgt tgt' ->
  exists outputs outputs',
    forward self src tgt src_lengths (Some tgt_lengths) with_align = Ok outputs
    /\ forward self src tgt' src_lengths (Some tgt_lengths) with_align
       = Ok outputs'
    /\ forall k, k <> 1 -> nth_error outputs k = nth_error outputs' k.
Proof.
  intros H. unfold same_but_last_col in H.
  pose proof (forward_unfold self src tgt src_lengths tgt_lengths with_align)
    as E.
  pose proof (forward_unfold self src tgt' src_lengths tgt_lengths with_align)
    as E'.
  cbv zeta in E, E'. rewrite <- H in E'.
  eexists. eexists. split; [exact E|]. split; [exact E'|].
  intros k Hk. destruct k as [|[|k]]; [reflexivity | congruence | reflexivity].
Qed.

End ForwardMore.

Section CollatedForward.

Variable cfg : Settings.
Variable loader : IWSLTDataloader.
Variable agent : Agent.

Lemma numerize_token_index (v : Vocab) (batch : list (list string)) :
  numerize v batch = map (map (token_index v)) batch.
Proof. reflexivity. Qed.

Lemma nth_padded (s : list string) (eos : string) (k j : nat) :
  j < List.length s + 1 + k ->
  nth_error ((s ++ [eos]) ++ repeat eos k) j
  = Some (nth j (s ++ [eos]) eos).
Proof.
  intros Hj.
  rewrite (nth_error_nth' _ eos)
    by (rewrite !length_app, repeat_length; cbn; lia).
  f_equal.
  destruct (Nat.lt_ge_cases j (List.length (s ++ [eos]))) as [Hlt|Hge].
  - now apply app_nth1.
  - rewrite app_nth2 by exact Hge.
    rewrite (nth_overflow (s ++ [eos])) by exact Hge.
    apply nth_repeat.
Qed.

Lemma ltb_of_nat (j n : nat) :
  (Z.of_nat j <? Z.of_nat (n + 1 + 1) - 1)%Z = (j <? n + 1)%nat.
Proof.
  destruct (Nat.ltb_spec j (n + 1)) as [H|H].
  - apply Z.ltb_lt. lia.
  - apply Z.ltb_ge. lia.
Qed.

(** X25.  From [collate_fn] to [forward]. Take a batch of sentences (each
    target shorter than 2^31 - 2 tokens) and a decoder that returns as many
    time steps as its input has columns. The batch collates; and when its [tgt]
    and [tgt_lengths] are given to [forward], then in row [i], at every time
    step [j], the mask is 1 exactly on the first [n + 1] steps, [n] being the
    number of tokens of target sentence [i], and the target output holds the
    indices of those [n] tokens, then of the end token, and after that of the
    padding (the end token again). So the mask covers the sentence and its end
    token and leaves out the begin token and the padding. *)
Theorem collated_mask_covers_sentence (batch : list IWSLTExample)
    (source : tensor2 Z) (src_lengths : option (list Z))
    (with_align : bool) :
  keeps_time agent ->
  batch <> [] ->
  Forall token_fields batch ->
  Forall (fun e => (Z.of_nat (List.length (field_tokens (tgt e))) + 2
                    < 2 ^ 31)%Z) batch ->
  exists (T : tensor2 Z) (L : list Z) (e : IWSLTExample)
         logprobs mask alignments,
    collate_fn cfg loader batch = Ok e
    /\ tgt e = PTensor (mkTensor int64 "cpu" (Mat T))
    /\ tgt_lengths e = PTensor (mkTensor int32 "cpu" (Vec L))
    /\ forward agent source T src_lengths (Some (mkLengths int32 L))
               with_align
       = Ok (logprobs :: Long2 (drop_first_col T) :: Float2 agent mask
             :: alignments)
    /\ forall i ex j,
         nth_error batch i = Some ex -> j < width T - 1 ->
         entry mask i j
         = Some (float_of_byte agent
                   (j <? List.length (field_tokens (tgt ex)) + 1)%nat)
         /\ entry (drop_first_col T) i j
            = Some (token_index (dl_tgt_vocab loader)
                      (nth j (field_tokens (tgt ex) ++ [EOS_WORD cfg])
                           (EOS_WORD cfg))).
Proof.
  intros Hdec Hne Hfields Hshort.
  set (tgts := map (fun e => field_tokens (tgt e)) batch).
  set (srcs := map (fun e => field_tokens (src e)) batch).
  set (eos := EOS_WORD cfg). set (bos := BOS_WORD cfg).
  set (tgt_pad := pad_to_same_length tgts eos (Some bos) (Some eos)).
  set (W := list_max (map (@List.length string)
                          (map (fun s => opt_token (Some bos) ++ s
                                         ++ opt_token (Some eos)) tgts))).
  set (T := mkT2 (numerize (dl_tgt_vocab loader) (fst tgt_pad)) W).
  set (L := map wrap32 (snd tgt_pad)).
  assert (Hsrcs : srcs <> []) by (destruct batch; [congruence|discriminate]).
  assert (Htgts : tgts <> []) by (destruct batch; [congruence|discriminate]).
  pose proof (forward_unfold agent source T src_lengths (mkLengths int32 L)
                             with_align) as E.
  cbv zeta in E. unfold lengths_sub in E. cbn [len_values len_dtype wrap] in E.
  set (dec := decoder_teacher_forcing agent (drop_last_col T)
                (snd (encoder_encode agent source))
                (fst (encoder_encode agent source)) src_lengths) in E.
  assert (Hd1 : dim1 (fst dec) = W - 1) by (unfold dec; now rewrite Hdec).
  exists T, L.
  eexists. eexists. eexists. eexists.
  split; [|split; [|split; [|split; [exact E|]]]].
  - unfold collate_fn.
    rewrite (sentences_of_src batch Hfields). cbn [rbind]. fold srcs.
    rewrite (surjective_pairing (pad_to_same_length srcs _ None _)).
    rewrite (sentences_of_tgt batch Hfields). cbn [rbind]. fold tgts.
    rewrite (surjective_pairing
               (pad_to_same_length tgts _ (Some (BOS_WORD cfg)) _)).
    rewrite (padded_tensor _ srcs _ _ _ Hsrcs). cbn [rbind].
    rewrite (padded_tensor _ tgts _ _ _ Htgts). cbn [rbind].
    reflexivity.
  - reflexivity.
  - reflexivity.
  - intros i ex j Hi Hj. cbn [width T] in Hj.
    assert (Hs : nth_error tgts i = Some (field_tokens (tgt ex)))
      by (unfold tgts; now rewrite nth_error_map, Hi).
    set (s := field_tokens (tgt ex)) in *.
    assert (Hsmall : (Z.of_nat (List.length s) + 2 < 2 ^ 31)%Z).
    { rewrite Forall_forall in Hshort.
      exact (Hshort ex (nth_error_In _ _ Hi)). }
    assert (HW : List.length s + 1 + 1 <= W).
    { pose proof (list_max_bound
                    (map (@List.length string)
                         (map (fun s => opt_token (Some bos) ++ s
                                        ++ opt_token (Some eos)) tgts))) as Hb.
      fold W in Hb. rewrite !Forall_map, Forall_forall in Hb.
      specialize (Hb s (nth_error_In _ _ Hs)). cbn beta in Hb.
      rewrite !length_app in Hb. cbn [opt_token List.length] in Hb. lia. }
    split.
    + rewrite map2d_entry.
      rewrite (sequence_mask_entry _ (dim1 (fst dec)) i j
                 (Z.of_nat (List.length s + 1 + 1) - 1)%Z).
      * cbn [option_map]. now rewrite ltb_of_nat.
      * unfold L, tgt_pad. rewrite pad_lengths.
        rewrite !nth_error_map, Hs. cbn [option_map opt_token List.length].
        rewrite (wrap32_small (Z.of_nat _)) by lia.
        rewrite wrap32_small by lia. reflexivity.
      * rewrite Hd1. exact Hj.
    + rewrite drop_first_col_entry. unfold entry. cbn [rows T].
      rewrite numerize_token_index. unfold tgt_pad, pad_to_same_length.
      cbn [fst]. rewrite !nth_error_map, Hs. cbn [option_map].
      fold W. cbn [opt_token app].
      rewrite nth_error_map.
      set (k := W - List.length (bos :: s ++ [eos])).
      cbn [nth_error]. rewrite (nth_padded s eos k j).
      * reflexivity.
      * unfold k. cbn [List.length]. rewrite length_app. cbn [List.length].
        lia.
Qed.

End CollatedForward.

Lemma forward_ignores_last_target_column_witness :
  exists outputs outputs',
    forward example_agent (mkT2 [[3; 4; 1]; [4; 1; 1]]%Z 3)
            (mkT2 [[0; 5; 6]; [0; 6; 1]]%Z 3) None
            (Some (mkLengths int32 [3; 2]%Z)) true
    = Ok outputs
    /\ forward example_agent (mkT2 [[3; 4; 1]; [4; 1; 1]]%Z 3)
               (mkT2 [[0; 5; 4]; [0; 6; 3]]%Z 3) None
               (Some (mkLengths int32 [3; 2]%Z)) true
       = Ok outputs'
    /\ forall k, k <> 1 -> nth_error outputs k = nth_error outputs' k.
Proof.
  apply (forward_ignores_last_target_column example_agent).
  reflexivity.
Defined.

Lemma collated_mask_covers_sentence_witness :
  exists (T : tensor2 Z) (L : list Z) (e : IWSLTExample)
         logprobs mask alignments,
    collate_fn example_cfg
      (IWSLTDataloader_init example_dataset 2 false 0 false false 0)
      [pre_batching ["le"; "chat"] ["the"; "cat"];
       pre_batching ["chat"] ["cat"]] = Ok e
    /\ tgt e = PTensor (mkTensor int64 "cpu" (Mat T))
    /\ tgt_lengths e = PTensor (mkTensor int32 "cpu" (Vec L))
    /\ forward example_agent (mkT2 [[3; 4; 1]; [4; 1; 1]]%Z 3) T None
               (Some (mkLengths int32 L)) false
       = Ok (logprobs :: Long2 (drop_first_col T)
             :: Float2 example_agent mask :: alignments)
    /\ forall i ex j,
         nth_error [pre_batching ["le"; "chat"] ["the"; "cat"];
                    pre_batching ["chat"] ["cat"]] i = Some ex ->
         j < width T - 1 ->
         entry mask i j
         = Some (float_of_byte example_agent
                   (j <? List.length (field_tokens (tgt ex)) + 1)%nat)
         /\ entry (drop_first_col T) i j
            = Some (token_index
                      (dl_tgt_vocab
                         (IWSLTDataloader_init example_dataset 2 false 0
                                               false false 0))
                      (nth j (field_tokens (tgt ex) ++ [EOS_WORD example_cfg])
                           (EOS_WORD example_cfg))).
Proof.
  apply (collated_mask_covers_sentence example_cfg
           (IWSLTDataloader_init example_dataset 2 false 0 false false 0)
           example_agent
           [pre_batching ["le"; "chat"] ["the"; "cat"];
            pre_batching ["chat"] ["cat"]]
           (mkT2 [[3; 4; 1]; [4; 1; 1]]%Z 3) None false).
  - intros targets memory states memory_lengths. reflexivity.
  - discriminate.
  - repeat constructor; eexists; reflexivity.
  - repeat constructor; cbn; lia.
Defined.
